(** * The agentic sampling loop of computer_use_demo/loop.py

    A shallow embedding of the message translation layer, the two history
    policies and the sampling loop of [computer_use_demo/loop.py], with the
    properties the specification states about them.

    Python dictionaries whose keys are fixed by the Anthropic and OpenAI
    SDK types are records; tagged dictionaries ("type": ...) are inductive
    types; a key that may be absent is an [option]; exceptions are values of
    [Exn] carried by [Result]. *)

From Stdlib Require Import List String ZArith Lia Bool Arith.
Import ListNotations.
Open Scope string_scope.
Open Scope list_scope.
Set Warnings "-register-all".

(** ** Exceptions and results *)

Inductive Exn : Type :=
| IndexError
| ZeroDivisionError
| JSONDecodeError (doc : string)
| APIStatusError (detail : string)
| APIResponseValidationError (detail : string)
| APIError (detail : string)
| OtherException (detail : string).

Inductive Result (A : Type) : Type :=
| Ok (a : A)
| Raise (e : Exn).
Arguments Ok {A} a.
Arguments Raise {A} e.

(** Truthiness of a Python string and of an optional string. *)
Definition truthy (s : string) : bool := negb (s =? "").

Definition truthy_opt (o : option string) : bool :=
  match o with
  | Some s => truthy s
  | None => false
  end.

(** ** JSON values and JSON text

    The loop never inspects a tool input: it only passes it to the tools,
    to [json.dumps] and takes it from [json.loads].  A JSON text is
    represented by what it denotes: the value it serialises, or a raw
    string that [json.loads] rejects.  Texts that denote the same value are
    not told apart, so the spelling of what [json.dumps] writes is not
    modelled, and no property compares arguments written with the
    arguments read. *)

Inductive json : Type :=
| JNull
| JBool (b : bool)
| JNum (n : Z)
| JStr (s : string)
| JArr (items : list json)
| JObj (fields : list (string * json)).

Inductive json_text : Type :=
| Dumped (j : json)
| NotJson (raw : string).

Definition json_dumps (j : json) : json_text := Dumped j.

Definition json_loads (t : json_text) : Result json :=
  match t with
  | Dumped j => Ok j
  | NotJson raw => Raise (JSONDecodeError raw)
  end.

(** ** Conversation model (Anthropic content blocks) *)

(** An item of a tool result's content list: a text block, an image block,
    or any other item (a dictionary of another type), kept as it is. *)
Inductive ResultItem : Type :=
| RText (text : string)
| RImage (media_type data : string)
| ROther (item : json).

(** The "content" key of a tool_result block: absent, a string or a list. *)
Inductive ResultContent : Type :=
| NoContent
| StrContent (s : string)
| ListContent (items : list ResultItem).

Inductive BlockBody : Type :=
| Text (text : string)
| Image (media_type data : string)
| ToolUse (id name : string) (input : json)
| ToolResultBlock (tool_use_id : string) (content : ResultContent)
                  (is_error : bool)
| Thinking (thinking signature : option string)
| ImageUrl (url : string).

(** A content block is a dictionary, as the parameter types of the SDK say
    (so the [isinstance(block, dict)] tests of the source hold): its typed
    body and the optional "cache_control" key (the value of its "type"
    entry). *)
Record Block : Type := mkBlock {
  body : BlockBody;
  cache_control : option string
}.

Definition block (b : BlockBody) : Block := mkBlock b None.

Inductive Content : Type :=
| Str (s : string)
| Blocks (blocks : list Block).

(** A message of the conversation.  The Nebius branch of the loop appends
    OpenAI-shaped dictionaries to the same list, hence the two optional
    keys. *)
Record Message : Type := mkMessage {
  role : string;
  content : Content;
  tool_call_id : option string;
  name : option string
}.

Definition message (r : string) (c : Content) : Message :=
  mkMessage r c None None.

(** ** OpenAI wire messages *)

Record WireToolCall : Type := mkWireToolCall {
  call_id : string;
  call_type : string;
  function_name : string;
  function_arguments : json_text
}.

Inductive WirePart : Type :=
| PText (text : string)
| PImageUrl (url : string).

Inductive WireContent : Type :=
| WStr (s : string)
| WParts (parts : list WirePart).

Record WireMessage : Type := mkWire {
  wire_role : string;
  wire_content : option WireContent;
  wire_tool_calls : option (list WireToolCall);
  wire_tool_call_id : option string
}.

Definition data_url (media_type data : string) : string :=
  ("data:" ++ media_type ++ ";base64," ++ data)%string.

(** The synthetic user message that carries one image. *)
Definition wire_image_message (media_type data : string) : WireMessage :=
  mkWire "user" (Some (WParts [PImageUrl (data_url media_type data)]))
         None None.

Definition wire_tool_message (id text : string) : WireMessage :=
  mkWire "tool" (Some (WStr text)) None (Some id).

(** ** Tool results

    The ToolResult dataclass is declared in the tools package, which is not
    among the sources: the record has the four attributes [loop.py] reads,
    each a string or None. *)

Record ToolResult : Type := mkToolResult {
  output : option string;
  error : option string;
  base64_image : option string;
  system : option string
}.

Definition opt_str (o : option string) : string :=
  match o with
  | Some s => s
  | None => "None"
  end.

Definition newline : string := String (Ascii.ascii_of_nat 10) EmptyString.

Definition _maybe_prepend_system_tool_result (result : ToolResult)
           (result_text : string) : string :=
  if truthy_opt (system result)
  then ("<system>" ++ opt_str (system result) ++ "</system>" ++ newline
        ++ result_text)%string
  else result_text.

(** ** _convert_anthropic_messages_to_openai *)

Module Convert.

(** The assistant branch: the loop over the blocks accumulates
    [content_text] and [tool_calls]. *)
Fixpoint assistant_blocks (blocks : list Block) (content_text : string)
         (tool_calls : list WireToolCall) : string * list WireToolCall :=
  match blocks with
  | [] => (content_text, tool_calls)
  | b :: rest =>
      match body b with
      | Text t => assistant_blocks rest (content_text ++ t)%string tool_calls
      | ToolUse id nm input =>
          assistant_blocks rest content_text
            (tool_calls ++ [mkWireToolCall id "function" nm (json_dumps input)])
      | _ => assistant_blocks rest content_text tool_calls
      end
  end.

Definition assistant_message (blocks : list Block) : WireMessage :=
  let '(content_text, tool_calls) := assistant_blocks blocks "" [] in
  mkWire "assistant"
         (if truthy content_text then Some (WStr content_text) else None)
         (match tool_calls with [] => None | _ => Some tool_calls end)
         None.

(** The loop over the content list of one tool_result block.  Each image
    is appended to [openai_messages] at once. *)
Fixpoint result_items (items : list ResultItem)
         (openai_messages : list WireMessage) (tool_result_content : string)
  : list WireMessage * string :=
  match items with
  | [] => (openai_messages, tool_result_content)
  | RText t :: rest =>
      result_items rest openai_messages (tool_result_content ++ t)%string
  | RImage mt d :: rest =>
      result_items rest (openai_messages ++ [wire_image_message mt d])
                   tool_result_content
  | ROther _ :: rest =>
      result_items rest openai_messages tool_result_content
  end.

(** The user branch: the loop over the blocks, with the three lists it
    writes to. *)
Fixpoint user_blocks (blocks : list Block)
         (openai_messages : list WireMessage)
         (content_parts : list WirePart) (tool_results : list WireMessage)
  : list WireMessage * list WirePart * list WireMessage :=
  match blocks with
  | [] => (openai_messages, content_parts, tool_results)
  | b :: rest =>
      match body b with
      | Text t =>
          user_blocks rest openai_messages (content_parts ++ [PText t])
                      tool_results
      | Image mt d =>
          user_blocks rest openai_messages
                      (content_parts ++ [PImageUrl (data_url mt d)])
                      tool_results
      | ToolResultBlock id c _ =>
          let '(openai_messages', tool_result_content) :=
            match c with
            | ListContent items => result_items items openai_messages ""
            | StrContent s => (openai_messages, s)
            | NoContent => (openai_messages, "")
            end in
          user_blocks rest openai_messages' content_parts
                      (tool_results ++ [wire_tool_message id tool_result_content])
      | _ => user_blocks rest openai_messages content_parts tool_results
      end
  end.

(** [content_parts[0].get("text", "")] *)
Definition part_text (p : WirePart) : string :=
  match p with
  | PText t => t
  | PImageUrl _ => ""
  end.

Definition user_message (blocks : list Block)
           (openai_messages : list WireMessage) : list WireMessage :=
  let '(openai_messages, content_parts, tool_results) :=
    user_blocks blocks openai_messages [] [] in
  let openai_messages := openai_messages ++ tool_results in
  match content_parts with
  | [] => openai_messages
  | [p] => openai_messages ++ [mkWire "user" (Some (WStr (part_text p))) None None]
  | _ => openai_messages ++ [mkWire "user" (Some (WParts content_parts)) None None]
  end.

(** One iteration of the loop over the messages. *)
Definition step (openai_messages : list WireMessage) (m : Message)
  : list WireMessage :=
  match content m with
  | Str s => openai_messages ++ [mkWire (role m) (Some (WStr s)) None None]
  | Blocks blocks =>
      if role m =? "assistant" then openai_messages ++ [assistant_message blocks]
      else if role m =? "user" then user_message blocks openai_messages
      else openai_messages
  end.

End Convert.

Definition _convert_anthropic_messages_to_openai (messages : list Message)
  : list WireMessage :=
  fold_left Convert.step messages [].

(** ** _make_nebius_tool_result *)

Definition _make_nebius_tool_result (result : ToolResult)
           (tool_call_id tool_name : string) : list Message :=
  let tool_content :=
    if truthy_opt (error result)
    then _maybe_prepend_system_tool_result result (opt_str (error result))
    else if truthy_opt (output result)
    then _maybe_prepend_system_tool_result result (opt_str (output result))
    else "" in
  let messages :=
    [mkMessage "tool" (Str tool_content) (Some tool_call_id) (Some tool_name)] in
  if truthy_opt (base64_image result)
  then messages ++
       [message "user"
          (Blocks [block (ImageUrl ("data:image/png;base64,"
                                    ++ opt_str (base64_image result))%string)])]
  else messages.

(** ** _convert_openai_response_to_anthropic *)

Record ResponseToolCall : Type := mkResponseToolCall {
  response_call_id : string;
  response_call_name : string;
  response_call_arguments : json_text
}.

(** [choices[i].message] of a chat completion. *)
Record ChatMessage : Type := mkChatMessage {
  chat_content : option string;
  chat_tool_calls : option (list ResponseToolCall)
}.

Record ChatCompletion : Type := mkChatCompletion {
  choices : list ChatMessage
}.

Fixpoint response_tool_calls (calls : list ResponseToolCall)
  : Result (list Block) :=
  match calls with
  | [] => Ok []
  | c :: rest =>
      match json_loads (response_call_arguments c) with
      | Raise e => Raise e
      | Ok input =>
          match response_tool_calls rest with
          | Raise e => Raise e
          | Ok blocks =>
              Ok (block (ToolUse (response_call_id c) (response_call_name c)
                                 input) :: blocks)
          end
      end
  end.

Definition _convert_openai_response_to_anthropic
           (openai_response : ChatCompletion) : Result (list Block) :=
  match choices openai_response with
  | [] => Raise IndexError
  | choice :: _ =>
      let result :=
        if truthy_opt (chat_content choice)
        then [block (Text (opt_str (chat_content choice)))]
        else [] in
      match chat_tool_calls choice with
      | Some (c :: calls) =>
          match response_tool_calls (c :: calls) with
          | Raise e => Raise e
          | Ok blocks => Ok (result ++ blocks)
          end
      | _ => Ok result
      end
  end.

(** ** _response_to_params *)

(** A content block of an Anthropic response: a text block, or another
    block, whose [model_dump()] is the dictionary given. *)
Inductive ResponseBlock : Type :=
| BetaTextBlock (text : string)
| BetaOtherBlock (dump : BlockBody).

Record BetaMessage : Type := mkBetaMessage {
  response_content : list ResponseBlock
}.

Fixpoint response_blocks (blocks : list ResponseBlock) : list Block :=
  match blocks with
  | [] => []
  | BetaTextBlock text :: rest =>
      if truthy text then block (Text text) :: response_blocks rest
      else response_blocks rest
  | BetaOtherBlock dump :: rest => block dump :: response_blocks rest
  end.

Definition _response_to_params (response : BetaMessage) : list Block :=
  response_blocks (response_content response).

(** ** _make_api_tool_result *)

Definition _make_api_tool_result (result : ToolResult) (tool_use_id : string)
  : Block :=
  if truthy_opt (error result)
  then block (ToolResultBlock tool_use_id
                (StrContent (_maybe_prepend_system_tool_result
                               result (opt_str (error result))))
                true)
  else
    let text_part :=
      if truthy_opt (output result)
      then [RText (_maybe_prepend_system_tool_result
                     result (opt_str (output result)))]
      else [] in
    let image_part :=
      if truthy_opt (base64_image result)
      then [RImage "image/png" (opt_str (base64_image result))]
      else [] in
    block (ToolResultBlock tool_use_id (ListContent (text_part ++ image_part))
                           false).

(** ** _maybe_filter_to_n_most_recent_images

    The conversation is a tree of dictionaries: the same tool_result block
    does not occur twice in it, so that changing one in place changes one
    place of the conversation. *)

Module Filter.

Definition is_image (item : ResultItem) : bool :=
  match item with
  | RImage _ _ => true
  | _ => false
  end.

(** The images that [tool_result.get("content", [])] yields: the items of
    a string are characters, never dictionaries. *)
Definition content_images (c : ResultContent) : list ResultItem :=
  match c with
  | ListContent items => filter is_image items
  | _ => []
  end.

(** The images of the tool_result blocks of one content list, in order. *)
Fixpoint blocks_images (blocks : list Block) : list ResultItem :=
  match blocks with
  | [] => []
  | b :: rest =>
      match body b with
      | ToolResultBlock _ c _ => content_images c ++ blocks_images rest
      | _ => blocks_images rest
      end
  end.

Definition message_images (m : Message) : list ResultItem :=
  match content m with
  | Blocks blocks => blocks_images blocks
  | Str _ => []
  end.

(** All images of [tool_result_blocks], oldest first. *)
Definition images (messages : list Message) : list ResultItem :=
  flat_map message_images messages.

Definition total_images (messages : list Message) : Z :=
  Z.of_nat (List.length (images messages)).

(** The loop that rebuilds one content list, with the counter
    [images_to_remove]. *)
Fixpoint new_content (items : list ResultItem) (images_to_remove : Z)
  : list ResultItem * Z :=
  match items with
  | [] => ([], images_to_remove)
  | item :: rest =>
      if is_image item && (0 <? images_to_remove)%Z
      then new_content rest (images_to_remove - 1)%Z
      else let '(kept, n) := new_content rest images_to_remove in
           (item :: kept, n)
  end.

Fixpoint prune_blocks (blocks : list Block) (images_to_remove : Z)
  : list Block * Z :=
  match blocks with
  | [] => ([], images_to_remove)
  | b :: rest =>
      match body b with
      | ToolResultBlock id (ListContent items) is_error =>
          let '(kept, n) := new_content items images_to_remove in
          let '(rest', n') := prune_blocks rest n in
          (mkBlock (ToolResultBlock id (ListContent kept) is_error)
                   (cache_control b) :: rest', n')
      | _ =>
          let '(rest', n') := prune_blocks rest images_to_remove in
          (b :: rest', n')
      end
  end.

Fixpoint prune_messages (messages : list Message) (images_to_remove : Z)
  : list Message * Z :=
  match messages with
  | [] => ([], images_to_remove)
  | m :: rest =>
      match content m with
      | Blocks blocks =>
          let '(blocks', n) := prune_blocks blocks images_to_remove in
          let '(rest', n') := prune_messages rest n in
          (mkMessage (role m) (Blocks blocks') (tool_call_id m) (name m)
             :: rest', n')
      | Str _ =>
          let '(rest', n') := prune_messages rest images_to_remove in
          (m :: rest', n')
      end
  end.

End Filter.

(** The list is changed in place: the function is modelled by the state of
    [messages] it leaves.  [x % 0] raises before anything is changed. *)
Definition _maybe_filter_to_n_most_recent_images (messages : list Message)
           (images_to_keep : option Z) (min_removal_threshold : Z)
  : Result (list Message) :=
  match images_to_keep with
  | None => Ok messages
  | Some keep =>
      let images_to_remove := (Filter.total_images messages - keep)%Z in
      if (min_removal_threshold =? 0)%Z then Raise ZeroDivisionError
      else
        let images_to_remove :=
          (images_to_remove - images_to_remove mod min_removal_threshold)%Z in
        Ok (fst (Filter.prune_messages messages images_to_remove))
  end.

(** ** _inject_prompt_caching *)

Module Caching.

Definition set_cache_control (b : Block) : Block :=
  mkBlock (body b) (Some "ephemeral").

Definition pop_cache_control (b : Block) : Block :=
  mkBlock (body b) None.

(** [content[-1]] updated by [f]; [None] where Python raises IndexError. *)
Fixpoint update_last (f : Block -> Block) (blocks : list Block)
  : option (list Block) :=
  match blocks with
  | [] => None
  | [b] => Some [f b]
  | b :: rest =>
      match update_last f rest with
      | Some rest' => Some (b :: rest')
      | None => None
      end
  end.

Definition with_blocks (m : Message) (blocks : list Block) : Message :=
  mkMessage (role m) (Blocks blocks) (tool_call_id m) (name m).

(** The loop over [reversed(messages)].  The result is the state of the
    (reversed) list when the loop ends, and the exception that ended it,
    if any. *)
Fixpoint scan (reversed_messages : list Message) (breakpoints_remaining : nat)
  : list Message * option Exn :=
  match reversed_messages with
  | [] => ([], None)
  | m :: rest =>
      match content m with
      | Blocks blocks =>
          if role m =? "user" then
            match breakpoints_remaining with
            | S remaining =>
                match update_last set_cache_control blocks with
                | None => (m :: rest, Some IndexError)
                | Some blocks' =>
                    let '(rest', e) := scan rest remaining in
                    (with_blocks m blocks' :: rest', e)
                end
            | O =>
                match update_last pop_cache_control blocks with
                | None => (m :: rest, Some IndexError)
                | Some blocks' => (with_blocks m blocks' :: rest, None)
                end
            end
          else
            let '(rest', e) := scan rest breakpoints_remaining in
            (m :: rest', e)
      | Str _ =>
          let '(rest', e) := scan rest breakpoints_remaining in
          (m :: rest', e)
      end
  end.

End Caching.

Definition _inject_prompt_caching (messages : list Message)
  : list Message * option Exn :=
  let '(reversed_messages, e) := Caching.scan (rev messages) 3 in
  (rev reversed_messages, e).

(** ** sampling_loop *)

Inductive APIProvider : Type := ANTHROPIC | BEDROCK | VERTEX | NEBIUS.

Definition provider_eqb (a b : APIProvider) : bool :=
  match a, b with
  | ANTHROPIC, ANTHROPIC | BEDROCK, BEDROCK
  | VERTEX, VERTEX | NEBIUS, NEBIUS => true
  | _, _ => false
  end.

Definition PROMPT_CACHING_BETA_FLAG : string := "prompt-caching-2024-07-31".

(** The keyword arguments of [sampling_loop] that the loop only reads. *)
Record Settings : Type := mkSettings {
  model : string;
  provider : APIProvider;
  system_prompt_suffix : string;
  max_tokens : Z;
  thinking_budget : option Z;
  token_efficient_tools_beta : bool
}.

(** What the two clients are called with (the tool declarations, fixed for
    a session, are left out). *)
Record AnthropicRequest : Type := mkAnthropicRequest {
  request_max_tokens : Z;
  request_messages : list Message;
  request_model : string;
  request_system : string;
  request_system_cached : bool;
  request_betas : list string;
  request_thinking : option Z
}.

Record OpenAIRequest : Type := mkOpenAIRequest {
  openai_model : string;
  openai_messages : list WireMessage;
  openai_tool_choice : string;
  openai_max_tokens : Z
}.

(** What [api_response_callback] receives as its second argument. *)
Inductive CallbackPayload : Type :=
| NoPayload
| ErrorResponse
| ErrorBody
| HttpResponse (response : BetaMessage)
| Completion (response : ChatCompletion).

(** The calls of the three caller-supplied callbacks, in order.  The
    callbacks are taken to return normally. *)
Inductive Event : Type :=
| api_response_callback (request_given : bool) (payload : CallbackPayload)
                        (exception : option Exn)
| output_callback (content_block : Block)
| tool_output_callback (result : ToolResult) (tool_use_id : string).

(** How a call of [sampling_loop] ends: it returns [messages], an
    exception leaves it, or the number of iterations allowed is used up.
    [messages] is the caller's list, changed in place, so its state is
    part of every outcome. *)
Inductive Outcome : Type :=
| Returned (messages : list Message)
| Propagated (e : Exn) (messages : list Message)
| Running (messages : list Message).

Definition final_messages (o : Outcome) : list Message :=
  match o with
  | Returned messages | Propagated _ messages | Running messages => messages
  end.

Definition truthy_int (o : option Z) : bool :=
  match o with
  | Some n => negb (n =? 0)%Z
  | None => false
  end.

(** [x or 0] *)
Definition or_zero (o : option Z) : Z :=
  match o with
  | Some n => n
  | None => 0%Z
  end.

Section SamplingLoop.

Variable World : Type.
Variable SYSTEM_PROMPT : string.
(** [tool_group.beta_flag] *)
Variable beta_flag : option string.
(** [client.beta.messages.with_raw_response.create] followed by [parse],
    [client.chat.completions.create] and [tool_collection.run]. *)
Variable anthropic_create : AnthropicRequest -> World -> Result BetaMessage * World.
Variable openai_create : OpenAIRequest -> World -> Result ChatCompletion * World.
Variable tool_run : string -> json -> World -> Result ToolResult * World.

Record Run : Type := mkRun {
  outcome : Outcome;
  world : World;
  trace : list Event
}.

Definition system_text (settings : Settings) : string :=
  (SYSTEM_PROMPT ++
   (if truthy (system_prompt_suffix settings)
    then " " ++ system_prompt_suffix settings else ""))%string.

Definition initial_betas (settings : Settings) : list string :=
  (if truthy_opt beta_flag then [opt_str beta_flag] else []) ++
  (if token_efficient_tools_beta settings
   then ["token-efficient-tools-2025-02-19"] else []).

(** The [except] clauses around the call of the client. *)
Definition failure_event (e : Exn) : Event :=
  match e with
  | APIStatusError _ | APIResponseValidationError _ =>
      api_response_callback true ErrorResponse (Some e)
  | APIError _ => api_response_callback true ErrorBody (Some e)
  | _ => api_response_callback false NoPayload (Some e)
  end.

(** The [try] block: the request is built and sent.  A success gives the
    content blocks of the assistant message, still to be converted. *)
Inductive Reply : Type :=
| AnthropicReply (response : BetaMessage)
| NebiusReply (response : ChatCompletion).

Definition call_api (settings : Settings) (enable_prompt_caching : bool)
           (messages : list Message) (w : World) : Result Reply * World :=
  if provider_eqb (provider settings) NEBIUS then
    let wire := _convert_anthropic_messages_to_openai messages in
    let wire := mkWire "system" (Some (WStr (system_text settings))) None None
                  :: wire in
    match openai_create
            (mkOpenAIRequest (model settings) wire "required"
                             (max_tokens settings)) w with
    | (Ok response, w') => (Ok (NebiusReply response), w')
    | (Raise e, w') => (Raise e, w')
    end
  else
    let betas :=
      initial_betas settings ++
      (if enable_prompt_caching then [PROMPT_CACHING_BETA_FLAG] else []) in
    match anthropic_create
            (mkAnthropicRequest (max_tokens settings) messages
               (model settings) (system_text settings) enable_prompt_caching
               betas
               (if truthy_int (thinking_budget settings)
                then thinking_budget settings else None)) w with
    | (Ok response, w') => (Ok (AnthropicReply response), w')
    | (Raise e, w') => (Raise e, w')
    end.

Definition success_event (r : Reply) : Event :=
  match r with
  | NebiusReply response =>
      api_response_callback false (Completion response) None
  | AnthropicReply response =>
      api_response_callback true (HttpResponse response) None
  end.

Definition reply_params (r : Reply) : Result (list Block) :=
  match r with
  | NebiusReply response => _convert_openai_response_to_anthropic response
  | AnthropicReply response => Ok (_response_to_params response)
  end.

(** The loop over [response_params]: every block is shown, every tool_use
    block is run and its result collected. *)
Record Dispatched : Type := mkDispatched {
  raised : option Exn;
  nebius_tool_messages : list Message;
  tool_result_content : list Block;
  dispatch_world : World;
  dispatch_trace : list Event
}.

Fixpoint dispatch (prov : APIProvider) (response_params : list Block)
         (nebius_messages : list Message) (result_blocks : list Block)
         (w : World) (log : list Event) : Dispatched :=
  match response_params with
  | [] => mkDispatched None nebius_messages result_blocks w log
  | content_block :: rest =>
      let log := log ++ [output_callback content_block] in
      match body content_block with
      | ToolUse id nm input =>
          match tool_run nm input w with
          | (Raise e, w') =>
              mkDispatched (Some e) nebius_messages result_blocks w' log
          | (Ok result, w') =>
              let log' := log ++ [tool_output_callback result id] in
              if provider_eqb prov NEBIUS
              then dispatch prov rest
                     (nebius_messages ++ _make_nebius_tool_result result id nm)
                     result_blocks w' log'
              else dispatch prov rest nebius_messages
                     (result_blocks ++ [_make_api_tool_result result id])
                     w' log'
          end
      | _ => dispatch prov rest nebius_messages result_blocks w log
      end
  end.

(** The history policies at the head of an iteration.  The result is the
    state of [messages], the new value of [only_n_most_recent_images],
    whether prompt caching is on, and the exception raised, if any. *)
Definition apply_policies (settings : Settings) (messages : list Message)
           (only_n_most_recent_images : option Z)
  : list Message * option Z * bool * option Exn :=
  let image_truncation_threshold := or_zero only_n_most_recent_images in
  let enable_prompt_caching := provider_eqb (provider settings) ANTHROPIC in
  let '(messages, only_n, e) :=
    if enable_prompt_caching
    then let '(messages', e) := _inject_prompt_caching messages in
         (messages', Some 0%Z, e)
    else (messages, only_n_most_recent_images, None) in
  match e with
  | Some _ => (messages, only_n, enable_prompt_caching, e)
  | None =>
      if truthy_int only_n
      then match _maybe_filter_to_n_most_recent_images
                   messages only_n image_truncation_threshold with
           | Ok messages' => (messages', only_n, enable_prompt_caching, None)
           | Raise e => (messages, only_n, enable_prompt_caching, Some e)
           end
      else (messages, only_n, enable_prompt_caching, None)
  end.

(** [while True], with the number of iterations bounded by [fuel]. *)
Fixpoint sampling_loop (fuel : nat) (settings : Settings)
         (messages : list Message) (only_n_most_recent_images : option Z)
         (w : World) (log : list Event) : Run :=
  match fuel with
  | O => mkRun (Running messages) w log
  | S fuel' =>
      match apply_policies settings messages only_n_most_recent_images with
      | (messages, _, _, Some e) => mkRun (Propagated e messages) w log
      | (messages, only_n, enable_prompt_caching, None) =>
          match call_api settings enable_prompt_caching messages w with
          | (Raise e, w) =>
              mkRun (Returned messages) w (log ++ [failure_event e])
          | (Ok reply, w) =>
              let log := log ++ [success_event reply] in
              match reply_params reply with
              | Raise e => mkRun (Propagated e messages) w log
              | Ok response_params =>
                  let messages :=
                    messages ++ [message "assistant" (Blocks response_params)] in
                  let d := dispatch (provider settings) response_params [] []
                                    w log in
                  match raised d with
                  | Some e =>
                      mkRun (Propagated e messages) (dispatch_world d)
                            (dispatch_trace d)
                  | None =>
                      if provider_eqb (provider settings) NEBIUS then
                        match nebius_tool_messages d with
                        | [] => mkRun (Returned messages) (dispatch_world d)
                                      (dispatch_trace d)
                        | _ => sampling_loop fuel' settings
                                 (messages ++ nebius_tool_messages d) only_n
                                 (dispatch_world d) (dispatch_trace d)
                        end
                      else
                        match tool_result_content d with
                        | [] => mkRun (Returned messages) (dispatch_world d)
                                      (dispatch_trace d)
                        | _ => sampling_loop fuel' settings
                                 (messages ++
                                  [message "user"
                                     (Blocks (tool_result_content d))])
                                 only_n (dispatch_world d) (dispatch_trace d)
                        end
                  end
              end
          end
      end
  end.

End SamplingLoop.

(** ** Notions used to state the properties *)

Module Props.


Definition is_tool_use (b : Block) : bool :=
  match body b with
  | ToolUse _ _ _ => true
  | _ => false
  end.

(** The ids of the tool calls of a conversation. *)
Definition block_call_ids (b : Block) : list string :=
  match body b with
  | ToolUse id _ _ => [id]
  | _ => []
  end.

Definition message_call_ids (m : Message) : list string :=
  match content m with
  | Blocks blocks => flat_map block_call_ids blocks
  | Str _ => []
  end.

Definition tool_call_ids (messages : list Message) : list string :=
  flat_map message_call_ids messages.

(** The text a tool-role wire message gets for a tool result. *)
Definition tool_result_text (c : ResultContent) : string :=
  match c with
  | ListContent items => snd (Convert.result_items items [] "")
  | StrContent s => s
  | NoContent => ""
  end.

(** The content of the tool message [_make_nebius_tool_result] builds. *)
Definition nebius_tool_content (result : ToolResult) : string :=
  if truthy_opt (error result)
  then _maybe_prepend_system_tool_result result (opt_str (error result))
  else if truthy_opt (output result)
  then _maybe_prepend_system_tool_result result (opt_str (output result))
  else "".

(** The text of a tool result whose [error] is set. *)
Definition error_text (result : ToolResult) : string :=
  _maybe_prepend_system_tool_result result (opt_str (error result)).

(** The error in band: the tool_result block of the Anthropic providers
    and the tool message of Nebius. *)
Definition error_block (result : ToolResult) (id : string) : Block :=
  block (ToolResultBlock id (StrContent (error_text result)) true).

Definition error_message (result : ToolResult) (id nm : string) : Message :=
  mkMessage "tool" (Str (error_text result)) (Some id) (Some nm).

(** What the loop appends after the assistant message when the tool calls
    have been run. *)
Definition appended {World : Type} (prov : APIProvider)
           (d : Dispatched World) : list Message :=
  if provider_eqb prov NEBIUS
  then nebius_tool_messages World d
  else [message "user" (Blocks (tool_result_content World d))].

(** Where the error is to be found in what was collected. *)
Definition in_band {World : Type} (prov : APIProvider) (d : Dispatched World)
           (result : ToolResult) (id nm : string) : Prop :=
  if provider_eqb prov NEBIUS
  then In (error_message result id nm) (nebius_tool_messages World d)
  else In (error_block result id) (tool_result_content World d).

End Props.

(** The image-retention policy in the words of the specification: the
    images of the tool results are numbered oldest first, and the first
    [excess] of them are deleted, each from the content list that holds
    it. *)
Module Retention.

(** Delete the first [excess] images of one content list. *)
Fixpoint drop_oldest (excess : nat) (items : list ResultItem)
  : list ResultItem :=
  match items with
  | [] => []
  | item :: rest =>
      match excess, Filter.is_image item with
      | S excess', true => drop_oldest excess' rest
      | _, _ => item :: drop_oldest excess rest
      end
  end.

Fixpoint remove_in_blocks (excess : nat) (blocks : list Block) : list Block :=
  match blocks with
  | [] => []
  | b :: rest =>
      match body b with
      | ToolResultBlock id (ListContent items) is_error =>
          mkBlock (ToolResultBlock id (ListContent (drop_oldest excess items))
                                   is_error) (cache_control b)
          :: remove_in_blocks
               (excess - List.length (filter Filter.is_image items)) rest
      | _ => b :: remove_in_blocks excess rest
      end
  end.

Fixpoint remove_oldest (excess : nat) (messages : list Message)
  : list Message :=
  match messages with
  | [] => []
  | m :: rest =>
      match content m with
      | Blocks blocks =>
          mkMessage (role m) (Blocks (remove_in_blocks excess blocks))
                    (tool_call_id m) (name m)
          :: remove_oldest (excess - List.length (Filter.blocks_images blocks))
                           rest
      | Str _ => m :: remove_oldest excess rest
      end
  end.

(** The conversation without any image of a tool result: what is left of
    it is what the policy must not touch. *)
Definition without_images_items (items : list ResultItem) : list ResultItem :=
  filter (fun item => negb (Filter.is_image item)) items.

Definition without_images_block (b : Block) : Block :=
  match body b with
  | ToolResultBlock id (ListContent items) is_error =>
      mkBlock (ToolResultBlock id (ListContent (without_images_items items))
                               is_error) (cache_control b)
  | _ => b
  end.

Definition without_images_message (m : Message) : Message :=
  match content m with
  | Blocks blocks =>
      mkMessage (role m) (Blocks (map without_images_block blocks))
                (tool_call_id m) (name m)
  | Str _ => m
  end.

Definition without_images (messages : list Message) : list Message :=
  map without_images_message messages.

(** [excess = max(0, totalImages - keep)], rounded down to a multiple of
    [chunk]. *)
Definition excess (total keep chunk : Z) : Z :=
  let e := Z.max 0 (total - keep) in (e - e mod chunk)%Z.

End Retention.

(** The cache-breakpoint policy: the notions its properties are stated
    with. *)
Module Breakpoints.

(** The test of the loop: a user message whose content is a list. *)
Definition eligible (m : Message) : bool :=
  (role m =? "user") &&
  match content m with
  | Blocks _ => true
  | Str _ => false
  end.

(** A user message whose content is a list of at least one item. *)
Definition markable (m : Message) : bool :=
  (role m =? "user") &&
  match content m with
  | Blocks (_ :: _) => true
  | _ => false
  end.

Definition on_last (f : Block -> Block) (m : Message) : Message :=
  match content m with
  | Blocks blocks =>
      match Caching.update_last f blocks with
      | Some blocks' => Caching.with_blocks m blocks'
      | None => m
      end
  | Str _ => m
  end.

(** The message with the breakpoint set on, and cleared from, its last
    content item. *)
Definition marked (m : Message) : Message :=
  on_last Caching.set_cache_control m.

Definition cleared (m : Message) : Message :=
  on_last Caching.pop_cache_control m.

Definition has_marker (b : Block) : bool :=
  match cache_control b with
  | Some _ => true
  | None => false
  end.

Definition carries_marker (m : Message) : bool :=
  match content m with
  | Blocks blocks => existsb has_marker blocks
  | Str _ => false
  end.

Definition count_marked (messages : list Message) : nat :=
  List.length (filter carries_marker messages).

(** The conversation with every marker taken off. *)
Definition unmarked_block (b : Block) : Block := mkBlock (body b) None.

Definition unmarked_message (m : Message) : Message :=
  match content m with
  | Blocks blocks =>
      mkMessage (role m) (Blocks (map unmarked_block blocks))
                (tool_call_id m) (name m)
  | Str _ => m
  end.

Definition unmarked (messages : list Message) : list Message :=
  map unmarked_message messages.

(** The scan of [_inject_prompt_caching] started with [k] breakpoints
    left. *)
Definition inject (k : nat) (messages : list Message)
  : list Message * option Exn :=
  let '(reversed_messages, e) := Caching.scan (rev messages) k in
  (rev reversed_messages, e).

End Breakpoints.

(** ** Conversations and collaborators used in examples *)

Module Fixture.

Definition screenshot (data : string) : ResultItem := RImage "image/png" data.

Definition tool_turn (id : string) (items : list ResultItem) : Message :=
  message "user" (Blocks [block (ToolResultBlock id (ListContent items) false)]).

Definition user_turn (text : string) : Message :=
  message "user" (Blocks [block (Text text)]).

Definition assistant_turn (text : string) : Message :=
  message "assistant" (Blocks [block (Text text)]).

(** Seven screenshots in four tool results. *)
Definition seven_images : list Message :=
  [message "user" (Str "open the browser");
   tool_turn "call_1" [RText "started"; screenshot "s1"];
   tool_turn "call_2" [screenshot "s2"; screenshot "s3"];
   assistant_turn "clicking";
   tool_turn "call_3" [screenshot "s4"; RText "moved"; screenshot "s5";
                       screenshot "s6"];
   tool_turn "call_4" [RText "done"; screenshot "s7"]].

(** Five user turns with assistant turns between them. *)
Definition five_user_turns : list Message :=
  [user_turn "one"; assistant_turn "a"; user_turn "two"; assistant_turn "b";
   user_turn "three"; assistant_turn "c"; user_turn "four"; assistant_turn "d";
   user_turn "five"].

(** Four user turns, then a user message with an empty content list. *)
Definition empty_last_turn : list Message :=
  [user_turn "one"; user_turn "two"; user_turn "three"; user_turn "four";
   message "user" (Blocks [])].

(** A session without suffix, thinking budget or extra beta flag. *)
Definition settings (p : APIProvider) : Settings :=
  mkSettings "model" p "" 4096%Z None false.

(** Collaborators over a world without state. *)
Definition replies_text (_ : AnthropicRequest) (w : unit)
  : Result BetaMessage * unit :=
  (Ok (mkBetaMessage [BetaTextBlock "hello"]), w).

Definition replies_tool_call (_ : AnthropicRequest) (w : unit)
  : Result BetaMessage * unit :=
  (Ok (mkBetaMessage
         [BetaTextBlock "listing";
          BetaOtherBlock
            (ToolUse "toolu_1" "bash" (JObj [("command", JStr "ls")]))]), w).

Definition is_overloaded (_ : AnthropicRequest) (w : unit)
  : Result BetaMessage * unit :=
  (Raise (APIStatusError "overloaded"), w).

Definition completes_text (_ : OpenAIRequest) (w : unit)
  : Result ChatCompletion * unit :=
  (Ok (mkChatCompletion [mkChatMessage (Some "hello") None]), w).

Definition tool_raises (_ : string) (_ : json) (w : unit)
  : Result ToolResult * unit :=
  (Raise (OtherException "boom"), w).

Definition tool_fails (_ : string) (_ : json) (w : unit)
  : Result ToolResult * unit :=
  (Ok (mkToolResult None (Some "ls: not found") None None), w).

Definition tool_succeeds (_ : string) (_ : json) (w : unit)
  : Result ToolResult * unit :=
  (Ok (mkToolResult (Some "README.md") None None None), w).

End Fixture.


(** ** A client that records the requests it receives *)

Module Recording.

Section Recording.

Variable World : Type.
Variable SYSTEM_PROMPT : string.
Variable beta_flag : option string.
Variable anthropic_create : AnthropicRequest -> World -> Result BetaMessage * World.
Variable openai_create : OpenAIRequest -> World -> Result ChatCompletion * World.
Variable tool_run : string -> json -> World -> Result ToolResult * World.

(** The world, with the requests the Anthropic-style client has received
    so far, in order. *)
Definition Recorded : Type := (World * list AnthropicRequest)%type.

Definition sent (s : Recorded) : list AnthropicRequest := snd s.

(** The client answers as [anthropic_create] does and notes the request. *)
Definition create (request : AnthropicRequest) (s : Recorded)
  : Result BetaMessage * Recorded :=
  let '(r, w) := anthropic_create request (fst s) in
  (r, (w, snd s ++ [request])).

Definition complete (request : OpenAIRequest) (s : Recorded)
  : Result ChatCompletion * Recorded :=
  let '(r, w) := openai_create request (fst s) in (r, (w, snd s)).

Definition run (nm : string) (input : json) (s : Recorded)
  : Result ToolResult * Recorded :=
  let '(r, w) := tool_run nm input (fst s) in (r, (w, snd s)).

(** [sampling_loop] called with the recording client. *)
Definition loop : nat -> Settings -> list Message -> option Z -> Recorded ->
                  list Event -> Run Recorded :=
  sampling_loop Recorded SYSTEM_PROMPT beta_flag create complete run.

End Recording.

(** A request with prompt caching enabled: the beta flag is among its betas
    and its system block has cache_control. *)
Definition cached (request : AnthropicRequest) : Prop :=
  request_system_cached request = true /\
  In PROMPT_CACHING_BETA_FLAG (request_betas request).

(** A request that holds all of [images], in place, before any other. *)
Definition holds (images : list ResultItem) (request : AnthropicRequest)
  : Prop :=
  exists later, Filter.images (request_messages request) = images ++ later.

End Recording.
(** ** The translation of one message, described by what it emits *)

Module Wire.

(** The image messages of one tool result, in the order of its items. *)
Definition item_image (item : ResultItem) : list WireMessage :=
  match item with
  | RImage mt d => [wire_image_message mt d]
  | _ => []
  end.

Definition item_text (item : ResultItem) : string :=
  match item with
  | RText t => t
  | _ => ""
  end.

Definition concat_text (texts : list string) : string :=
  fold_right String.append "" texts.

Definition result_text (c : ResultContent) : string :=
  match c with
  | ListContent items => concat_text (map item_text items)
  | StrContent s => s
  | NoContent => ""
  end.

Definition block_images (b : Block) : list WireMessage :=
  match body b with
  | ToolResultBlock _ (ListContent items) _ => flat_map item_image items
  | _ => []
  end.

Definition block_tool_message (b : Block) : list WireMessage :=
  match body b with
  | ToolResultBlock id c _ => [wire_tool_message id (result_text c)]
  | _ => []
  end.

Definition block_part (b : Block) : list WirePart :=
  match body b with
  | Text t => [PText t]
  | Image mt d => [PImageUrl (data_url mt d)]
  | _ => []
  end.

(** The user message that carries the text and image blocks, if any. *)
Definition content_message (parts : list WirePart) : list WireMessage :=
  match parts with
  | [] => []
  | [p] => [mkWire "user" (Some (WStr (Convert.part_text p))) None None]
  | _ => [mkWire "user" (Some (WParts parts)) None None]
  end.

Definition user_wire (blocks : list Block) : list WireMessage :=
  flat_map block_images blocks ++
  flat_map block_tool_message blocks ++
  content_message (flat_map block_part blocks).

Definition block_text (b : Block) : string :=
  match body b with
  | Text t => t
  | _ => ""
  end.

Definition block_call (b : Block) : list WireToolCall :=
  match body b with
  | ToolUse id nm input => [mkWireToolCall id "function" nm (json_dumps input)]
  | _ => []
  end.

Definition assistant_wire (blocks : list Block) : WireMessage :=
  let text := concat_text (map block_text blocks) in
  let calls := flat_map block_call blocks in
  mkWire "assistant"
         (if truthy text then Some (WStr text) else None)
         (match calls with [] => None | _ => Some calls end)
         None.

Definition is_str (m : Message) : bool :=
  match content m with
  | Str _ => true
  | Blocks _ => false
  end.

Definition str_wire (m : Message) : WireMessage :=
  match content m with
  | Str s => mkWire (role m) (Some (WStr s)) None None
  | Blocks _ => mkWire (role m) None None None
  end.

Definition valid_arguments (c : ResponseToolCall) : bool :=
  match response_call_arguments c with
  | Dumped _ => true
  | NotJson _ => false
  end.

Definition calls_of (choice : ChatMessage) : list ResponseToolCall :=
  match chat_tool_calls choice with
  | Some calls => calls
  | None => []
  end.

End Wire.

(** ** The translation of a response, described by what it returns *)

Module Response.

(** The text block of a chat completion message, if its text is not
    empty. *)
Definition text_part (choice : ChatMessage) : list Block :=
  if truthy_opt (chat_content choice)
  then [block (Text (opt_str (chat_content choice)))]
  else [].

Definition call_block (c : ResponseToolCall) : list Block :=
  match response_call_arguments c with
  | Dumped j =>
      [block (ToolUse (response_call_id c) (response_call_name c) j)]
  | NotJson _ => []
  end.

(** The raw arguments of the first tool call that are no JSON. *)
Fixpoint first_invalid (calls : list ResponseToolCall) : option string :=
  match calls with
  | [] => None
  | c :: rest =>
      match response_call_arguments c with
      | NotJson raw => Some raw
      | Dumped _ => first_invalid rest
      end
  end.

Definition is_empty_text (b : BlockBody) : bool :=
  match b with
  | Text t => negb (truthy t)
  | _ => false
  end.

Definition is_text (b : BlockBody) : bool :=
  match b with
  | Text _ => true
  | _ => false
  end.

(** The blocks of an Anthropic response that are no text blocks are not
    dumped as text blocks. *)
Definition well_typed (r : ResponseBlock) : bool :=
  match r with
  | BetaTextBlock _ => true
  | BetaOtherBlock dump => negb (is_text dump)
  end.

End Response.

(** ** Where the cache markers of a conversation are *)

Module Markers.

(** No marker on a block other than the last. *)
Definition last_only (m : Message) : bool :=
  match content m with
  | Blocks blocks =>
      forallb (fun b => negb (Breakpoints.has_marker b)) (removelast blocks)
  | Str _ => true
  end.

Definition clean (m : Message) : bool := negb (Breakpoints.carries_marker m).

(** The markers of a conversation, given newest first, are confined to the
    last blocks of its [k] most recent user messages with list content. *)
Fixpoint confined (k : nat) (reversed : list Message) : bool :=
  match reversed with
  | [] => true
  | m :: rest =>
      if Breakpoints.eligible m then
        match k with
        | S k' => last_only m && confined k' rest
        | O => clean m && confined 0 rest
        end
      else clean m && confined k rest
  end.

(** The message as the scan leaves it when it has breakpoints left. *)
Definition mark_if_eligible (m : Message) : Message :=
  if Breakpoints.eligible m then Breakpoints.marked m else m.

End Markers.

(** ** What a trace and the collected results show *)

Module Trace.

(** The blocks shown and the ids of the tool calls answered, in order. *)
Definition shown_block (e : Event) : list Block :=
  match e with
  | output_callback b => [b]
  | _ => []
  end.

Definition answered_id (e : Event) : list string :=
  match e with
  | tool_output_callback _ id => [id]
  | _ => []
  end.

Definition shown (events : list Event) : list Block :=
  flat_map shown_block events.

Definition answered (events : list Event) : list string :=
  flat_map answered_id events.

(** The ids of the tool calls of an assistant message. *)
Definition call_ids (blocks : list Block) : list string :=
  flat_map Props.block_call_ids blocks.

(** The ids the collected results refer to. *)
Definition result_id (b : Block) : list string :=
  match body b with
  | ToolResultBlock id _ _ => [id]
  | _ => []
  end.

Definition result_ids (blocks : list Block) : list string :=
  flat_map result_id blocks.

Definition message_id (m : Message) : list string :=
  match tool_call_id m with
  | Some id => [id]
  | None => []
  end.

Definition message_ids (messages : list Message) : list string :=
  flat_map message_id messages.

(** The conversation up to cache markers and images of tool results. *)
Definition normal (messages : list Message) : list Message :=
  Retention.without_images (Breakpoints.unmarked messages).

End Trace.

(** ** _convert_anthropic_tools_to_openai *)

(** A tool declaration in the Anthropic format, as the conversion reads it:
    the keys "name", "description" and "input_schema", each of which may be
    absent. *)
Record ToolParam : Type := mkToolParam {
  tool_name : option string;
  tool_description : option string;
  tool_input_schema : option json
}.

Record FunctionDecl : Type := mkFunctionDecl {
  decl_name : string;
  decl_description : string;
  decl_parameters : json
}.

Record OpenAITool : Type := mkOpenAITool {
  tool_type : string;
  tool_function : FunctionDecl
}.

Module Tools.

Definition string_property (description : string) : json :=
  JObj [("type", JStr "string"); ("description", JStr description)].

Definition computer : OpenAITool :=
  mkOpenAITool "function"
    (mkFunctionDecl "computer"
       "Take a screenshot, click, type, scroll, and perform other computer actions. This tool gives you the ability to interact with the screen, keyboard, and mouse of the current computer. USE THIS TOOL FOR SCREENSHOTS with action='screenshot'."
       (JObj
          [("type", JStr "object");
           ("properties",
            JObj
              [("action",
                JObj
                  [("type", JStr "string");
                   ("enum",
                    JArr
                      [JStr "key"; JStr "type"; JStr "mouse_move";
                       JStr "left_click"; JStr "left_click_drag";
                       JStr "right_click"; JStr "middle_click";
                       JStr "double_click"; JStr "screenshot";
                       JStr "cursor_position"; JStr "left_mouse_down";
                       JStr "left_mouse_up"; JStr "scroll"; JStr "hold_key";
                       JStr "wait"; JStr "triple_click"]);
                   ("description", JStr "The action to perform")]);
               ("text",
                string_property "Text to type (required for 'type' action)");
               ("coordinate",
                JObj
                  [("type", JStr "array");
                   ("items", JObj [("type", JStr "integer")]);
                   ("minItems", JNum 2);
                   ("maxItems", JNum 2);
                   ("description",
                    JStr "Pixel coordinate [x, y] for mouse actions")]);
               ("scroll_direction",
                JObj
                  [("type", JStr "string");
                   ("enum",
                    JArr [JStr "up"; JStr "down"; JStr "left"; JStr "right"]);
                   ("description",
                    JStr "Direction to scroll (for 'scroll' action)")])]);
           ("required", JArr [JStr "action"])])).

Definition str_replace_editor : OpenAITool :=
  mkOpenAITool "function"
    (mkFunctionDecl "str_replace_editor"
       "A text editor tool for viewing, creating and editing TEXT FILES ONLY. Can view file contents, create new files, edit files, and perform string replacements. NEVER use for screenshots or images - use computer tool for screenshots."
       (JObj
          [("type", JStr "object");
           ("properties",
            JObj
              [("command",
                JObj
                  [("type", JStr "string");
                   ("enum",
                    JArr [JStr "view"; JStr "create"; JStr "str_replace";
                          JStr "undo_edit"]);
                   ("description", JStr "The command to execute")]);
               ("path", string_property "Path to the file");
               ("file_text", string_property "Text content for creating files");
               ("old_str",
                string_property "String to replace (for str_replace command)");
               ("new_str",
                string_property
                  "Replacement string (for str_replace command)")]);
           ("required", JArr [JStr "command"; JStr "path"])])).

Definition bash : OpenAITool :=
  mkOpenAITool "function"
    (mkFunctionDecl "bash"
       "Execute bash commands in the terminal. Can run shell commands, manage files, install software, and interact with the system."
       (JObj
          [("type", JStr "object");
           ("properties",
            JObj [("command", string_property "The bash command to execute")]);
           ("required", JArr [JStr "command"])])).

Definition ANTHROPIC_TO_OPENAI_TOOLS : list (string * OpenAITool) :=
  [("computer", computer);
   ("str_replace_editor", str_replace_editor);
   ("bash", bash)].

(** [d[key]] for [key in d], for a dictionary given by its items. *)
Fixpoint lookup (key : string) (items : list (string * OpenAITool))
  : option OpenAITool :=
  match items with
  | [] => None
  | (k, v) :: rest => if k =? key then Some v else lookup key rest
  end.

Definition default_str (o : option string) (d : string) : string :=
  match o with
  | Some s => s
  | None => d
  end.

Definition fallback (tool : ToolParam) : OpenAITool :=
  mkOpenAITool "function"
    (mkFunctionDecl (default_str (tool_name tool) "unknown")
                    (default_str (tool_description tool) "")
                    (match tool_input_schema tool with
                     | Some schema => schema
                     | None => JObj []
                     end)).

(** One iteration of the loop over the tools. *)
Definition convert (tool : ToolParam) : OpenAITool :=
  match tool_name tool with
  | Some tool_name =>
      match lookup tool_name ANTHROPIC_TO_OPENAI_TOOLS with
      | Some predefined => predefined
      | None => fallback tool
      end
  | None => fallback tool
  end.

Definition predefined (nm : string) : bool :=
  match lookup nm ANTHROPIC_TO_OPENAI_TOOLS with
  | Some _ => true
  | None => false
  end.

End Tools.

Definition _convert_anthropic_tools_to_openai (anthropic_tools : list ToolParam)
  : list OpenAITool :=
  map Tools.convert anthropic_tools.

(** ** A further collaborator used in examples *)

Module Sample.

(** A completion with a tool call whose arguments are no JSON. *)
Definition completes_bad_call (_ : OpenAIRequest) (w : unit)
  : Result ChatCompletion * unit :=
  (Ok (mkChatCompletion
         [mkChatMessage None
            (Some [mkResponseToolCall "call_1" "bash" (NotJson "{oops")])]),
   w).

End Sample.

(** ** adapters.py: the neutral messages and the Nebius/OpenAI adapter *)

Inductive InternalItem : Type :=
| InternalToolCall (id name : string) (input : json)
| InternalToolResult (tool_call_id content : string)
                     (base64_image : option string) (is_error : bool)
| InternalDict (d : json).

(** The content of a neutral message: a string (None when it is taken from
    a response without text) or a list of items. *)
Inductive InternalContent : Type :=
| InternalText (s : option string)
| InternalList (items : list InternalItem).

Record InternalMessage : Type := mkInternalMessage {
  internal_role : string;
  internal_content : InternalContent
}.

(** A dictionary of [to_api_messages]; a key the dictionary lacks is [None]
    (a content key holding None is [Some (InternalText None)]). *)
Record ApiMessage : Type := mkApiMessage {
  api_role : string;
  api_content : option InternalContent;
  api_tool_calls : option (list WireToolCall);
  api_tool_call_id : option string;
  api_name : option string
}.

Module NebiusOpenAIAdapter.

(** The name every tool message is given. *)
Definition placeholder_name : string := "имя_инструмента_здесь".

Definition item_call (item : InternalItem) : list WireToolCall :=
  match item with
  | InternalToolCall id nm input =>
      [mkWireToolCall id "function" nm (json_dumps input)]
  | _ => []
  end.

Definition item_result (item : InternalItem) : list ApiMessage :=
  match item with
  | InternalToolResult id text _ _ =>
      [mkApiMessage "tool" (Some (InternalText (Some text))) None (Some id)
                    (Some placeholder_name)]
  | _ => []
  end.

(** What one message adds to [api_messages]. *)
Definition message_out (msg : InternalMessage) : list ApiMessage :=
  match internal_content msg with
  | InternalList items =>
      if internal_role msg =? "assistant"
      then [mkApiMessage "assistant" None (Some (flat_map item_call items))
                         None None]
      else if internal_role msg =? "tool"
      then flat_map item_result items
      else [mkApiMessage (internal_role msg) (Some (InternalList items))
                         None None None]
  | InternalText s =>
      [mkApiMessage (internal_role msg) (Some (InternalText s)) None None None]
  end.

Definition to_api_messages (messages : list InternalMessage)
  : list ApiMessage :=
  fold_left (fun api_messages msg => api_messages ++ message_out msg)
            messages [].



(** The tool results of a list of items, in order. *)
Definition item_result_id (item : InternalItem) : list (string * string) :=
  match item with
  | InternalToolResult id text _ _ => [(id, text)]
  | _ => []
  end.

End NebiusOpenAIAdapter.
(** * Properties *)

(** ** Strings *)

Lemma append_nil_r (s : string) : (s ++ "")%string = s.
Proof. induction s as [|c s IH]; simpl; [reflexivity | now rewrite IH]. Qed.

Lemma append_assoc (a b c : string) :
  (a ++ (b ++ c))%string = ((a ++ b) ++ c)%string.
Proof. induction a as [|x a IH]; simpl; [reflexivity | now rewrite IH]. Qed.

(** ** The translation to OpenAI wire messages *)

Section ConvertFacts.

Import Convert.

Lemma result_items_acc items : forall out text,
  result_items items out text =
  (out ++ fst (result_items items [] ""),
   (text ++ snd (result_items items [] ""))%string).
Proof.
  induction items as [|item rest IH]; intros out text; simpl.
  - now rewrite app_nil_r, append_nil_r.
  - destruct item as [t|mt d|j].
    + rewrite IH, (IH [] t). simpl.
      now rewrite append_assoc.
    + rewrite IH, (IH [wire_image_message mt d] ""). simpl.
      now rewrite <- app_assoc.
    + apply IH.
Qed.

(** One step of the proof below: the lists of the rest of the loop are
    named and the appends put in the same order. *)
Ltac name_rest rest :=
  destruct (user_blocks rest [] [] []) as [[? ?] ?];
  now rewrite <- ?app_assoc.

Lemma user_blocks_acc blocks : forall out parts results,
  user_blocks blocks out parts results =
  let '(out', parts', results') := user_blocks blocks [] [] [] in
  (out ++ out', parts ++ parts', results ++ results').
Proof.
  induction blocks as [|b rest IH]; intros out parts results; simpl.
  - now rewrite !app_nil_r.
  - destruct (body b) as [t|mt d|id nm input|id c e|th sg|url]; simpl;
      try apply IH.
    + rewrite IH, (IH [] [PText t] []). name_rest rest.
    + rewrite IH, (IH [] [PImageUrl (data_url mt d)] []). name_rest rest.
    + destruct c as [|s|items]; simpl.
      * rewrite IH, (IH [] [] [wire_tool_message id ""]). name_rest rest.
      * rewrite IH, (IH [] [] [wire_tool_message id s]). name_rest rest.
      * rewrite (result_items_acc items out "").
        destruct (result_items items [] "") as [imgs text] eqn:E. simpl.
        rewrite IH, (IH imgs [] [wire_tool_message id text]). name_rest rest.
Qed.

Lemma user_message_acc blocks out :
  user_message blocks out = out ++ user_message blocks [].
Proof.
  unfold user_message. rewrite user_blocks_acc.
  destruct (user_blocks blocks [] [] []) as [[o p] r]. simpl.
  destruct p as [|p1 [|p2 ps]]; now rewrite <- ?app_assoc.
Qed.

Lemma step_acc out m : step out m = out ++ step [] m.
Proof.
  unfold step. destruct (content m) as [s|blocks]; [reflexivity|].
  destruct (role m =? "assistant"); [reflexivity|].
  destruct (role m =? "user"); [apply user_message_acc|].
  now rewrite app_nil_r.
Qed.

Lemma convert_fold messages : forall out,
  fold_left step messages out = out ++ flat_map (step []) messages.
Proof.
  induction messages as [|m rest IH]; intro out; simpl.
  - now rewrite app_nil_r.
  - rewrite IH, (step_acc out m). now rewrite <- app_assoc.
Qed.

Lemma convert_flat_map messages :
  _convert_anthropic_messages_to_openai messages = flat_map (step []) messages.
Proof. unfold _convert_anthropic_messages_to_openai. now rewrite convert_fold. Qed.

Lemma convert_app before after :
  _convert_anthropic_messages_to_openai (before ++ after) =
  _convert_anthropic_messages_to_openai before ++
  _convert_anthropic_messages_to_openai after.
Proof. rewrite !convert_flat_map. apply flat_map_app. Qed.

Lemma convert_cons m after :
  _convert_anthropic_messages_to_openai (m :: after) =
  step [] m ++ _convert_anthropic_messages_to_openai after.
Proof. now rewrite !convert_flat_map. Qed.


End ConvertFacts.

Section ConvertClaims.

Import Convert.

Lemma user_blocks_tool_result blocks : forall b id c e,
  In b blocks -> body b = ToolResultBlock id c e ->
  In (wire_tool_message id (Props.tool_result_text c))
     (snd (user_blocks blocks [] [] [])).
Proof.
  induction blocks as [|b0 rest IH]; intros b id c e Hin Hb; [contradiction|].
  destruct Hin as [->|Hin].
  - simpl. rewrite Hb.
    destruct c as [|s|items]; simpl.
    + rewrite user_blocks_acc.
      destruct (user_blocks rest [] [] []) as [[o p] r]. simpl. now left.
    + rewrite user_blocks_acc.
      destruct (user_blocks rest [] [] []) as [[o p] r]. simpl. now left.
    + destruct (result_items items [] "") as [imgs text]. simpl.
      rewrite user_blocks_acc.
      destruct (user_blocks rest [] [] []) as [[o p] r]. simpl. now left.
  - specialize (IH b id c e Hin Hb).
    assert (G : forall out parts results,
      In (wire_tool_message id (Props.tool_result_text c))
         (snd (user_blocks rest out parts results))).
    { intros out parts results. rewrite user_blocks_acc.
      destruct (user_blocks rest [] [] []) as [[o p] r]. simpl in *.
      apply in_or_app. now right. }
    simpl. destruct (body b0) as [t|mt d|i n j|i c0 e0|th sg|url]; try apply G.
    destruct c0 as [|s|items]; try apply G.
    destruct (result_items items [] "") as [imgs text]. apply G.
Qed.

Lemma user_message_tool_result blocks b id c e :
  In b blocks -> body b = ToolResultBlock id c e ->
  In (wire_tool_message id (Props.tool_result_text c)) (user_message blocks []).
Proof.
  intros Hin Hb. pose proof (user_blocks_tool_result blocks b id c e Hin Hb) as H.
  unfold user_message.
  destruct (user_blocks blocks [] [] []) as [[o p] r]. simpl in H.
  assert (In (wire_tool_message id (Props.tool_result_text c)) (o ++ r))
    by (apply in_or_app; now right).
  destruct p as [|p1 [|p2 ps]]; auto; apply in_or_app; now left.
Qed.

Lemma step_user m blocks :
  role m = "user" -> content m = Blocks blocks ->
  step [] m = user_message blocks [].
Proof. intros Hr Hc. unfold step. now rewrite Hc, Hr. Qed.

(** The message list [_make_nebius_tool_result] returns. *)
Lemma make_nebius_tool_result_shape result id nm :
  _make_nebius_tool_result result id nm =
  mkMessage "tool" (Str (Props.nebius_tool_content result)) (Some id) (Some nm)
  :: (if truthy_opt (base64_image result)
      then [message "user"
              (Blocks [block (ImageUrl ("data:image/png;base64,"
                                ++ opt_str (base64_image result))%string)])]
      else []).
Proof.
  unfold _make_nebius_tool_result, Props.nebius_tool_content.
  now destruct (truthy_opt (base64_image result)).
Qed.

(** Once in the conversation, the messages of a Nebius tool result are
    translated into one tool-role message with the text alone. *)
Lemma convert_nebius_tool_result result id nm :
  _convert_anthropic_messages_to_openai (_make_nebius_tool_result result id nm)
  = [mkWire "tool" (Some (WStr (Props.nebius_tool_content result))) None None].
Proof.
  rewrite make_nebius_tool_result_shape.
  now destruct (truthy_opt (base64_image result)).
Qed.

(** C1.  At a tool result holding the text "done" and one PNG
    image, [_make_nebius_tool_result] gives the tool message and then the
    image message, while [_convert_anthropic_messages_to_openai], on the
    same tool result as a block of the conversation, gives the image message
    first and the tool message second. *)
Theorem retranslation_puts_image_before_tool_message :
  _make_nebius_tool_result
    (mkToolResult (Some "done") None (Some "iVBORw0KGgo") None)
    "call_1" "computer"
  = [mkMessage "tool" (Str "done") (Some "call_1") (Some "computer");
     message "user"
       (Blocks [block (ImageUrl "data:image/png;base64,iVBORw0KGgo")])]
  /\
  _convert_anthropic_messages_to_openai
    [message "user"
       (Blocks [block (ToolResultBlock "call_1"
                         (ListContent [RText "done";
                                       RImage "image/png" "iVBORw0KGgo"])
                         false)])]
  = [wire_image_message "image/png" "iVBORw0KGgo";
     wire_tool_message "call_1" "done"].
Proof. split; reflexivity. Qed.

(** The same order for every tool result with a text and an image. *)
Lemma retranslation_image_first id text media_type data is_error :
  _convert_anthropic_messages_to_openai
    [message "user"
       (Blocks [block (ToolResultBlock id
                         (ListContent [RText text; RImage media_type data])
                         is_error)])]
  = [wire_image_message media_type data; wire_tool_message id text].
Proof. reflexivity. Qed.

(** C7, as stated, fails: a tool result whose id no tool call has is
    translated into a tool-role message like any other. *)
Lemma dangling_tool_result_is_translated :
  let conversation :=
    [message "user" (Str "hello");
     message "assistant"
       (Blocks [block (ToolUse "call_1" "bash" (JObj [("command", JStr "ls")]))]);
     message "user"
       (Blocks [block (ToolResultBlock "call_9" (StrContent "files") false)])] in
  ~ In "call_9" (Props.tool_call_ids conversation) /\
  _convert_anthropic_messages_to_openai conversation
  = [mkWire "user" (Some (WStr "hello")) None None;
     mkWire "assistant" None
            (Some [mkWireToolCall "call_1" "function" "bash"
                     (Dumped (JObj [("command", JStr "ls")]))]) None;
     wire_tool_message "call_9" "files"].
Proof.
  split; [|reflexivity].
  simpl. intros [H|[]]. discriminate H.
Qed.

(** C7, amended.  The translation makes no pairing check: a tool result
    of a user message whose id matches no preceding tool call is translated
    into a tool-role wire message that carries this id. *)
Theorem unpaired_tool_result_passes_through
        (before after : list Message) (m : Message) (blocks : list Block)
        (b : Block) (id : string) (c : ResultContent) (e : bool) :
  role m = "user" ->
  content m = Blocks blocks ->
  In b blocks ->
  body b = ToolResultBlock id c e ->
  ~ In id (Props.tool_call_ids before) ->
  In (wire_tool_message id (Props.tool_result_text c))
     (_convert_anthropic_messages_to_openai (before ++ m :: after)).
Proof.
  intros Hr Hc Hin Hb _.
  rewrite convert_app, convert_cons, (step_user m blocks Hr Hc).
  apply in_or_app. right. apply in_or_app. left.
  now apply (user_message_tool_result blocks b id c e).
Qed.

Lemma unpaired_tool_result_passes_through_witness :
  In (wire_tool_message "call_9" "files")
     (_convert_anthropic_messages_to_openai
        ([message "user" (Str "hello")] ++
         message "user"
           (Blocks [block (ToolResultBlock "call_9" (StrContent "files") false)])
         :: [])).
Proof.
  apply (unpaired_tool_result_passes_through
           [message "user" (Str "hello")] []
           (message "user"
              (Blocks [block (ToolResultBlock "call_9" (StrContent "files")
                                              false)]))
           [block (ToolResultBlock "call_9" (StrContent "files") false)]
           (block (ToolResultBlock "call_9" (StrContent "files") false))
           "call_9" (StrContent "files") false).
  - reflexivity.
  - reflexivity.
  - simpl. now left.
  - reflexivity.
  - simpl. intros [].
Defined.



End ConvertClaims.

(** ** The translation of an OpenAI response *)

(** C6, as stated, fails: a response with neither text nor tool calls is
    translated into the empty list of content blocks, without an error. *)
Lemma empty_response_is_accepted :
  _convert_openai_response_to_anthropic
    (mkChatCompletion [mkChatMessage None None]) = Ok [].
Proof. reflexivity. Qed.

(** C6, amended.  For a response whose first choice has neither text nor
    tool calls, the translation returns the empty list of content blocks;
    no error is raised. *)
Theorem response_without_text_or_calls_gives_no_blocks
        (response : ChatCompletion) (choice : ChatMessage)
        (others : list ChatMessage) :
  choices response = choice :: others ->
  truthy_opt (chat_content choice) = false ->
  chat_tool_calls choice = None \/ chat_tool_calls choice = Some [] ->
  _convert_openai_response_to_anthropic response = Ok [].
Proof.
  intros Hc Ht Hcalls. unfold _convert_openai_response_to_anthropic.
  rewrite Hc, Ht. now destruct Hcalls as [-> | ->].
Qed.

Lemma response_without_text_or_calls_gives_no_blocks_witness :
  _convert_openai_response_to_anthropic
    (mkChatCompletion [mkChatMessage (Some "") (Some [])]) = Ok [].
Proof.
  apply (response_without_text_or_calls_gives_no_blocks
           (mkChatCompletion [mkChatMessage (Some "") (Some [])])
           (mkChatMessage (Some "") (Some [])) []).
  - reflexivity.
  - reflexivity.
  - right. reflexivity.
Defined.

(** ** The image-retention policy *)

Section RetentionFacts.

Import Filter Retention.

Lemma drop_oldest_zero items : drop_oldest 0 items = items.
Proof. induction items as [|item rest IH]; simpl; [reflexivity | now rewrite IH]. Qed.

Lemma new_content_spec items : forall n,
  fst (new_content items n) = drop_oldest (Z.to_nat n) items /\
  Z.to_nat (snd (new_content items n)) =
  Z.to_nat n - List.length (filter is_image items).
Proof.
  induction items as [|item rest IH]; intro n; simpl.
  - split; [reflexivity | lia].
  - destruct (is_image item) eqn:Himg; simpl.
    + destruct (Z.ltb_spec 0 n) as [Hpos|Hneg].
      * destruct (IH (n - 1)%Z) as [IH1 IH2].
        replace (Z.to_nat n) with (S (Z.to_nat (n - 1))) by lia.
        split; [exact IH1 | rewrite IH2; lia].
      * destruct (IH n) as [IH1 IH2].
        destruct (new_content rest n) as [kept n'] eqn:E. simpl in *.
        replace (Z.to_nat n) with 0 in * by lia.
        split; [now rewrite IH1 | lia].
    + destruct (IH n) as [IH1 IH2].
      destruct (new_content rest n) as [kept n'] eqn:E. simpl in *.
      split; [|exact IH2].
      rewrite IH1. now destruct (Z.to_nat n).
Qed.

Lemma prune_blocks_spec blocks : forall n,
  fst (prune_blocks blocks n) = remove_in_blocks (Z.to_nat n) blocks /\
  Z.to_nat (snd (prune_blocks blocks n)) =
  Z.to_nat n - List.length (blocks_images blocks).
Proof.
  induction blocks as [|b rest IH]; intro n; simpl.
  - split; [reflexivity | lia].
  - assert (Other : body b = body b ->
      fst (let '(rest', n') := prune_blocks rest n in (b :: rest', n')) =
        b :: remove_in_blocks (Z.to_nat n) rest /\
      Z.to_nat (snd (let '(rest', n') := prune_blocks rest n in (b :: rest', n')))
        = Z.to_nat n - List.length (blocks_images rest)).
    { intros _. destruct (IH n) as [IH1 IH2].
      destruct (prune_blocks rest n) as [rest' n']. simpl in *.
      now rewrite IH1. }
    destruct (body b) as [t|mt d|i nm j|id c e|th sg|url]; try (now apply Other).
    destruct c as [|s|items]; try (now apply Other). clear Other.
    destruct (new_content_spec items n) as [H1 H2].
    destruct (new_content items n) as [kept n1]. simpl in H1, H2.
    destruct (IH n1) as [IH1 IH2].
    destruct (prune_blocks rest n1) as [rest' n2]. simpl in *.
    rewrite H1, IH1, IH2, H2, length_app. split; [reflexivity | lia].
Qed.

Lemma prune_messages_spec messages : forall n,
  fst (prune_messages messages n) = remove_oldest (Z.to_nat n) messages /\
  Z.to_nat (snd (prune_messages messages n)) =
  Z.to_nat n - List.length (images messages).
Proof.
  induction messages as [|m rest IH]; intro n; simpl.
  - split; [reflexivity | lia].
  - unfold message_images. destruct (content m) as [s|blocks].
    + destruct (IH n) as [IH1 IH2].
      destruct (prune_messages rest n) as [rest' n']. simpl in *.
      now rewrite IH1.
    + destruct (prune_blocks_spec blocks n) as [H1 H2].
      destruct (prune_blocks blocks n) as [blocks' n1]. simpl in H1, H2.
      destruct (IH n1) as [IH1 IH2].
      destruct (prune_messages rest n1) as [rest' n2]. simpl in *.
      rewrite H1, IH1, IH2, H2, length_app. split; [reflexivity | lia].
Qed.

(** The images left are the old ones without the first [excess]. *)
Lemma drop_oldest_images items : forall r,
  filter is_image (drop_oldest r items) = skipn r (filter is_image items).
Proof.
  induction items as [|item rest IH]; intro r; simpl.
  - now rewrite skipn_nil.
  - destruct (is_image item) eqn:Himg.
    + destruct r as [|r]; simpl; rewrite ?Himg.
      * now rewrite drop_oldest_zero.
      * apply IH.
    + assert (E : match r with
                  | 0 | _ => item :: drop_oldest r rest
                  end = item :: drop_oldest r rest) by now destruct r.
      rewrite E. simpl. rewrite ?Himg. apply IH.
Qed.

Lemma remove_in_blocks_images blocks : forall r,
  blocks_images (remove_in_blocks r blocks) = skipn r (blocks_images blocks).
Proof.
  induction blocks as [|b rest IH]; intro r; simpl.
  - now rewrite skipn_nil.
  - destruct (body b) as [t|mt d|i nm j|id c e|th sg|url] eqn:Hb;
      simpl; rewrite ?Hb; try apply IH.
    destruct c as [|s|items]; simpl; rewrite ?Hb; simpl; try apply IH.
    now rewrite skipn_app, IH, drop_oldest_images.
Qed.

Lemma remove_oldest_images messages : forall r,
  images (remove_oldest r messages) = skipn r (images messages).
Proof.
  unfold images.
  induction messages as [|m rest IH]; intro r; simpl.
  - now rewrite skipn_nil.
  - unfold message_images at 2. destruct (content m) as [s|blocks] eqn:Hc; simpl.
    + unfold message_images at 1. rewrite Hc. simpl. apply IH.
    + unfold message_images at 1. simpl.
      now rewrite skipn_app, IH, remove_in_blocks_images.
Qed.

(** Nothing but images is deleted, and nothing is moved. *)
Lemma drop_oldest_keeps_others items : forall r,
  without_images_items (drop_oldest r items) = without_images_items items.
Proof.
  unfold without_images_items.
  induction items as [|item rest IH]; intro r; simpl; [reflexivity|].
  destruct (is_image item) eqn:Himg.
  - destruct r as [|r]; simpl; rewrite ?Himg; simpl; apply IH.
  - assert (E : match r with
                | 0 | _ => item :: drop_oldest r rest
                end = item :: drop_oldest r rest) by now destruct r.
    rewrite E. simpl. rewrite ?Himg. simpl. now rewrite IH.
Qed.

Lemma remove_in_blocks_keeps_others blocks : forall r,
  map without_images_block (remove_in_blocks r blocks) =
  map without_images_block blocks.
Proof.
  induction blocks as [|b rest IH]; intro r; simpl; [reflexivity|].
  destruct (body b) as [t|mt d|i nm j|id c e|th sg|url] eqn:Hb;
    simpl; rewrite ?IH; try reflexivity.
  destruct c as [|s|items]; simpl; rewrite ?IH; try reflexivity.
  unfold without_images_block at 1 3. simpl. rewrite Hb.
  now rewrite drop_oldest_keeps_others.
Qed.

Lemma remove_oldest_keeps_others messages : forall r,
  without_images (remove_oldest r messages) = without_images messages.
Proof.
  unfold without_images.
  induction messages as [|m rest IH]; intro r; simpl; [reflexivity|].
  destruct (content m) as [s|blocks] eqn:Hc; simpl; rewrite IH.
  - reflexivity.
  - unfold without_images_message at 1 3. simpl. rewrite Hc.
    now rewrite remove_in_blocks_keeps_others.
Qed.

(** The counter of the code and the excess of the specification delete the
    same number of images. *)
Lemma counter_is_excess total keep chunk :
  (1 <= chunk)%Z ->
  Z.to_nat ((total - keep) - (total - keep) mod chunk) =
  Z.to_nat (excess total keep chunk).
Proof.
  intro Hchunk. unfold excess.
  pose proof (Z.mod_pos_bound (total - keep) chunk ltac:(lia)) as Hm.
  destruct (Z.max_spec 0 (total - keep)) as [[Hlt ->]|[Hge ->]].
  - reflexivity.
  - rewrite Z.mod_0_l by lia. lia.
Qed.

Lemma excess_bounds total keep chunk :
  (1 <= chunk)%Z ->
  (0 <= excess total keep chunk <= Z.max 0 (total - keep))%Z.
Proof.
  intro Hchunk. unfold excess.
  pose proof (Z.mod_pos_bound (Z.max 0 (total - keep)) chunk ltac:(lia)).
  pose proof (Z.mod_le (Z.max 0 (total - keep)) chunk ltac:(lia) ltac:(lia)).
  lia.
Qed.

(** C2.  With [keep >= 1] and [chunk >= 1] the policy deletes the oldest
    [excess] images of the tool results, where [excess] is
    [max(0, total - keep)] rounded down to a multiple of [chunk]: the
    conversation it leaves is the old one with these images deleted from
    their content lists, its images are the old ones without the first
    [excess], everything but images is as before and in the same order; with
    [keep = 1], [chunk = 3] and 7 images, 6 are deleted and 1 is left. *)
Theorem image_retention_removes_oldest_excess
        (messages : list Message) (keep chunk : Z) :
  (1 <= keep)%Z ->
  (1 <= chunk)%Z ->
  let total := total_images messages in
  let removed := excess total keep chunk in
  exists messages',
    _maybe_filter_to_n_most_recent_images messages (Some keep) chunk
      = Ok messages' /\
    messages' = remove_oldest (Z.to_nat removed) messages /\
    total_images messages' = (total - removed)%Z /\
    images messages' = skipn (Z.to_nat removed) (images messages) /\
    without_images messages' = without_images messages /\
    (keep = 1%Z -> chunk = 3%Z -> total = 7%Z ->
     removed = 6%Z /\ total_images messages' = 1%Z).
Proof.
  intros Hkeep Hchunk total removed.
  exists (remove_oldest (Z.to_nat removed) messages).
  pose proof (excess_bounds total keep chunk Hchunk) as Hb.
  fold removed in Hb.
  assert (Htotal : total_images (remove_oldest (Z.to_nat removed) messages)
                   = (total - removed)%Z).
  { unfold total_images. rewrite remove_oldest_images, length_skipn.
    fold (total_images messages). unfold total, total_images in *. lia. }
  split; [|split; [|split; [|split; [|split]]]].
  - unfold _maybe_filter_to_n_most_recent_images.
    destruct (Z.eqb_spec chunk 0) as [->|_]; [lia|].
    destruct (prune_messages_spec messages
                ((total - keep) - (total - keep) mod chunk)%Z) as [H _].
    fold total. rewrite H, counter_is_excess by assumption. reflexivity.
  - reflexivity.
  - exact Htotal.
  - apply remove_oldest_images.
  - apply remove_oldest_keeps_others.
  - intros Hk Hc E. rewrite Htotal. unfold removed. rewrite E, Hk, Hc.
    split; reflexivity.
Qed.

Lemma image_retention_removes_oldest_excess_witness :
  exists messages',
    _maybe_filter_to_n_most_recent_images Fixture.seven_images (Some 1%Z) 3%Z
      = Ok messages' /\
    total_images messages' = 1%Z /\
    images messages' = [Fixture.screenshot "s7"].
Proof.
  destruct (image_retention_removes_oldest_excess
              Fixture.seven_images 1%Z 3%Z ltac:(lia) ltac:(lia))
    as (messages' & Hrun & _ & _ & Himages & _ & Hseven).
  exists messages'. split; [exact Hrun|]. split.
  - apply Hseven; reflexivity.
  - rewrite Himages. reflexivity.
Defined.

End RetentionFacts.

(** ** The cache-breakpoint policy *)

Section BreakpointFacts.

Import Caching Breakpoints.

Lemma update_last_some f blocks :
  blocks <> [] -> exists blocks', update_last f blocks = Some blocks'.
Proof.
  induction blocks as [|b rest IH]; intro H; [contradiction|].
  destruct rest as [|b' rest].
  - now exists [f b].
  - destruct IH as [blocks' E]; [discriminate|].
    exists (b :: blocks'). simpl in *. now rewrite E.
Qed.

Lemma markable_blocks m :
  markable m = true ->
  role m = "user" /\ exists b rest, content m = Blocks (b :: rest).
Proof.
  unfold markable. intro H. apply andb_prop in H as [Hr Hc].
  apply String.eqb_eq in Hr. split; [exact Hr|].
  destruct (content m) as [s|[|b rest]]; try discriminate. now exists b, rest.
Qed.

Lemma scan_skip skipped : forall rest k,
  forallb (fun m => negb (eligible m)) skipped = true ->
  scan (skipped ++ rest) k =
  (skipped ++ fst (scan rest k), snd (scan rest k)).
Proof.
  induction skipped as [|m more IH]; intros rest k H; simpl in *.
  - now destruct (scan rest k).
  - apply andb_prop in H as [Hm Hmore].
    rewrite (IH rest k Hmore). unfold eligible in Hm.
    destruct (content m) as [s|blocks]; [reflexivity|].
    destruct (role m =? "user"); [discriminate | reflexivity].
Qed.

Lemma scan_mark m rest k :
  markable m = true ->
  scan (m :: rest) (S k) = (marked m :: fst (scan rest k), snd (scan rest k)).
Proof.
  intro H. destruct (markable_blocks m H) as [Hr (b & bs & Hc)].
  destruct (update_last_some set_cache_control (b :: bs)) as [blocks' E];
    [discriminate|].
  unfold marked, on_last. cbn [scan]. rewrite Hc, Hr, E. simpl.
  now destruct (scan rest k).
Qed.

Lemma scan_clear m rest :
  markable m = true ->
  scan (m :: rest) 0 = (cleared m :: rest, None).
Proof.
  intro H. destruct (markable_blocks m H) as [Hr (b & bs & Hc)].
  destruct (update_last_some pop_cache_control (b :: bs)) as [blocks' E];
    [discriminate|].
  unfold cleared, on_last. cbn [scan]. now rewrite Hc, Hr, E.
Qed.

Lemma forallb_rev {A} (f : A -> bool) (l : list A) :
  forallb f (rev l) = forallb f l.
Proof.
  induction l as [|x l IH]; simpl; [reflexivity|].
  rewrite forallb_app, IH. simpl. rewrite andb_true_r. apply andb_comm.
Qed.

Lemma inject_skip k front skipped r e :
  forallb (fun m => negb (eligible m)) skipped = true ->
  inject k front = (r, e) ->
  inject k (front ++ skipped) = (r ++ skipped, e).
Proof.
  unfold inject. intros Hs H.
  rewrite rev_app_distr, scan_skip by now rewrite forallb_rev.
  destruct (scan (rev front) k) as [r' e']. inversion H; subst. simpl.
  now rewrite rev_app_distr, rev_involutive.
Qed.

Lemma inject_mark k front m r e :
  markable m = true ->
  inject k front = (r, e) ->
  inject (S k) (front ++ [m]) = (r ++ [marked m], e).
Proof.
  unfold inject. intros Hm H.
  rewrite rev_app_distr. simpl rev. simpl app. rewrite scan_mark by assumption.
  destruct (scan (rev front) k) as [r' e']. inversion H; subst. reflexivity.
Qed.

Lemma inject_clear front m :
  markable m = true ->
  inject 0 (front ++ [m]) = (front ++ [cleared m], None).
Proof.
  unfold inject. intro Hm.
  rewrite rev_app_distr. simpl rev. simpl app. rewrite scan_clear by assumption.
  simpl. now rewrite rev_involutive.
Qed.

(** Markers after the scan. *)
Lemma marked_carries_marker m :
  markable m = true -> carries_marker (marked m) = true.
Proof.
  intro H. destruct (markable_blocks m H) as [_ (b & bs & Hc)].
  unfold marked, on_last, carries_marker. rewrite Hc.
  destruct (update_last_some set_cache_control (b :: bs)) as [blocks' E];
    [discriminate|].
  rewrite E. simpl. clear Hc H.
  revert b blocks' E. induction bs as [|b' bs IH]; intros b blocks' E.
  - inversion E. reflexivity.
  - change (update_last set_cache_control (b :: b' :: bs))
      with (match update_last set_cache_control (b' :: bs) with
            | Some rest' => Some (b :: rest')
            | None => None
            end) in E.
    destruct (update_last set_cache_control (b' :: bs)) as [r|] eqn:E';
      [|discriminate].
    inversion E; subst. simpl. rewrite (IH b' r E'). apply orb_true_r.
Qed.

Lemma cleared_carries_no_marker m :
  carries_marker m = false -> carries_marker (cleared m) = false.
Proof.
  unfold cleared, on_last, carries_marker.
  destruct (content m) as [s|blocks] eqn:Hc; [now rewrite Hc|].
  destruct (update_last pop_cache_control blocks) as [blocks'|] eqn:E;
    [|now rewrite Hc].
  simpl. clear Hc. revert blocks' E.
  induction blocks as [|b bs IH]; intros blocks' E H; [discriminate|].
  simpl in H. apply orb_false_iff in H as [Hb Hbs].
  destruct bs as [|b' bs].
  - inversion E. reflexivity.
  - change (update_last pop_cache_control (b :: b' :: bs))
      with (match update_last pop_cache_control (b' :: bs) with
            | Some rest' => Some (b :: rest')
            | None => None
            end) in E.
    destruct (update_last pop_cache_control (b' :: bs)) as [r|] eqn:E';
      [|discriminate].
    inversion E; subst. simpl. rewrite Hb. simpl. now apply IH.
Qed.

Lemma count_marked_app a b :
  count_marked (a ++ b) = count_marked a + count_marked b.
Proof. unfold count_marked. now rewrite filter_app, length_app. Qed.

Lemma count_marked_none messages :
  forallb (fun m => negb (carries_marker m)) messages = true ->
  count_marked messages = 0.
Proof.
  unfold count_marked.
  induction messages as [|m rest IH]; intro H; simpl in *; [reflexivity|].
  apply andb_prop in H as [Hm Hrest].
  destruct (carries_marker m); [discriminate | now apply IH].
Qed.

(** C3, as stated, fails: with four user messages that hold an item and a
    newer user message whose content list is empty, the scan raises
    IndexError at the newest message and sets no breakpoint. *)
Lemma empty_content_list_raises :
  List.length (filter markable Fixture.empty_last_turn) = 4 /\
  _inject_prompt_caching Fixture.empty_last_turn
  = (Fixture.empty_last_turn, Some IndexError) /\
  count_marked (fst (_inject_prompt_caching Fixture.empty_last_turn)) = 0.
Proof. repeat split. Qed.

(** C3, amended.  When the four most recent user messages with list
    content ([m1] the newest, [m4] the oldest) each hold at least one item,
    the scan sets the breakpoint on the last item of [m1], [m2] and [m3],
    clears it from the last item of [m4], leaves every other message as it
    is and raises nothing; if no message carried a marker before, exactly
    three carry one afterwards. *)
Theorem breakpoints_on_three_most_recent
        (older s3 s2 s1 s0 : list Message) (m4 m3 m2 m1 : Message) :
  markable m1 = true -> markable m2 = true ->
  markable m3 = true -> markable m4 = true ->
  forallb (fun m => negb (eligible m)) s0 = true ->
  forallb (fun m => negb (eligible m)) s1 = true ->
  forallb (fun m => negb (eligible m)) s2 = true ->
  forallb (fun m => negb (eligible m)) s3 = true ->
  let conversation :=
    older ++ m4 :: s3 ++ m3 :: s2 ++ m2 :: s1 ++ m1 :: s0 in
  _inject_prompt_caching conversation =
    (older ++ cleared m4 :: s3 ++ marked m3 :: s2 ++ marked m2
           :: s1 ++ marked m1 :: s0, None) /\
  (forallb (fun m => negb (carries_marker m)) conversation = true ->
   count_marked (fst (_inject_prompt_caching conversation)) = 3).
Proof.
  intros H1 H2 H3 H4 Hs0 Hs1 Hs2 Hs3 conversation.
  assert (E : _inject_prompt_caching conversation =
    (older ++ cleared m4 :: s3 ++ marked m3 :: s2 ++ marked m2
           :: s1 ++ marked m1 :: s0, None)).
  { pose proof (inject_clear older m4 H4) as P.
    apply (inject_skip 0 _ s3 _ _ Hs3) in P.
    apply (inject_mark 0 _ m3 _ _ H3) in P.
    apply (inject_skip 1 _ s2 _ _ Hs2) in P.
    apply (inject_mark 1 _ m2 _ _ H2) in P.
    apply (inject_skip 2 _ s1 _ _ Hs1) in P.
    apply (inject_mark 2 _ m1 _ _ H1) in P.
    apply (inject_skip 3 _ s0 _ _ Hs0) in P.
    repeat rewrite <- app_assoc in P. simpl in P. exact P. }
  split; [exact E|].
  intro Hnone. rewrite E. simpl fst.
  unfold conversation in Hnone.
  repeat (rewrite forallb_app in Hnone; simpl in Hnone).
  repeat match type of Hnone with
         | (_ && _ = true) =>
             let Ha := fresh "Ha" in
             apply andb_prop in Hnone as [Ha Hnone]
         end.
  rewrite count_marked_app.
  change (cleared m4 :: s3 ++ marked m3 :: s2 ++ marked m2 :: s1 ++ marked m1 :: s0)
    with ([cleared m4] ++ s3 ++ [marked m3] ++ s2 ++ [marked m2] ++ s1
            ++ [marked m1] ++ s0).
  repeat rewrite count_marked_app.
  rewrite (count_marked_none older), (count_marked_none s3),
    (count_marked_none s2), (count_marked_none s1), (count_marked_none s0)
    by assumption.
  unfold count_marked. simpl.
  rewrite !marked_carries_marker by assumption.
  rewrite cleared_carries_no_marker; [reflexivity|].
  now apply negb_true_iff.
Qed.

Lemma breakpoints_on_three_most_recent_witness :
  snd (_inject_prompt_caching Fixture.five_user_turns) = None /\
  count_marked (fst (_inject_prompt_caching Fixture.five_user_turns)) = 3.
Proof.
  destruct (breakpoints_on_three_most_recent
              [Fixture.user_turn "one"; Fixture.assistant_turn "a"]
              [Fixture.assistant_turn "b"] [Fixture.assistant_turn "c"]
              [Fixture.assistant_turn "d"] []
              (Fixture.user_turn "two") (Fixture.user_turn "three")
              (Fixture.user_turn "four") (Fixture.user_turn "five")
              eq_refl eq_refl eq_refl eq_refl eq_refl eq_refl eq_refl eq_refl)
    as [E C].
  split.
  - change Fixture.five_user_turns
      with ([Fixture.user_turn "one"; Fixture.assistant_turn "a"] ++
            Fixture.user_turn "two" :: [Fixture.assistant_turn "b"] ++
            Fixture.user_turn "three" :: [Fixture.assistant_turn "c"] ++
            Fixture.user_turn "four" :: [Fixture.assistant_turn "d"] ++
            Fixture.user_turn "five" :: []).
    now rewrite E.
  - apply C. reflexivity.
Defined.

End BreakpointFacts.

(** ** What the history policies change *)

Section PolicyFacts.

Import Caching Breakpoints.

Lemma update_last_unmarked f blocks blocks' :
  (forall b, body (f b) = body b) ->
  update_last f blocks = Some blocks' ->
  map unmarked_block blocks' = map unmarked_block blocks.
Proof.
  intro Hf. revert blocks'.
  induction blocks as [|b rest IH]; intros blocks' H; [discriminate|].
  destruct rest as [|b' rest].
  - inversion H. simpl. unfold unmarked_block. now rewrite Hf.
  - change (update_last f (b :: b' :: rest))
      with (match update_last f (b' :: rest) with
            | Some rest' => Some (b :: rest')
            | None => None
            end) in H.
    destruct (update_last f (b' :: rest)) as [r|] eqn:E; [|discriminate].
    inversion H; subst. simpl. f_equal. exact (IH r eq_refl).
Qed.

Lemma on_last_unmarked f m :
  (forall b, body (f b) = body b) ->
  unmarked_message (on_last f m) = unmarked_message m.
Proof.
  intro Hf. unfold on_last.
  destruct (content m) as [s|blocks] eqn:Hc; [reflexivity|].
  destruct (update_last f blocks) as [blocks'|] eqn:E; [|reflexivity].
  unfold unmarked_message. simpl. rewrite Hc.
  now rewrite (update_last_unmarked f blocks blocks' Hf E).
Qed.

Lemma scan_effect reversed : forall k,
  List.length (fst (scan reversed k)) = List.length reversed /\
  unmarked (fst (scan reversed k)) = unmarked reversed.
Proof.
  induction reversed as [|m rest IH]; intro k; [now split|].
  assert (Skip : forall k',
    List.length (fst (let '(rest', e) := scan rest k' in (m :: rest', e)))
      = List.length (m :: rest) /\
    unmarked (fst (let '(rest', e) := scan rest k' in (m :: rest', e)))
      = unmarked (m :: rest)).
  { intro k'. destruct (IH k') as [L U].
    destruct (scan rest k') as [rest' e]. simpl in *. now rewrite L, U. }
  cbn [scan]. destruct (content m) as [s|blocks] eqn:Hc; [apply Skip|].
  destruct (role m =? "user"); [|apply Skip].
  destruct k as [|k].
  - destruct (update_last pop_cache_control blocks) as [blocks'|] eqn:E;
      [|now split].
    simpl. split; [reflexivity|]. f_equal.
    pose proof (on_last_unmarked pop_cache_control m (fun b => eq_refl)) as H.
    unfold on_last in H. now rewrite Hc, E in H.
  - destruct (update_last set_cache_control blocks) as [blocks'|] eqn:E;
      [|now split].
    destruct (IH k) as [L U]. destruct (scan rest k) as [rest' e].
    simpl in *. rewrite L, U. split; [reflexivity|]. f_equal.
    pose proof (on_last_unmarked set_cache_control m (fun b => eq_refl)) as H.
    unfold on_last in H. now rewrite Hc, E in H.
Qed.

Lemma inject_effect messages messages' e :
  _inject_prompt_caching messages = (messages', e) ->
  List.length messages' = List.length messages /\
  unmarked messages' = unmarked messages.
Proof.
  unfold _inject_prompt_caching. intro H.
  destruct (scan_effect (rev messages) 3) as [L U].
  destruct (scan (rev messages) 3) as [r e']. inversion H; subst.
  simpl in *. split.
  - now rewrite length_rev, L, length_rev.
  - unfold unmarked in *. now rewrite map_rev, U, <- map_rev, rev_involutive.
Qed.

Lemma remove_oldest_length messages : forall r,
  List.length (Retention.remove_oldest r messages) = List.length messages.
Proof.
  induction messages as [|m rest IH]; intro r; simpl; [reflexivity|].
  destruct (content m); simpl; now rewrite IH.
Qed.

Lemma blocks_images_unmarked blocks :
  Filter.blocks_images (map unmarked_block blocks) = Filter.blocks_images blocks.
Proof.
  induction blocks as [|b rest IH]; simpl; [reflexivity|].
  destruct (body b); now rewrite IH.
Qed.

Lemma images_unmarked messages :
  Filter.images (unmarked messages) = Filter.images messages.
Proof.
  unfold Filter.images, unmarked.
  induction messages as [|m rest IH]; simpl; [reflexivity|].
  rewrite IH. f_equal. unfold unmarked_message, Filter.message_images.
  destruct (content m) as [s|blocks] eqn:Hc; simpl; [now rewrite Hc|].
  apply blocks_images_unmarked.
Qed.

Lemma images_app a b :
  Filter.images (a ++ b) = Filter.images a ++ Filter.images b.
Proof. apply flat_map_app. Qed.

Lemma provider_eqb_eq a b : provider_eqb a b = true <-> a = b.
Proof. destruct a, b; simpl; split; intro H; try reflexivity; discriminate. Qed.

(** The effect of the policies at the head of an iteration. *)
Lemma apply_policies_effect settings messages only_n messages' only_n'
      caching e :
  apply_policies settings messages only_n = (messages', only_n', caching, e) ->
  List.length messages' = List.length messages /\
  (provider settings = ANTHROPIC ->
   unmarked messages' = unmarked messages /\
   only_n' = Some 0%Z /\ caching = true) /\
  (provider settings <> ANTHROPIC ->
   Retention.without_images messages' = Retention.without_images messages /\
   only_n' = only_n /\ caching = false /\
   (truthy_int only_n = false -> messages' = messages)).
Proof.
  unfold apply_policies. intro H.
  destruct (provider_eqb (provider settings) ANTHROPIC) eqn:Hp.
  - apply provider_eqb_eq in Hp.
    destruct (_inject_prompt_caching messages) as [m1 e1] eqn:E.
    destruct (inject_effect messages m1 e1 E) as [L U].
    assert (m1 = messages' /\ only_n' = Some 0%Z /\ caching = true)
      as (<- & -> & ->) by (destruct e1; inversion H; auto).
    split; [exact L|]. split; [now intros _ | intro C; now contradiction C].
  - assert (Hne : provider settings <> ANTHROPIC).
    { intro C. apply provider_eqb_eq in C. congruence. }
    split; [|split; [intro C; now contradiction Hne|intros _]].
    + destruct (truthy_int only_n) eqn:T; [|now inversion H].
      unfold _maybe_filter_to_n_most_recent_images in H.
      destruct only_n as [n|]; [|discriminate T]. simpl in T, H.
      destruct (Z.eqb n 0); [discriminate T|].
      destruct (prune_messages_spec messages
        (Filter.total_images messages - n -
         (Filter.total_images messages - n) mod n)%Z) as [P _].
      rewrite P in H. inversion H; subst. apply remove_oldest_length.
    + destruct (truthy_int only_n) eqn:T; [|inversion H; now subst].
      unfold _maybe_filter_to_n_most_recent_images in H.
      destruct only_n as [n|]; [|discriminate T]. simpl in T, H.
      destruct (Z.eqb n 0); [discriminate T|].
      destruct (prune_messages_spec messages
        (Filter.total_images messages - n -
         (Filter.total_images messages - n) mod n)%Z) as [P _].
      rewrite P in H. inversion H; subst.
      split; [apply remove_oldest_keeps_others|].
      repeat split. discriminate.
Qed.

End PolicyFacts.

(** ** The sampling loop *)

Section LoopFacts.

Variable World : Type.
Variable SYSTEM_PROMPT : string.
Variable beta_flag : option string.
Variable anthropic_create : AnthropicRequest -> World -> Result BetaMessage * World.
Variable openai_create : OpenAIRequest -> World -> Result ChatCompletion * World.
Variable tool_run : string -> json -> World -> Result ToolResult * World.

Local Abbreviation loop :=
  (sampling_loop World SYSTEM_PROMPT beta_flag anthropic_create openai_create
                 tool_run).
Local Abbreviation call :=
  (call_api World SYSTEM_PROMPT beta_flag anthropic_create openai_create).
Local Abbreviation run_tools := (dispatch World tool_run).

(** What the Nebius branch sends: the system message, then the
    translation of the conversation. *)
Lemma nebius_request_messages settings caching messages w :
  provider settings = NEBIUS ->
  call settings caching messages w =
  match openai_create
          (mkOpenAIRequest (model settings)
             (mkWire "system" (Some (WStr (system_text SYSTEM_PROMPT settings)))
                     None None
              :: _convert_anthropic_messages_to_openai messages)
             "required" (max_tokens settings)) w with
  | (Ok response, w') => (Ok (NebiusReply response), w')
  | (Raise e, w') => (Raise e, w')
  end.
Proof. intro Hp. unfold call_api. now rewrite Hp. Qed.

(** Blocks that are no tool call are only shown. *)
Lemma dispatch_shown prov shown : forall rest nebius results w log,
  forallb (fun b => negb (Props.is_tool_use b)) shown = true ->
  run_tools prov (shown ++ rest) nebius results w log =
  run_tools prov rest nebius results w (log ++ map output_callback shown).
Proof.
  induction shown as [|b more IH]; intros rest nebius results w log H.
  - simpl. now rewrite app_nil_r.
  - simpl in H. apply andb_prop in H as [Hb Hmore].
    simpl. unfold Props.is_tool_use in Hb.
    destruct (body b); try discriminate;
      rewrite IH by assumption; now rewrite <- app_assoc.
Qed.

Lemma dispatch_no_tool_call prov shown nebius results w log :
  forallb (fun b => negb (Props.is_tool_use b)) shown = true ->
  run_tools prov shown nebius results w log =
  mkDispatched World None nebius results w (log ++ map output_callback shown).
Proof.
  intro H. rewrite <- (app_nil_r shown) at 1.
  now rewrite dispatch_shown.
Qed.

(** C4, amended.  When the first reply holds no tool call, the loop
    returns in its first iteration the messages as the history policies of
    that iteration left them, followed by the assistant message: one
    message more than at the start.  With the Anthropic provider the
    initial messages differ from the start in breakpoint markers only; with
    another provider in images of tool results only, and not at all when no
    retention count is set. *)
Theorem reply_without_tool_call_ends_loop
        (settings : Settings) (messages messages' : list Message)
        (only_n only_n' : option Z) (caching : bool) (w w' : World)
        (log : list Event) (reply : Reply) (params : list Block)
        (fuel : nat) :
  apply_policies settings messages only_n
    = (messages', only_n', caching, None) ->
  call settings caching messages' w = (Ok reply, w') ->
  reply_params reply = Ok params ->
  forallb (fun b => negb (Props.is_tool_use b)) params = true ->
  let final := messages' ++ [message "assistant" (Blocks params)] in
  outcome World (loop (S fuel) settings messages only_n w log)
    = Returned final /\
  List.length final = List.length messages + 1 /\
  (provider settings = ANTHROPIC ->
   Breakpoints.unmarked messages' = Breakpoints.unmarked messages) /\
  (provider settings <> ANTHROPIC ->
   Retention.without_images messages' = Retention.without_images messages /\
   (truthy_int only_n = false -> messages' = messages)).
Proof.
  intros Hpol Hcall Hparams Hnone final.
  destruct (apply_policies_effect _ _ _ _ _ _ _ Hpol) as (L & A & O).
  split; [|split; [|split]].
  - cbn [sampling_loop]. rewrite Hpol, Hcall, Hparams.
    rewrite dispatch_no_tool_call by assumption. simpl.
    now destruct (provider_eqb (provider settings) NEBIUS).
  - unfold final. rewrite length_app, L. reflexivity.
  - intro Hp. now destruct (A Hp).
  - intro Hp. destruct (O Hp) as (W & _ & _ & S). now split.
Qed.

(** C5, amended.  When the call of the backend raises, the loop calls
    the diagnostic callback with the exception and returns the messages as
    the history policies of that iteration left them: nothing is appended,
    the length is the one at the start; with the Anthropic provider they
    differ from the start in breakpoint markers only, with another provider
    in images of tool results only, and not at all when no retention count
    is set. *)
Theorem failed_call_appends_nothing
        (settings : Settings) (messages messages' : list Message)
        (only_n only_n' : option Z) (caching : bool) (w w' : World)
        (log : list Event) (e : Exn) (fuel : nat) :
  apply_policies settings messages only_n
    = (messages', only_n', caching, None) ->
  call settings caching messages' w = (Raise e, w') ->
  loop (S fuel) settings messages only_n w log
    = mkRun World (Returned messages') w' (log ++ [failure_event e]) /\
  (exists given payload,
     failure_event e = api_response_callback given payload (Some e)) /\
  List.length messages' = List.length messages /\
  (provider settings = ANTHROPIC ->
   Breakpoints.unmarked messages' = Breakpoints.unmarked messages) /\
  (provider settings <> ANTHROPIC ->
   Retention.without_images messages' = Retention.without_images messages /\
   (truthy_int only_n = false -> messages' = messages)).
Proof.
  intros Hpol Hcall.
  destruct (apply_policies_effect _ _ _ _ _ _ _ Hpol) as (L & A & O).
  split; [|split; [|split; [|split]]].
  - cbn [sampling_loop]. now rewrite Hpol, Hcall.
  - destruct e; simpl; eauto.
  - exact L.
  - intro Hp. now destruct (A Hp).
  - intro Hp. destruct (O Hp) as (W & _ & _ & S). now split.
Qed.

(** The dispatch of a list of blocks in two parts. *)
Lemma dispatch_app prov first : forall rest nebius results w log,
  run_tools prov (first ++ rest) nebius results w log =
  let d := run_tools prov first nebius results w log in
  match raised World d with
  | Some _ => d
  | None =>
      run_tools prov rest (nebius_tool_messages World d)
                (tool_result_content World d) (dispatch_world World d)
                (dispatch_trace World d)
  end.
Proof.
  induction first as [|b more IH]; intros rest nebius results w log.
  - reflexivity.
  - cbn [app dispatch].
    destruct (body b) as [t|mt dt|id nm input|id c e|th sg|url]; try apply IH.
    destruct (tool_run nm input w) as [[result|e] w']; [|reflexivity].
    destruct (provider_eqb prov NEBIUS); apply IH.
Qed.

(** What was collected stays collected. *)
Lemma dispatch_keeps prov params : forall nebius results w log,
  let d := run_tools prov params nebius results w log in
  (forall m, In m nebius -> In m (nebius_tool_messages World d)) /\
  (forall b, In b results -> In b (tool_result_content World d)).
Proof.
  induction params as [|b more IH]; intros nebius results w log.
  - now split.
  - cbn [dispatch].
    destruct (body b) as [t|mt dt|id nm input|id c e|th sg|url]; try apply IH.
    destruct (tool_run nm input w) as [[result|e] w']; [|now split].
    destruct (provider_eqb prov NEBIUS).
    + destruct (IH (nebius ++ _make_nebius_tool_result result id nm)
                   results w'
                   ((log ++ [output_callback b])
                      ++ [tool_output_callback result id])) as [N R].
      split; [|exact R]. intros m Hm. apply N, in_or_app. now left.
    + destruct (IH nebius (results ++ [_make_api_tool_result result id]) w'
                   ((log ++ [output_callback b])
                      ++ [tool_output_callback result id])) as [N R].
      split; [exact N|]. intros x Hx. apply R, in_or_app. now left.
Qed.

Lemma error_result_block result id :
  truthy_opt (error result) = true ->
  _make_api_tool_result result id = Props.error_block result id.
Proof. intro H. unfold _make_api_tool_result. now rewrite H. Qed.

Lemma error_result_message result id nm :
  truthy_opt (error result) = true ->
  In (Props.error_message result id nm) (_make_nebius_tool_result result id nm).
Proof.
  intro H. rewrite make_nebius_tool_result_shape.
  unfold Props.nebius_tool_content. rewrite H. now left.
Qed.

(** C8, amended.  Let a reply hold a tool call, and let the dispatch of the
    blocks before it raise nothing.  When the tool executor returns a result
    whose error is set, the result is collected in band (an is_error
    tool_result block with the error text for the Anthropic providers, a
    tool message with the error text for Nebius); if no other tool call of
    the reply raises, the loop appends the assistant message and what it
    collected and goes on with the next iteration.  When the executor
    raises, the exception leaves the loop, with the assistant message
    appended and no tool result. *)
Theorem tool_error_result_is_appended
        (settings : Settings) (messages messages' : list Message)
        (only_n only_n' : option Z) (caching : bool) (w w1 : World)
        (log : list Event) (reply : Reply) (before after : list Block)
        (tool_call : Block) (id nm : string) (input : json) (fuel : nat) :
  apply_policies settings messages only_n
    = (messages', only_n', caching, None) ->
  call settings caching messages' w = (Ok reply, w1) ->
  reply_params reply = Ok (before ++ tool_call :: after) ->
  body tool_call = ToolUse id nm input ->
  let prov := provider settings in
  let shown := log ++ [success_event reply] in
  let reached := run_tools prov before [] [] w1 shown in
  raised World reached = None ->
  let assistant :=
    message "assistant" (Blocks (before ++ tool_call :: after)) in
  let d := run_tools prov (before ++ tool_call :: after) [] [] w1 shown in
  match tool_run nm input (dispatch_world World reached) with
  | (Raise e, _) =>
      outcome World (loop (S fuel) settings messages only_n w log)
      = Propagated e (messages' ++ [assistant])
  | (Ok result, _) =>
      truthy_opt (error result) = true ->
      Props.in_band prov d result id nm /\
      (raised World d = None ->
       loop (S fuel) settings messages only_n w log
       = loop fuel settings
           ((messages' ++ [assistant]) ++ Props.appended prov d)
           only_n' (dispatch_world World d) (dispatch_trace World d))
  end.
Proof.
  intros Hpol Hcall Hparams Hbody prov shown reached Hreached assistant d.
  assert (Hd : d = run_tools prov (tool_call :: after)
                     (nebius_tool_messages World reached)
                     (tool_result_content World reached)
                     (dispatch_world World reached)
                     (dispatch_trace World reached)).
  { unfold d. rewrite dispatch_app. fold reached. cbv zeta.
    now rewrite Hreached. }
  cbn [dispatch] in Hd. rewrite Hbody in Hd.
  destruct (tool_run nm input (dispatch_world World reached))
    as [[result|e] w2] eqn:Hrun.
  - intro Herr.
    assert (Hin : Props.in_band prov d result id nm).
    { unfold Props.in_band.
      destruct (provider_eqb prov NEBIUS) eqn:Hp; rewrite Hd.
      - apply dispatch_keeps, in_or_app. right.
        now apply error_result_message.
      - apply dispatch_keeps, in_or_app. right.
        rewrite error_result_block by assumption. now left. }
    split; [exact Hin|]. intro Hraised.
    cbn [sampling_loop]. rewrite Hpol, Hcall, Hparams.
    fold prov shown d. rewrite Hraised.
    unfold Props.appended, Props.in_band in *.
    destruct (provider_eqb prov NEBIUS).
    + destruct (nebius_tool_messages World d); [contradiction|].
      reflexivity.
    + destruct (tool_result_content World d); [contradiction|].
      reflexivity.
  - cbn [sampling_loop]. rewrite Hpol, Hcall, Hparams.
    fold prov shown d. rewrite Hd. reflexivity.
Qed.

(** The loop only appends to the conversation the policies left. *)
Lemma loop_extends_unmarked fuel : forall settings messages only_n w log,
  provider settings = ANTHROPIC ->
  exists appended,
    Breakpoints.unmarked
      (final_messages
         (outcome World (loop fuel settings messages only_n w log)))
    = Breakpoints.unmarked messages ++ appended.
Proof.
  induction fuel as [|fuel IH]; intros settings messages only_n w log Hp.
  - exists []. simpl. now rewrite app_nil_r.
  - cbn [sampling_loop].
    destruct (apply_policies settings messages only_n)
      as [[[messages' only_n'] caching] e] eqn:Hpol.
    destruct (apply_policies_effect _ _ _ _ _ _ _ Hpol) as (_ & A & _).
    destruct (A Hp) as (U & _ & _). rewrite <- U.
    assert (Here : forall extra,
      exists appended,
        Breakpoints.unmarked (messages' ++ extra)
        = Breakpoints.unmarked messages' ++ appended).
    { intro extra. exists (Breakpoints.unmarked extra).
      unfold Breakpoints.unmarked. apply map_app. }
    assert (Next : forall extra only_n2 w2 log2,
      exists appended,
        Breakpoints.unmarked
          (final_messages
             (outcome World
                (loop fuel settings (messages' ++ extra) only_n2 w2 log2)))
        = Breakpoints.unmarked messages' ++ appended).
    { intros extra only_n2 w2 log2.
      destruct (IH settings (messages' ++ extra) only_n2 w2 log2 Hp)
        as [appended E].
      exists (Breakpoints.unmarked extra ++ appended). rewrite E.
      unfold Breakpoints.unmarked. now rewrite map_app, app_assoc. }
    destruct e as [e|].
    { simpl. destruct (Here []) as [a E]. rewrite app_nil_r in E. eauto. }
    destruct (call settings caching messages' w) as [[reply|e] w1].
    2:{ simpl. destruct (Here []) as [a E]. rewrite app_nil_r in E. eauto. }
    destruct (reply_params reply) as [params|e].
    2:{ simpl. destruct (Here []) as [a E]. rewrite app_nil_r in E. eauto. }
    destruct (raised World (run_tools (provider settings) params [] [] w1
                              (log ++ [success_event reply]))) as [e|].
    { simpl. apply Here. }
    rewrite Hp. simpl provider_eqb. cbv iota.
    destruct (tool_result_content World
                (run_tools ANTHROPIC params [] [] w1
                   (log ++ [success_event reply]))) as [|b bs].
    + simpl. apply Here.
    + rewrite <- app_assoc. apply Next.
Qed.

(** With the Anthropic provider the policies enable prompt caching, set
    the image retention to zero and change breakpoint markers only; the
    conversation the loop leaves, however it ends, is the initial one up to
    markers followed by what was appended. *)
Lemma anthropic_loop_keeps_conversation
        (settings : Settings) (messages : list Message) (only_n : option Z)
        (w : World) (log : list Event) (fuel : nat) :
  provider settings = ANTHROPIC ->
  (exists messages' e,
     apply_policies settings messages only_n
       = (messages', Some 0%Z, true, e) /\
     Breakpoints.unmarked messages' = Breakpoints.unmarked messages /\
     Filter.images messages' = Filter.images messages) /\
  let final :=
    final_messages (outcome World (loop fuel settings messages only_n w log)) in
  (exists appended,
     Breakpoints.unmarked final = Breakpoints.unmarked messages ++ appended) /\
  (exists later,
     Filter.images final = Filter.images messages ++ later).
Proof.
  intro Hp. split.
  - destruct (apply_policies settings messages only_n)
      as [[[messages' only_n'] caching] e] eqn:Hpol.
    destruct (apply_policies_effect _ _ _ _ _ _ _ Hpol) as (_ & A & _).
    destruct (A Hp) as (U & -> & ->).
    exists messages', e. split; [reflexivity|]. split; [exact U|].
    now rewrite <- images_unmarked, U, images_unmarked.
  - intro final.
    destruct (loop_extends_unmarked fuel settings messages only_n w log Hp)
      as [appended E].
    fold final in E. split; [now exists appended|].
    exists (Filter.images appended).
    now rewrite <- images_unmarked, E, images_app, images_unmarked.
Qed.

End LoopFacts.

(** ** The properties of the loop at concrete sessions *)

(** C4, as stated, fails: with the Anthropic provider the loop that ends
    at once returns the first message with a breakpoint it did not have. *)
Lemma first_iteration_changes_a_message :
  outcome unit
    (sampling_loop unit "" None Fixture.replies_text Fixture.completes_text
       Fixture.tool_succeeds 1 (Fixture.settings ANTHROPIC)
       [Fixture.user_turn "hi"] None tt [])
  = Returned
      [message "user" (Blocks [mkBlock (Text "hi") (Some "ephemeral")]);
       Fixture.assistant_turn "hello"]
  /\ message "user" (Blocks [mkBlock (Text "hi") (Some "ephemeral")])
     <> Fixture.user_turn "hi".
Proof. split; [reflexivity | discriminate]. Qed.

(** C5, as stated, fails: with the Anthropic provider the conversation
    returned after a failed call carries a breakpoint it did not have at the
    start of the iteration. *)
Lemma failed_call_returns_marked_conversation :
  outcome unit
    (sampling_loop unit "" None Fixture.is_overloaded Fixture.completes_text
       Fixture.tool_succeeds 1 (Fixture.settings ANTHROPIC)
       [Fixture.user_turn "hi"] None tt [])
  = Returned [message "user" (Blocks [mkBlock (Text "hi") (Some "ephemeral")])]
  /\ [message "user" (Blocks [mkBlock (Text "hi") (Some "ephemeral")])]
     <> [Fixture.user_turn "hi"].
Proof. split; [reflexivity | discriminate]. Qed.

(** C8, as stated, fails: an exception of the tool executor leaves the
    loop; no tool result is appended and no further iteration runs. *)
Lemma tool_exception_leaves_the_loop :
  outcome unit
    (sampling_loop unit "" None Fixture.replies_tool_call
       Fixture.completes_text Fixture.tool_raises 5 (Fixture.settings BEDROCK)
       [Fixture.user_turn "list the files"] None tt [])
  = Propagated (OtherException "boom")
      [Fixture.user_turn "list the files";
       message "assistant"
         (Blocks [block (Text "listing");
                  block (ToolUse "toolu_1" "bash"
                                 (JObj [("command", JStr "ls")]))])].
Proof. reflexivity. Qed.


Lemma reply_without_tool_call_ends_loop_witness :
  outcome unit
    (sampling_loop unit "" None Fixture.replies_text Fixture.completes_text
       Fixture.tool_succeeds 1 (Fixture.settings NEBIUS)
       [Fixture.user_turn "hi"] None tt [])
  = Returned [Fixture.user_turn "hi"; Fixture.assistant_turn "hello"].
Proof.
  destruct (reply_without_tool_call_ends_loop
              unit "" None Fixture.replies_text Fixture.completes_text
              Fixture.tool_succeeds (Fixture.settings NEBIUS)
              [Fixture.user_turn "hi"] [Fixture.user_turn "hi"] None None
              false tt tt []
              (NebiusReply
                 (mkChatCompletion [mkChatMessage (Some "hello") None]))
              [block (Text "hello")] 0
              eq_refl eq_refl eq_refl eq_refl) as [H _].
  exact H.
Defined.

Lemma failed_call_appends_nothing_witness :
  sampling_loop unit "" None Fixture.is_overloaded Fixture.completes_text
    Fixture.tool_succeeds 1 (Fixture.settings BEDROCK)
    [Fixture.user_turn "hi"] None tt []
  = mkRun unit (Returned [Fixture.user_turn "hi"]) tt
      [api_response_callback true ErrorResponse
         (Some (APIStatusError "overloaded"))].
Proof.
  destruct (failed_call_appends_nothing
              unit "" None Fixture.is_overloaded Fixture.completes_text
              Fixture.tool_succeeds (Fixture.settings BEDROCK)
              [Fixture.user_turn "hi"] [Fixture.user_turn "hi"] None None
              false tt tt [] (APIStatusError "overloaded") 0
              eq_refl eq_refl) as [H _].
  exact H.
Defined.

Lemma tool_error_result_is_appended_witness :
  sampling_loop unit "" None Fixture.replies_tool_call Fixture.completes_text
    Fixture.tool_fails 1 (Fixture.settings BEDROCK)
    [Fixture.user_turn "list the files"] None tt []
  = mkRun unit
      (Running
         [Fixture.user_turn "list the files";
          message "assistant"
            (Blocks [block (Text "listing");
                     block (ToolUse "toolu_1" "bash"
                                    (JObj [("command", JStr "ls")]))]);
          message "user"
            (Blocks [block (ToolResultBlock "toolu_1"
                              (StrContent "ls: not found") true)])])
      tt
      [api_response_callback true
         (HttpResponse
            (mkBetaMessage
               [BetaTextBlock "listing";
                BetaOtherBlock
                  (ToolUse "toolu_1" "bash" (JObj [("command", JStr "ls")]))]))
         None;
       output_callback (block (Text "listing"));
       output_callback
         (block (ToolUse "toolu_1" "bash" (JObj [("command", JStr "ls")])));
       tool_output_callback
         (mkToolResult None (Some "ls: not found") None None) "toolu_1"].
Proof.
  pose proof (tool_error_result_is_appended
                unit "" None Fixture.replies_tool_call Fixture.completes_text
                Fixture.tool_fails (Fixture.settings BEDROCK)
                [Fixture.user_turn "list the files"]
                [Fixture.user_turn "list the files"] None None false tt tt []
                (AnthropicReply
                   (mkBetaMessage
                      [BetaTextBlock "listing";
                       BetaOtherBlock
                         (ToolUse "toolu_1" "bash"
                                  (JObj [("command", JStr "ls")]))]))
                [block (Text "listing")] []
                (block (ToolUse "toolu_1" "bash"
                                (JObj [("command", JStr "ls")])))
                "toolu_1" "bash" (JObj [("command", JStr "ls")]) 0
                eq_refl eq_refl eq_refl eq_refl eq_refl) as H.
  exact (proj2 (H eq_refl) eq_refl).
Defined.

(** The guard is on the provider, not on the wire protocol: with Bedrock,
    which is called like Anthropic, caching stays off and the policy
    trims. *)
Example bedrock_trims_images :
  exists messages',
    apply_policies (Fixture.settings BEDROCK) Fixture.seven_images (Some 1%Z)
    = (messages', Some 1%Z, false, None) /\
    Filter.images messages' = [Fixture.screenshot "s7"].
Proof. eexists. split; reflexivity. Qed.

(** ** The requests the loop sends to the Anthropic-style client *)

Section RequestFacts.

Variable World : Type.
Variable SYSTEM_PROMPT : string.
Variable beta_flag : option string.
Variable anthropic_create : AnthropicRequest -> World -> Result BetaMessage * World.
Variable openai_create : OpenAIRequest -> World -> Result ChatCompletion * World.
Variable tool_run : string -> json -> World -> Result ToolResult * World.

Local Abbreviation Recorded := (Recording.Recorded World).
Local Abbreviation sent := (Recording.sent World).
Local Abbreviation recorded_loop :=
  (Recording.loop World SYSTEM_PROMPT beta_flag anthropic_create openai_create
                  tool_run).
Local Abbreviation recorded_tools :=
  (dispatch Recorded (Recording.run World tool_run)).

(** Running the tools sends no request. *)
Lemma dispatch_keeps_sent prov params : forall nebius results (s : Recorded) log,
  sent (dispatch_world Recorded
          (recorded_tools prov params nebius results s log)) = sent s.
Proof.
  induction params as [|b rest IH]; intros nebius results s log;
    [reflexivity|].
  cbn [dispatch]. destruct (body b) as [| |id nm input| | |]; try apply IH.
  unfold Recording.run at 1.
  destruct (tool_run nm input (fst s)) as [[result|e] w1]; [|reflexivity].
  destruct (provider_eqb prov NEBIUS); now rewrite IH.
Qed.

(** The requests of a run: nothing noted before is lost, and with the
    Anthropic provider every request has caching enabled and holds the
    images the conversation started with. *)
Lemma requests_sent fuel :
  forall settings messages only_n (s : Recorded) log base,
  exists more,
    sent (world Recorded (recorded_loop fuel settings messages only_n s log))
    = sent s ++ more /\
    (provider settings = ANTHROPIC ->
     (exists later, Filter.images messages = base ++ later) ->
     Forall (fun request =>
               Recording.cached request /\ Recording.holds base request)
            more).
Proof.
  unfold Recording.loop.
  induction fuel as [|fuel IH]; intros settings messages only_n s log base.
  { exists []. simpl. split; [now rewrite app_nil_r | constructor]. }
  cbn [sampling_loop].
  destruct (apply_policies settings messages only_n)
    as [[[messages' only_n'] caching] e] eqn:Hpol.
  destruct (apply_policies_effect _ _ _ _ _ _ _ Hpol) as (_ & A & _).
  assert (Himages : provider settings = ANTHROPIC ->
                    Filter.images messages' = Filter.images messages).
  { intro Hp. destruct (A Hp) as (U & _).
    now rewrite <- images_unmarked, U, images_unmarked. }
  assert (Stop : forall (s1 : Recorded) pre,
    sent s1 = sent s ++ pre ->
    (provider settings = ANTHROPIC ->
     Forall (fun request =>
               Recording.cached request /\ Recording.holds base request)
            pre) ->
    exists more,
      sent s1 = sent s ++ more /\
      (provider settings = ANTHROPIC ->
       (exists later, Filter.images messages = base ++ later) ->
       Forall (fun request =>
                 Recording.cached request /\ Recording.holds base request)
              more)).
  { intros s1 pre E G. exists pre. split; [exact E | intros Hp _; auto]. }
  assert (Next : forall (s1 : Recorded) pre extra only_n2 log2,
    sent s1 = sent s ++ pre ->
    (provider settings = ANTHROPIC ->
     Forall (fun request =>
               Recording.cached request /\ Recording.holds base request)
            pre) ->
    exists more,
      sent (world Recorded
              (sampling_loop Recorded SYSTEM_PROMPT beta_flag
                 (Recording.create World anthropic_create)
                 (Recording.complete World openai_create)
                 (Recording.run World tool_run)
                 fuel settings (messages' ++ extra) only_n2 s1 log2))
      = sent s ++ more /\
      (provider settings = ANTHROPIC ->
       (exists later, Filter.images messages = base ++ later) ->
       Forall (fun request =>
                 Recording.cached request /\ Recording.holds base request)
              more)).
  { intros s1 pre extra only_n2 log2 E G.
    destruct (IH settings (messages' ++ extra) only_n2 s1 log2 base)
      as (more & E' & G').
    exists (pre ++ more). rewrite E', E, app_assoc. split; [reflexivity|].
    intros Hp [later Hl]. apply Forall_app. split; [auto|].
    apply G'; [exact Hp|]. exists (later ++ Filter.images extra).
    now rewrite images_app, (Himages Hp), Hl, app_assoc. }
  destruct e as [e|].
  { apply (Stop s []); [simpl; now rewrite app_nil_r | constructor]. }
  unfold call_api.
  destruct (provider_eqb (provider settings) NEBIUS) eqn:Hn.
  - assert (Hne : provider settings = ANTHROPIC ->
                  Forall (fun request =>
                            Recording.cached request /\
                            Recording.holds base request) []) by constructor.
    unfold Recording.complete at 1.
    destruct (openai_create _ (fst s)) as [[response|e] w1].
    2:{ apply (Stop _ []); [simpl; now rewrite app_nil_r | exact Hne]. }
    cbn [reply_params].
    destruct (_convert_openai_response_to_anthropic response) as [params|e].
    2:{ apply (Stop _ []); [simpl; now rewrite app_nil_r | exact Hne]. }
    assert (D : sent (dispatch_world Recorded
                        (recorded_tools (provider settings) params [] []
                           (w1, snd s)
                           (log ++ [success_event (NebiusReply response)])))
                = sent s ++ []).
    { rewrite dispatch_keeps_sent. simpl. now rewrite app_nil_r. }
    cbv zeta.
    destruct (raised Recorded _) as [e|].
    { apply (Stop _ []); [exact D | exact Hne]. }
    destruct (nebius_tool_messages Recorded _) as [|m ms].
    + apply (Stop _ []); [exact D | exact Hne].
    + rewrite <- app_assoc. apply (Next _ []); [exact D | exact Hne].
  - unfold Recording.create at 1.
    match goal with
    | |- context [anthropic_create ?r (fst s)] => set (request := r)
    end.
    assert (Good : provider settings = ANTHROPIC ->
                   (exists later, Filter.images messages = base ++ later) ->
                   Recording.cached request /\ Recording.holds base request).
    { intros Hp [later Hl]. destruct (A Hp) as (_ & _ & ->).
      split; [split; [reflexivity|]|].
      - simpl. apply in_or_app. right. now left.
      - exists later. simpl. now rewrite (Himages Hp). }
    destruct (anthropic_create request (fst s)) as [[response|e] w1].
    2:{ exists [request]. split; [reflexivity|].
        intros Hp Hl. constructor; [now apply Good | constructor]. }
    cbn [reply_params].
    assert (D : sent (dispatch_world Recorded
                        (recorded_tools (provider settings)
                           (_response_to_params response) [] []
                           (w1, snd s ++ [request])
                           (log ++ [success_event (AnthropicReply response)])))
                = sent s ++ [request]).
    { now rewrite dispatch_keeps_sent. }
    cbv zeta.
    destruct (raised Recorded _) as [e|].
    { exists [request]. split; [exact D|].
      intros Hp Hl. constructor; [now apply Good | constructor]. }
    destruct (tool_result_content Recorded _) as [|b bs].
    + exists [request]. split; [exact D|].
      intros Hp Hl. constructor; [now apply Good | constructor].
    + rewrite <- app_assoc.
      destruct (IH settings
                  (messages' ++
                   [message "assistant"
                      (Blocks (_response_to_params response))] ++
                   [message "user" (Blocks (b :: bs))])
                  only_n'
                  (dispatch_world Recorded
                     (recorded_tools (provider settings)
                        (_response_to_params response) [] []
                        (w1, snd s ++ [request])
                        (log ++ [success_event (AnthropicReply response)])))
                  (dispatch_trace Recorded
                     (recorded_tools (provider settings)
                        (_response_to_params response) [] []
                        (w1, snd s ++ [request])
                        (log ++ [success_event (AnthropicReply response)])))
                  base) as (more & E' & G').
      exists (request :: more). rewrite E', D, <- app_assoc.
      split; [reflexivity|].
      intros Hp [later Hl]. constructor; [apply Good; eauto|].
      apply G'; [exact Hp|].
      eexists. rewrite images_app, (Himages Hp), Hl, <- app_assoc.
      reflexivity.
Qed.

(** An iteration whose policies raise nothing sends its request to the
    Anthropic-style client unless the provider is Nebius. *)
Lemma first_request fuel settings messages only_n (s : Recorded) log
      messages' only_n' caching :
  provider_eqb (provider settings) NEBIUS = false ->
  apply_policies settings messages only_n
    = (messages', only_n', caching, None) ->
  exists rest,
    sent (world Recorded
            (recorded_loop (S fuel) settings messages only_n s log))
    = sent s ++
      mkAnthropicRequest (max_tokens settings) messages' (model settings)
        (system_text SYSTEM_PROMPT settings) caching
        (initial_betas beta_flag settings ++
         (if caching then [PROMPT_CACHING_BETA_FLAG] else []))
        (if truthy_int (thinking_budget settings)
         then thinking_budget settings else None)
      :: rest.
Proof.
  intros Hn Hpol. unfold Recording.loop. cbn [sampling_loop].
  rewrite Hpol. unfold call_api. rewrite Hn.
  unfold Recording.create at 1.
  match goal with
  | |- context [anthropic_create ?r (fst s)] => set (request := r)
  end.
  destruct (anthropic_create request (fst s)) as [[response|e] w1].
  2:{ now exists []. }
  cbn [reply_params].
  assert (D : sent (dispatch_world Recorded
                      (recorded_tools (provider settings)
                         (_response_to_params response) [] []
                         (w1, snd s ++ [request])
                         (log ++ [success_event (AnthropicReply response)])))
              = sent s ++ [request]).
  { now rewrite dispatch_keeps_sent. }
  cbv zeta.
  destruct (raised Recorded _) as [e|]; [now exists []|].
  destruct (tool_result_content Recorded _) as [|b bs]; [now exists []|].
  match goal with
  | |- context [sampling_loop _ _ _ _ _ _ fuel settings ?m ?n ?s1 ?l] =>
      destruct (requests_sent fuel settings m n s1 l []) as (more & E & _)
  end.
  unfold Recording.loop in E. exists more.
  now rewrite E, D, <- app_assoc.
Qed.

(** C9.  With the provider ANTHROPIC the policies enable prompt caching
    and set the image retention to zero, whatever the caller's
    [only_n_most_recent_images]: an iteration that gets as far as the call
    sends the conversation with its breakpoints set, the caching beta flag
    and cache_control on the system block; every request the loop sends has
    caching enabled and holds every image of the initial conversation, and
    so does the conversation the loop leaves, however it ends.  With the
    providers BEDROCK and VERTEX, which are called through the same client
    interface, caching stays off and a retention count that is not zero is
    applied: the request holds the trimmed conversation, without beta flag
    for caching and without cache_control. *)
Theorem anthropic_requests_are_cached_and_untrimmed
        (settings : Settings) (messages : list Message) (only_n : option Z)
        (w : World) (log : list Event) (fuel : nat) :
  let run := recorded_loop fuel settings messages only_n (w, []) log in
  let thinking := if truthy_int (thinking_budget settings)
                  then thinking_budget settings else None in
  (provider settings = ANTHROPIC ->
   (exists marked e,
      _inject_prompt_caching messages = (marked, e) /\
      apply_policies settings messages only_n = (marked, Some 0%Z, true, e) /\
      Breakpoints.unmarked marked = Breakpoints.unmarked messages /\
      Filter.images marked = Filter.images messages /\
      (fuel <> 0 -> e = None ->
       exists rest,
         sent (world Recorded run) =
         mkAnthropicRequest (max_tokens settings) marked (model settings)
           (system_text SYSTEM_PROMPT settings) true
           (initial_betas beta_flag settings ++ [PROMPT_CACHING_BETA_FLAG])
           thinking
         :: rest)) /\
   (forall request,
      In request (sent (world Recorded run)) ->
      Recording.cached request /\
      Recording.holds (Filter.images messages) request) /\
   (exists appended,
      Breakpoints.unmarked (final_messages (outcome Recorded run))
      = Breakpoints.unmarked messages ++ appended) /\
   (exists later,
      Filter.images (final_messages (outcome Recorded run))
      = Filter.images messages ++ later)) /\
  (provider settings = BEDROCK \/ provider settings = VERTEX ->
   fuel <> 0 -> truthy_int only_n = true ->
   exists trimmed rest,
     _maybe_filter_to_n_most_recent_images messages only_n (or_zero only_n)
     = Ok trimmed /\
     sent (world Recorded run) =
     mkAnthropicRequest (max_tokens settings) trimmed (model settings)
       (system_text SYSTEM_PROMPT settings) false
       (initial_betas beta_flag settings) thinking
     :: rest).
Proof.
  intros run thinking. split.
  - intro Hp.
    destruct (_inject_prompt_caching messages) as [marked e] eqn:E.
    assert (Hpol : apply_policies settings messages only_n
                   = (marked, Some 0%Z, true, e)).
    { unfold apply_policies. rewrite Hp. simpl provider_eqb. cbv iota.
      rewrite E. now destruct e. }
    destruct (inject_effect messages marked e E) as [_ U].
    split; [|split; [|split]].
    + exists marked, e. split; [reflexivity|]. split; [exact Hpol|].
      split; [exact U|].
      split; [now rewrite <- images_unmarked, U, images_unmarked|].
      intros Hf ->. destruct fuel as [|fuel]; [contradiction|].
      assert (Hn : provider_eqb (provider settings) NEBIUS = false)
        by now rewrite Hp.
      destruct (first_request fuel settings messages only_n (w, []) log
                  marked (Some 0%Z) true Hn Hpol) as [rest R].
      exists rest. exact R.
    + intros request Hin.
      destruct (requests_sent fuel settings messages only_n (w, []) log
                  (Filter.images messages)) as (more & S & G).
      fold run in S. simpl in S. rewrite S in Hin.
      assert (F := G Hp (ex_intro _ [] (eq_sym (app_nil_r _)))).
      rewrite Forall_forall in F. exact (F request Hin).
    + destruct (anthropic_loop_keeps_conversation
                  Recorded SYSTEM_PROMPT beta_flag
                  (Recording.create World anthropic_create)
                  (Recording.complete World openai_create)
                  (Recording.run World tool_run)
                  settings messages only_n (w, []) log fuel Hp)
        as (_ & H & _).
      exact H.
    + destruct (anthropic_loop_keeps_conversation
                  Recorded SYSTEM_PROMPT beta_flag
                  (Recording.create World anthropic_create)
                  (Recording.complete World openai_create)
                  (Recording.run World tool_run)
                  settings messages only_n (w, []) log fuel Hp)
        as (_ & _ & H).
      exact H.
  - intros Hp Hf T. destruct fuel as [|fuel]; [contradiction|].
    destruct only_n as [n|]; [|discriminate T].
    assert (Hz : (n =? 0)%Z = false).
    { simpl in T. now destruct (n =? 0)%Z. }
    assert (Hn : provider_eqb (provider settings) NEBIUS = false)
      by (destruct Hp as [-> | ->]; reflexivity).
    assert (Ha : provider_eqb (provider settings) ANTHROPIC = false)
      by (destruct Hp as [-> | ->]; reflexivity).
    destruct (_maybe_filter_to_n_most_recent_images messages (Some n)
                (or_zero (Some n))) as [trimmed|e] eqn:F.
    2:{ unfold _maybe_filter_to_n_most_recent_images in F. simpl in F.
        rewrite Hz in F. discriminate F. }
    assert (Hpol : apply_policies settings messages (Some n)
                   = (trimmed, Some n, false, None)).
    { unfold apply_policies. rewrite Ha. cbv iota beta zeta. rewrite T.
      now rewrite F. }
    destruct (first_request fuel settings messages (Some n) (w, []) log
                trimmed (Some n) false Hn Hpol) as [rest R].
    exists trimmed, rest. split; [reflexivity|].
    rewrite app_nil_r in R. exact R.
Qed.

End RequestFacts.

(** C9, as stated, fails: Bedrock is called through the Anthropic-style
    client, and with it the request is sent without prompt caching and the
    caller's retention count of one is applied; of seven images one is
    left, in the request and in the conversation returned. *)
Lemma bedrock_request_is_uncached_and_trimmed :
  let run :=
    Recording.loop unit "" None Fixture.replies_text Fixture.completes_text
      Fixture.tool_succeeds 1 (Fixture.settings BEDROCK) Fixture.seven_images
      (Some 1%Z) (tt, []) [] in
  List.length (Filter.images Fixture.seven_images) = 7 /\
  (exists request,
     Recording.sent unit (world _ run) = [request] /\
     request_system_cached request = false /\
     request_betas request = [] /\
     Filter.images (request_messages request) = [Fixture.screenshot "s7"]) /\
  (exists final,
     outcome _ run = Returned final /\
     Filter.images final = [Fixture.screenshot "s7"]).
Proof.
  split; [reflexivity|]. split.
  - eexists. split; [reflexivity|]. repeat split.
  - eexists. split; reflexivity.
Qed.

Lemma anthropic_requests_are_cached_and_untrimmed_witness :
  (let run :=
     Recording.loop unit "" None Fixture.replies_text Fixture.completes_text
       Fixture.tool_succeeds 3 (Fixture.settings ANTHROPIC)
       Fixture.seven_images (Some 1%Z) (tt, []) [] in
   (exists rest,
      Recording.sent unit (world _ run) =
      mkAnthropicRequest 4096%Z (fst (_inject_prompt_caching Fixture.seven_images))
        "model" "" true [PROMPT_CACHING_BETA_FLAG] None
      :: rest) /\
   (forall request,
      In request (Recording.sent unit (world _ run)) ->
      Recording.cached request /\
      Recording.holds (Filter.images Fixture.seven_images) request) /\
   (exists later,
      Filter.images (final_messages (outcome _ run))
      = Filter.images Fixture.seven_images ++ later)) /\
  (let run :=
     Recording.loop unit "" None Fixture.replies_text Fixture.completes_text
       Fixture.tool_succeeds 3 (Fixture.settings VERTEX)
       Fixture.seven_images (Some 1%Z) (tt, []) [] in
   exists trimmed rest,
     _maybe_filter_to_n_most_recent_images Fixture.seven_images (Some 1%Z) 1%Z
     = Ok trimmed /\
     Recording.sent unit (world _ run) =
     mkAnthropicRequest 4096%Z trimmed "model" "" false [] None :: rest).
Proof.
  split.
  - destruct (anthropic_requests_are_cached_and_untrimmed
                unit "" None Fixture.replies_text Fixture.completes_text
                Fixture.tool_succeeds (Fixture.settings ANTHROPIC)
                Fixture.seven_images (Some 1%Z) tt [] 3)
      as [[(marked & e & Hi & _ & _ & _ & First) [All [_ Final]]] _];
      [reflexivity|].
    split; [|split; [exact All | exact Final]].
    pose proof (f_equal fst Hi) as Hm. pose proof (f_equal snd Hi) as He.
    cbn [fst] in Hm. vm_compute in He. subst marked.
    apply First; [discriminate | now symmetry].
  - destruct (anthropic_requests_are_cached_and_untrimmed
                unit "" None Fixture.replies_text Fixture.completes_text
                Fixture.tool_succeeds (Fixture.settings VERTEX)
                Fixture.seven_images (Some 1%Z) tt [] 3) as [_ B].
    exact (B (or_intror eq_refl) (fun H => O_S _ (eq_sym H)) eq_refl).
Defined.

(** * Further properties of the code *)

(** ** The translation to wire messages, message by message *)

Section WireFacts.

Import Convert Wire.

Lemma concat_text_app a b :
  concat_text (a ++ b) = (concat_text a ++ concat_text b)%string.
Proof.
  induction a as [|x a IH]; simpl; [reflexivity|].
  now rewrite IH, append_assoc.
Qed.

Lemma result_items_described items :
  result_items items [] "" =
  (flat_map item_image items, concat_text (map item_text items)).
Proof.
  induction items as [|item rest IH]; [reflexivity|].
  simpl. destruct item as [t|mt d|j]; simpl.
  - rewrite result_items_acc, IH. reflexivity.
  - rewrite result_items_acc, IH. simpl. reflexivity.
  - exact IH.
Qed.

Lemma tool_result_text_described c :
  Props.tool_result_text c = result_text c.
Proof.
  destruct c as [|s|items]; try reflexivity.
  simpl. now rewrite result_items_described.
Qed.

Lemma user_blocks_described blocks :
  user_blocks blocks [] [] [] =
  (flat_map block_images blocks, flat_map block_part blocks,
   flat_map block_tool_message blocks).
Proof.
  induction blocks as [|b rest IH]; [reflexivity|].
  simpl. unfold block_images, block_part, block_tool_message.
  destruct (body b) as [t|mt d|id nm input|id c e|th sg|url]; simpl;
    try exact IH.
  - rewrite user_blocks_acc, IH. reflexivity.
  - rewrite user_blocks_acc, IH. reflexivity.
  - destruct c as [|s|items]; simpl.
    + rewrite user_blocks_acc, IH. reflexivity.
    + rewrite user_blocks_acc, IH. reflexivity.
    + rewrite result_items_described, user_blocks_acc, IH. simpl.
      now rewrite ?app_nil_r.
Qed.

Lemma user_message_described blocks :
  user_message blocks [] = user_wire blocks.
Proof.
  unfold user_message, user_wire. rewrite user_blocks_described.
  unfold content_message.
  destruct (flat_map block_part blocks) as [|p1 [|p2 ps]];
    simpl; rewrite <- ?app_assoc, ?app_nil_r; reflexivity.
Qed.

(** X1.  A message whose content is a string is translated into one wire
    message with the same role and text and no other key; so a
    conversation of such messages is translated one to one, in order. *)
Theorem string_messages_translate_one_to_one (messages : list Message) :
  forallb is_str messages = true ->
  _convert_anthropic_messages_to_openai messages = map str_wire messages /\
  List.length (_convert_anthropic_messages_to_openai messages)
    = List.length messages /\
  map wire_role (_convert_anthropic_messages_to_openai messages)
    = map role messages /\
  map wire_tool_call_id (_convert_anthropic_messages_to_openai messages)
    = map (fun _ => None) messages.
Proof.
  intro H.
  assert (E : _convert_anthropic_messages_to_openai messages
              = map str_wire messages).
  { rewrite convert_flat_map.
    induction messages as [|m rest IH]; [reflexivity|].
    simpl in H. apply andb_prop in H as [Hm Hrest].
    simpl. rewrite (IH Hrest). unfold is_str in Hm. unfold step, str_wire.
    destruct (content m); [reflexivity | discriminate]. }
  rewrite E. split; [reflexivity|]. split; [apply length_map|].
  rewrite !map_map. split; apply map_ext_in; intros m Hin;
    unfold str_wire; destruct (content m); reflexivity.
Qed.

Lemma string_messages_translate_one_to_one_witness :
  _convert_anthropic_messages_to_openai
    [message "user" (Str "open the browser");
     mkMessage "tool" (Str "done") (Some "call_1") (Some "computer")]
  = [mkWire "user" (Some (WStr "open the browser")) None None;
     mkWire "tool" (Some (WStr "done")) None None].
Proof.
  destruct (string_messages_translate_one_to_one
              [message "user" (Str "open the browser");
               mkMessage "tool" (Str "done") (Some "call_1") (Some "computer")]
              eq_refl) as [H _].
  exact H.
Defined.

(** X2.  A user message with list content is translated into: the images of
    all its tool results, in order; then one tool message for each of its
    tool results, in order, with the id and the text of the result; then, if
    it has text or image blocks, one user message with them.  Nothing else
    is emitted for it, wherever it stands in the conversation. *)
Theorem user_message_translation
        (before after : list Message) (m : Message) (blocks : list Block) :
  role m = "user" ->
  content m = Blocks blocks ->
  _convert_anthropic_messages_to_openai (before ++ m :: after) =
  _convert_anthropic_messages_to_openai before ++
  (flat_map block_images blocks ++
   flat_map block_tool_message blocks ++
   content_message (flat_map block_part blocks)) ++
  _convert_anthropic_messages_to_openai after.
Proof.
  intros Hr Hc.
  rewrite convert_app, convert_cons, (step_user m blocks Hr Hc).
  now rewrite user_message_described.
Qed.

Lemma user_message_translation_witness :
  _convert_anthropic_messages_to_openai
    ([] ++
     message "user"
       (Blocks [block (ToolResultBlock "call_1"
                         (ListContent [RText "a"; RImage "image/png" "s1";
                                       RText "b"]) false);
                block (Text "next");
                block (ToolResultBlock "call_2" (StrContent "ok") false)])
     :: [])
  = [wire_image_message "image/png" "s1";
     wire_tool_message "call_1" "ab";
     wire_tool_message "call_2" "ok";
     mkWire "user" (Some (WStr "next")) None None].
Proof.
  rewrite (user_message_translation [] []
             (message "user"
                (Blocks [block (ToolResultBlock "call_1"
                                  (ListContent [RText "a";
                                                RImage "image/png" "s1";
                                                RText "b"]) false);
                         block (Text "next");
                         block (ToolResultBlock "call_2" (StrContent "ok")
                                                false)]))
             _ eq_refl eq_refl).
  reflexivity.
Defined.

(** X3.  A user message whose only text or image block is an image is
    translated with the empty string as content: the image is not sent.
    With two or more such blocks the parts are sent as a list, in order. *)
Theorem lone_image_block_is_not_sent
        (m : Message) (blocks : list Block) (mt d : string) :
  role m = "user" ->
  content m = Blocks blocks ->
  flat_map block_part blocks = [PImageUrl (data_url mt d)] ->
  flat_map block_tool_message blocks = [] ->
  _convert_anthropic_messages_to_openai [m]
  = [mkWire "user" (Some (WStr "")) None None].
Proof.
  intros Hr Hc Hp Ht.
  rewrite convert_cons, (step_user m blocks Hr Hc), user_message_described.
  unfold user_wire. rewrite Hp, Ht.
  assert (Hi : flat_map block_images blocks = []).
  { clear Hp Hc. induction blocks as [|b rest IH]; [reflexivity|].
    simpl in *. unfold block_images, block_tool_message in *.
    destruct (body b); try (apply IH; assumption); discriminate. }
  now rewrite Hi.
Qed.

Lemma lone_image_block_is_not_sent_witness :
  _convert_anthropic_messages_to_openai
    [message "user" (Blocks [block (Image "image/png" "s1")])]
  = [mkWire "user" (Some (WStr "")) None None].
Proof.
  apply (lone_image_block_is_not_sent
           (message "user" (Blocks [block (Image "image/png" "s1")]))
           [block (Image "image/png" "s1")] "image/png" "s1");
    reflexivity.
Defined.

Lemma assistant_blocks_acc blocks : forall text calls,
  assistant_blocks blocks text calls =
  ((text ++ concat_text (map block_text blocks))%string,
   calls ++ flat_map block_call blocks).
Proof.
  induction blocks as [|b rest IH]; intros text calls; simpl.
  - now rewrite append_nil_r, app_nil_r.
  - unfold block_text at 1, block_call at 1.
    destruct (body b) as [t|mt d|id nm input|id c e|th sg|url]; simpl;
      rewrite IH; try reflexivity.
    + now rewrite append_assoc.
    + now rewrite <- app_assoc.
Qed.

Lemma assistant_message_described blocks :
  assistant_message blocks = assistant_wire blocks.
Proof.
  unfold assistant_message, assistant_wire.
  now rewrite assistant_blocks_acc.
Qed.

(** X4.  An assistant message with list content is translated into exactly
    one wire message: its content is the concatenation of the text blocks,
    and the key is absent when that text is empty; its tool calls are the
    tool_use blocks, in order, with their id, name and serialised input, and
    the key is absent when there is none.  Blocks of other types are
    dropped. *)
Theorem assistant_message_translation
        (before after : list Message) (m : Message) (blocks : list Block) :
  role m = "assistant" ->
  content m = Blocks blocks ->
  _convert_anthropic_messages_to_openai (before ++ m :: after) =
  _convert_anthropic_messages_to_openai before ++
  assistant_wire blocks :: _convert_anthropic_messages_to_openai after.
Proof.
  intros Hr Hc. rewrite convert_app, convert_cons. f_equal.
  unfold step. rewrite Hc, Hr. simpl. f_equal.
  apply assistant_message_described.
Qed.

Lemma assistant_message_translation_witness :
  _convert_anthropic_messages_to_openai
    ([] ++
     message "assistant"
       (Blocks [block (Text "I will ");
                block (Thinking (Some "hm") None);
                block (ToolUse "call_1" "bash" (JObj [("command", JStr "ls")]));
                block (Text "list.");
                block (ToolUse "call_2" "computer"
                               (JObj [("action", JStr "screenshot")]))])
     :: [])
  = [mkWire "assistant" (Some (WStr "I will list."))
       (Some [mkWireToolCall "call_1" "function" "bash"
                (Dumped (JObj [("command", JStr "ls")]));
              mkWireToolCall "call_2" "function" "computer"
                (Dumped (JObj [("action", JStr "screenshot")]))])
       None].
Proof.
  rewrite (assistant_message_translation [] []
             (message "assistant"
                (Blocks [block (Text "I will ");
                         block (Thinking (Some "hm") None);
                         block (ToolUse "call_1" "bash"
                                        (JObj [("command", JStr "ls")]));
                         block (Text "list.");
                         block (ToolUse "call_2" "computer"
                                        (JObj [("action", JStr "screenshot")]))]))
             _ eq_refl eq_refl).
  reflexivity.
Defined.

End WireFacts.

(** ** The translation of responses *)

Section ResponseFacts.

Import Wire Response.

Lemma response_tool_calls_outcome calls :
  response_tool_calls calls =
  match first_invalid calls with
  | Some raw => Raise (JSONDecodeError raw)
  | None => Ok (flat_map call_block calls)
  end.
Proof.
  induction calls as [|c rest IH]; [reflexivity|].
  simpl. unfold call_block at 1.
  destruct (response_call_arguments c) as [j|raw]; simpl; [|reflexivity].
  rewrite IH. now destruct (first_invalid rest).
Qed.

(** X5.  The translation of a chat completion raises IndexError when there
    is no choice, and JSONDecodeError, for the first tool call of the first
    choice whose arguments are no JSON, with these arguments; otherwise it
    returns the text of the first choice (if not empty) followed by one
    tool_use block for each tool call, in order. *)
Theorem openai_response_translation_outcome (response : ChatCompletion) :
  _convert_openai_response_to_anthropic response =
  match choices response with
  | [] => Raise IndexError
  | choice :: _ =>
      match first_invalid (calls_of choice) with
      | Some raw => Raise (JSONDecodeError raw)
      | None => Ok (text_part choice ++ flat_map call_block (calls_of choice))
      end
  end.
Proof.
  unfold _convert_openai_response_to_anthropic, calls_of, text_part.
  destruct (choices response) as [|choice others]; [reflexivity|].
  destruct (chat_tool_calls choice) as [[|c calls]|].
  - simpl. now rewrite app_nil_r.
  - rewrite response_tool_calls_outcome.
    now destruct (first_invalid (c :: calls)).
  - simpl. now rewrite app_nil_r.
Qed.

Lemma response_translation_of_choice response choice others :
  choices response = choice :: others ->
  _convert_openai_response_to_anthropic response =
  match first_invalid (calls_of choice) with
  | Some raw => Raise (JSONDecodeError raw)
  | None => Ok (text_part choice ++ flat_map call_block (calls_of choice))
  end.
Proof.
  intro Hc.
  unfold _convert_openai_response_to_anthropic, calls_of, text_part.
  rewrite Hc.
  destruct (chat_tool_calls choice) as [[|c calls]|];
    [simpl; now rewrite app_nil_r | | simpl; now rewrite app_nil_r].
  rewrite response_tool_calls_outcome.
  now destruct (first_invalid (c :: calls)).
Qed.

Lemma first_invalid_none calls :
  forallb valid_arguments calls = true -> first_invalid calls = None.
Proof.
  induction calls as [|c rest IH]; intro H; [reflexivity|].
  simpl in *. apply andb_prop in H as [Hc Hrest]. unfold valid_arguments in Hc.
  destruct (response_call_arguments c); [now apply IH | discriminate].
Qed.

(** The tool calls sent back for the tool_use blocks of a completion
    have the ids and the names of the completion's tool calls, in order. *)
Lemma sent_calls_fields calls :
  forallb valid_arguments calls = true ->
  map call_id (flat_map block_call (flat_map call_block calls))
    = map response_call_id calls /\
  map function_name (flat_map block_call (flat_map call_block calls))
    = map response_call_name calls /\
  map call_type (flat_map block_call (flat_map call_block calls))
    = map (fun _ => "function") calls.
Proof.
  induction calls as [|c rest IH]; intro H; [now repeat split|].
  simpl in H. apply andb_prop in H as [Hc Hrest].
  destruct (IH Hrest) as (I & N & T).
  unfold valid_arguments in Hc. cbn [flat_map]. unfold call_block at 1 3 5.
  destruct (response_call_arguments c) as [j|raw]; [|discriminate].
  simpl. now rewrite I, N, T.
Qed.

Lemma call_block_no_text calls :
  concat_text (map block_text (flat_map call_block calls)) = "".
Proof.
  induction calls as [|c rest IH]; [reflexivity|].
  simpl. unfold call_block at 1.
  destruct (response_call_arguments c); simpl; exact IH.
Qed.

(** X6.  A Nebius turn is sent back in the next request: when every
    tool call of a completion has JSON arguments, the assistant message the
    loop appends for it is translated into one assistant wire message with
    the text of the completion (no content key when the text is empty) and,
    in order, one function tool call for each tool call of the completion,
    with its id and its name (no tool_calls key when there is none).  The
    arguments are serialised again from the values loaded; nothing is said
    here about their text. *)
Theorem completion_is_sent_back
        (response : ChatCompletion) (choice : ChatMessage)
        (others : list ChatMessage) :
  choices response = choice :: others ->
  forallb valid_arguments (calls_of choice) = true ->
  exists blocks sent_calls,
    _convert_openai_response_to_anthropic response = Ok blocks /\
    _convert_anthropic_messages_to_openai
      [message "assistant" (Blocks blocks)]
    = [mkWire "assistant"
         (if truthy_opt (chat_content choice)
          then Some (WStr (opt_str (chat_content choice))) else None)
         (match sent_calls with
          | [] => None
          | _ => Some sent_calls
          end)
         None] /\
    map call_id sent_calls = map response_call_id (calls_of choice) /\
    map function_name sent_calls = map response_call_name (calls_of choice) /\
    map call_type sent_calls = map (fun _ => "function") (calls_of choice).
Proof.
  intros Hc Hvalid.
  exists (text_part choice ++ flat_map call_block (calls_of choice)).
  exists (flat_map block_call (flat_map call_block (calls_of choice))).
  split; [|split; [|now apply sent_calls_fields]].
  - rewrite (response_translation_of_choice response choice others Hc).
    now rewrite first_invalid_none.
  - change (_convert_anthropic_messages_to_openai
              [message "assistant"
                 (Blocks (text_part choice
                            ++ flat_map call_block (calls_of choice)))])
      with [Convert.assistant_message
              (text_part choice ++ flat_map call_block (calls_of choice))].
    rewrite assistant_message_described. f_equal. unfold assistant_wire.
    rewrite map_app, concat_text_app, call_block_no_text, append_nil_r.
    rewrite flat_map_app.
    unfold text_part.
    destruct (truthy_opt (chat_content choice)) eqn:T; simpl.
    + rewrite append_nil_r.
      destruct (chat_content choice) as [s|]; [|discriminate T].
      simpl in *. change (block_text (block (Text s))) with s. now rewrite T.
    + reflexivity.
Qed.

Lemma completion_is_sent_back_witness :
  exists blocks sent_calls,
    _convert_openai_response_to_anthropic
      (mkChatCompletion
         [mkChatMessage (Some "listing")
            (Some [mkResponseToolCall "call_1" "bash"
                     (Dumped (JObj [("command", JStr "ls")]))])])
    = Ok blocks /\
    _convert_anthropic_messages_to_openai
      [message "assistant" (Blocks blocks)]
    = [mkWire "assistant" (Some (WStr "listing"))
         (match sent_calls with
          | [] => None
          | _ => Some sent_calls
          end)
         None] /\
    map call_id sent_calls = ["call_1"] /\
    map function_name sent_calls = ["bash"] /\
    map call_type sent_calls = ["function"].
Proof.
  exact (completion_is_sent_back
           (mkChatCompletion
              [mkChatMessage (Some "listing")
                 (Some [mkResponseToolCall "call_1" "bash"
                          (Dumped (JObj [("command", JStr "ls")]))])])
           (mkChatMessage (Some "listing")
              (Some [mkResponseToolCall "call_1" "bash"
                       (Dumped (JObj [("command", JStr "ls")]))]))
           [] eq_refl eq_refl).
Defined.

(** X7.  The content blocks made from a response never hold an empty text
    block and never carry a cache marker: this holds for every chat
    completion, and for every Anthropic response whose blocks other than
    text blocks are not dumped as text. *)
Theorem response_blocks_have_text
        (reply : Reply) (params : list Block) (b : Block) :
  match reply with
  | AnthropicReply response =>
      forallb well_typed (response_content response) = true
  | NebiusReply _ => True
  end ->
  reply_params reply = Ok params ->
  In b params ->
  is_empty_text (body b) = false /\ cache_control b = None.
Proof.
  intros Htyped Hparams Hin.
  destruct reply as [response|response]; simpl in Hparams.
  - inversion Hparams; subst. clear Hparams.
    unfold _response_to_params in Hin.
    induction (response_content response) as [|r rest IH];
      [contradiction|].
    simpl in Htyped. apply andb_prop in Htyped as [Hr Hrest].
    simpl in Hin. destruct r as [text|dump].
    + destruct (truthy text) eqn:T.
      * destruct Hin as [<-|Hin]; [|now apply IH].
        simpl. now rewrite T.
      * now apply IH.
    + destruct Hin as [<-|Hin]; [|now apply IH].
      simpl in *. split; [|reflexivity].
      destruct dump; try reflexivity. discriminate.
  - destruct (choices response) as [|choice others] eqn:Hc.
    { unfold _convert_openai_response_to_anthropic in Hparams.
      rewrite Hc in Hparams. discriminate Hparams. }
    rewrite (response_translation_of_choice response choice others Hc)
      in Hparams.
    destruct (first_invalid (calls_of choice)); [discriminate|].
    inversion Hparams; subst. clear Hparams.
    apply in_app_or in Hin as [Hin|Hin].
    + unfold text_part in Hin.
      destruct (truthy_opt (chat_content choice)) eqn:T; [|contradiction].
      destruct Hin as [<-|[]]. simpl.
      destruct (chat_content choice) as [s|]; [|discriminate T].
      simpl in *. now rewrite T.
    + apply in_flat_map in Hin as (c & _ & Hin). unfold call_block in Hin.
      destruct (response_call_arguments c); [|contradiction].
      destruct Hin as [<-|[]]. now split.
Qed.

Lemma response_blocks_have_text_witness :
  is_empty_text (body (block (Text "hello"))) = false /\
  cache_control (block (Text "hello")) = None.
Proof.
  apply (response_blocks_have_text
           (AnthropicReply
              (mkBetaMessage [BetaTextBlock ""; BetaTextBlock "hello"]))
           [block (Text "hello")] (block (Text "hello"))).
  - reflexivity.
  - reflexivity.
  - now left.
Defined.

End ResponseFacts.

(** ** Tool results for the two backends *)

Section ToolResultFacts.

Import Wire.

(** X8.  The two builders of tool results agree on the text: the
    tool_result block built for the Anthropic-style providers has as content
    the text of the tool message built for Nebius, and both entries hold the
    id of the call.  The error flag of the block is set exactly when the
    result has an error.  The Nebius builder returns a user message with
    the screenshot, when there is one, after the tool message, with or
    without an error; the Anthropic block holds the screenshot only when
    there is no error.  These are the entries of the conversation; what a
    Nebius request then carries is less: the translation of the two Nebius
    messages is a single tool message with the text alone, without the id
    of the call and without the screenshot. *)
Theorem tool_result_for_both_backends (result : ToolResult) (id nm : string) :
  exists c image_messages,
    _make_api_tool_result result id
      = block (ToolResultBlock id c (truthy_opt (error result))) /\
    _make_nebius_tool_result result id nm
      = mkMessage "tool" (Str (result_text c)) (Some id) (Some nm)
        :: image_messages /\
    List.length image_messages
      = (if truthy_opt (base64_image result) then 1 else 0) /\
    List.length (Filter.content_images c)
      = (if truthy_opt (error result) then 0
         else List.length image_messages) /\
    _convert_anthropic_messages_to_openai
      (_make_nebius_tool_result result id nm)
      = [mkWire "tool" (Some (WStr (result_text c))) None None].
Proof.
  rewrite convert_nebius_tool_result, make_nebius_tool_result_shape.
  unfold _make_api_tool_result, Props.nebius_tool_content.
  destruct (truthy_opt (error result)) eqn:E.
  - eexists. eexists. split; [reflexivity|]. split; [reflexivity|].
    split; [|split; reflexivity].
    now destruct (truthy_opt (base64_image result)).
  - destruct (truthy_opt (output result)), (truthy_opt (base64_image result));
      eexists; eexists; (split; [reflexivity|]);
      (split; [simpl; rewrite ?append_nil_r; reflexivity|]);
      (split; [reflexivity|]);
      (split; [reflexivity|]);
      simpl; rewrite ?append_nil_r; reflexivity.
Qed.

End ToolResultFacts.

(** ** More on the image-retention policy *)

Section RetentionBounds.

Import Filter Retention.

Lemma remove_in_blocks_zero blocks : remove_in_blocks 0 blocks = blocks.
Proof.
  induction blocks as [|b rest IH]; simpl; [reflexivity|].
  destruct b as [bd cc]. simpl.
  destruct bd as [t|mt d|i nm j|id c e|th sg|url]; simpl; rewrite ?IH;
    try reflexivity.
  destruct c as [|s|items]; simpl; rewrite ?IH; try reflexivity.
  now rewrite drop_oldest_zero.
Qed.

Lemma remove_oldest_zero messages : remove_oldest 0 messages = messages.
Proof.
  induction messages as [|m rest IH]; simpl; [reflexivity|].
  destruct m as [r c t n]. simpl. destruct c as [s|blocks]; simpl;
    rewrite IH; [reflexivity|].
  now rewrite remove_in_blocks_zero.
Qed.

(** What the policy leaves, with a positive chunk. *)
Lemma filter_result messages keep chunk :
  (1 <= chunk)%Z ->
  _maybe_filter_to_n_most_recent_images messages (Some keep) chunk
  = Ok (remove_oldest (Z.to_nat (excess (total_images messages) keep chunk))
                      messages).
Proof.
  intro Hchunk. unfold _maybe_filter_to_n_most_recent_images.
  destruct (Z.eqb_spec chunk 0) as [->|_]; [lia|].
  destruct (prune_messages_spec messages
              ((total_images messages - keep)
               - (total_images messages - keep) mod chunk)%Z) as [H _].
  now rewrite H, counter_is_excess.
Qed.

Lemma total_after_removal messages (r : Z) :
  (0 <= r <= total_images messages)%Z ->
  total_images (remove_oldest (Z.to_nat r) messages)
  = (total_images messages - r)%Z.
Proof.
  intro H. unfold total_images in *.
  rewrite remove_oldest_images, length_skipn. lia.
Qed.

(** X9.  With [keep >= 0] and [chunk >= 1]: when fewer than [keep + chunk]
    images are in the tool results the policy changes nothing; when there
    are at least [keep], at least [keep] and fewer than [keep + chunk] are
    left.  So the number of images sent is bounded by [keep + chunk - 1]
    after every application. *)
Theorem image_retention_bounds (messages : list Message) (keep chunk : Z) :
  (0 <= keep)%Z ->
  (1 <= chunk)%Z ->
  exists messages',
    _maybe_filter_to_n_most_recent_images messages (Some keep) chunk
      = Ok messages' /\
    ((total_images messages < keep + chunk)%Z -> messages' = messages) /\
    ((keep <= total_images messages)%Z ->
     (keep <= total_images messages' < keep + chunk)%Z).
Proof.
  intros Hkeep Hchunk. eexists. split; [now apply filter_result|].
  set (total := total_images messages).
  pose proof (excess_bounds total keep chunk Hchunk) as Hb.
  pose proof (Z.mod_pos_bound (Z.max 0 (total - keep)) chunk ltac:(lia)) as Hm.
  split.
  - intro Hlt. unfold excess in *.
    rewrite Z.mod_small by lia. rewrite Z.sub_diag. apply remove_oldest_zero.
  - intro Hge. rewrite total_after_removal by (fold total; lia).
    fold total. unfold excess in *. lia.
Qed.

Lemma image_retention_bounds_witness :
  exists messages',
    _maybe_filter_to_n_most_recent_images Fixture.seven_images (Some 3%Z) 3%Z
      = Ok messages' /\
    (3 <= total_images messages' < 3 + 3)%Z.
Proof.
  destruct (image_retention_bounds Fixture.seven_images 3%Z 3%Z
              ltac:(lia) ltac:(lia)) as (messages' & Hrun & _ & Hbound).
  exists messages'. split; [exact Hrun|].
  apply Hbound. vm_compute. discriminate.
Defined.

(** X10.  The policy is idempotent: applied again with the same [keep] and
    [chunk] to the conversation it left, it changes nothing. *)
Theorem image_retention_idempotent
        (messages messages' : list Message) (keep chunk : Z) :
  (0 <= keep)%Z ->
  (1 <= chunk)%Z ->
  _maybe_filter_to_n_most_recent_images messages (Some keep) chunk
    = Ok messages' ->
  _maybe_filter_to_n_most_recent_images messages' (Some keep) chunk
    = Ok messages'.
Proof.
  intros Hkeep Hchunk H. rewrite filter_result in H by assumption.
  inversion H as [E]. clear H. rewrite filter_result by assumption.
  set (total := total_images messages) in *.
  pose proof (excess_bounds total keep chunk Hchunk) as Hb.
  pose proof (Z.mod_pos_bound (Z.max 0 (total - keep)) chunk ltac:(lia)) as Hm.
  assert (Ht : total_images messages'
               = (total - excess total keep chunk)%Z).
  { rewrite <- E. apply total_after_removal. fold total.
    unfold total, total_images in *. lia. }
  rewrite E, Ht.
  assert (Hz : excess (total - excess total keep chunk) keep chunk = 0%Z).
  { unfold excess in *.
    replace (Z.max 0 (total
               - (Z.max 0 (total - keep)
                  - Z.max 0 (total - keep) mod chunk) - keep))%Z
      with (Z.max 0 (total - keep) mod chunk)%Z by lia.
    rewrite Z.mod_mod by lia. lia. }
  rewrite Hz. simpl. now rewrite remove_oldest_zero.
Qed.

Lemma image_retention_idempotent_witness :
  exists messages',
    _maybe_filter_to_n_most_recent_images Fixture.seven_images (Some 1%Z) 3%Z
      = Ok messages' /\
    _maybe_filter_to_n_most_recent_images messages' (Some 1%Z) 3%Z
      = Ok messages'.
Proof.
  eexists. split; [reflexivity|].
  apply (image_retention_idempotent Fixture.seven_images _ 1%Z 3%Z
           ltac:(lia) ltac:(lia) eq_refl).
Defined.

(** X11.  In the loop the chunk is the retention count itself: for a
    provider other than ANTHROPIC and a positive count [n], the policies
    raise nothing, leave the conversation as it is while it holds fewer than
    [2n] images of tool results, and otherwise leave at least [n] and at
    most [2n - 1] of them. *)
Theorem loop_keeps_between_n_and_2n_images
        (settings : Settings) (messages : list Message) (n : Z) :
  provider settings <> ANTHROPIC ->
  (0 < n)%Z ->
  exists messages',
    apply_policies settings messages (Some n)
      = (messages', Some n, false, None) /\
    ((total_images messages < 2 * n)%Z -> messages' = messages) /\
    ((n <= total_images messages)%Z ->
     (n <= total_images messages' <= 2 * n - 1)%Z).
Proof.
  intros Hp Hn.
  assert (Hb : provider_eqb (provider settings) ANTHROPIC = false).
  { destruct (provider_eqb (provider settings) ANTHROPIC) eqn:E;
      [|reflexivity].
    apply provider_eqb_eq in E. contradiction. }
  unfold apply_policies. rewrite Hb. cbn [truthy_int or_zero].
  destruct (Z.eqb_spec n 0) as [->|_]; [lia|]. cbn [negb].
  rewrite filter_result by lia.
  eexists. split; [reflexivity|].
  set (total := total_images messages).
  pose proof (excess_bounds total n n ltac:(lia)) as Hbd.
  pose proof (Z.mod_pos_bound (Z.max 0 (total - n)) n ltac:(lia)) as Hm.
  split.
  - intro Hlt. unfold excess in *.
    rewrite Z.mod_small by lia. rewrite Z.sub_diag. apply remove_oldest_zero.
  - intro Hge. rewrite total_after_removal by (fold total; lia).
    fold total. unfold excess in *. lia.
Qed.

Lemma loop_keeps_between_n_and_2n_images_witness :
  exists messages',
    apply_policies (Fixture.settings NEBIUS) Fixture.seven_images (Some 3%Z)
      = (messages', Some 3%Z, false, None) /\
    (3 <= total_images messages' <= 2 * 3 - 1)%Z.
Proof.
  destruct (loop_keeps_between_n_and_2n_images
              (Fixture.settings NEBIUS) Fixture.seven_images 3%Z
              ltac:(discriminate) ltac:(lia))
    as (messages' & Hrun & _ & Hbound).
  exists messages'. split; [exact Hrun|].
  apply Hbound. vm_compute. discriminate.
Defined.

End RetentionBounds.

(** ** More on the cache-breakpoint policy *)

Section MarkerFacts.

Import Caching Breakpoints Markers.

Lemma update_last_snoc f init b :
  update_last f (init ++ [b]) = Some (init ++ [f b]).
Proof.
  induction init as [|x init IH]; [reflexivity|].
  simpl. rewrite IH. destruct (init ++ [b]) eqn:E; [|reflexivity].
  now destruct init.
Qed.

Lemma update_last_cases f blocks :
  (blocks = [] /\ update_last f blocks = None) \/
  (exists init b, blocks = init ++ [b] /\
                  update_last f blocks = Some (init ++ [f b])).
Proof.
  destruct blocks as [|x rest]; [now left|]. right.
  destruct (exists_last (l := x :: rest)) as (init & b & E); [discriminate|].
  exists init, b. rewrite E. split; [reflexivity | apply update_last_snoc].
Qed.

Lemma eligible_blocks m :
  eligible m = true -> role m = "user" /\ exists blocks, content m = Blocks blocks.
Proof.
  unfold eligible. intro H. apply andb_prop in H as [Hr Hc].
  apply String.eqb_eq in Hr. split; [exact Hr|].
  destruct (content m) as [s|blocks]; [discriminate | now exists blocks].
Qed.

Lemma eligible_with_blocks m blocks :
  role m = "user" -> eligible (with_blocks m blocks) = true.
Proof. intro Hr. unfold eligible, with_blocks. simpl. now rewrite Hr. Qed.

(** The scan, step by step. *)
Lemma scan_not_eligible m rest k :
  eligible m = false ->
  scan (m :: rest) k = (m :: fst (scan rest k), snd (scan rest k)).
Proof.
  intro H. unfold eligible in H. cbn [scan].
  destruct (content m) as [s|blocks]; [now destruct (scan rest k)|].
  rewrite andb_true_r in H. rewrite H. now destruct (scan rest k).
Qed.

Lemma scan_empty m rest k :
  role m = "user" -> content m = Blocks [] ->
  scan (m :: rest) k = (m :: rest, Some IndexError).
Proof. intros Hr Hc. cbn [scan]. rewrite Hc, Hr. now destruct k. Qed.

Lemma scan_set m rest k init b :
  role m = "user" -> content m = Blocks (init ++ [b]) ->
  scan (m :: rest) (S k) =
  (with_blocks m (init ++ [set_cache_control b]) :: fst (scan rest k),
   snd (scan rest k)).
Proof.
  intros Hr Hc. cbn [scan]. rewrite Hc, Hr, update_last_snoc.
  now destruct (scan rest k).
Qed.

Lemma scan_pop m rest init b :
  role m = "user" -> content m = Blocks (init ++ [b]) ->
  scan (m :: rest) 0 =
  (with_blocks m (init ++ [pop_cache_control b]) :: rest, None).
Proof. intros Hr Hc. cbn [scan]. now rewrite Hc, Hr, update_last_snoc. Qed.

(** Three ways a message is met by the scan. *)
Lemma message_cases m :
  eligible m = false \/
  (role m = "user" /\ content m = Blocks []) \/
  (role m = "user" /\ exists init b, content m = Blocks (init ++ [b])).
Proof.
  destruct (eligible m) eqn:E; [|now left]. right.
  destruct (eligible_blocks m E) as [Hr [blocks Hc]].
  destruct (update_last_cases (fun b => b) blocks)
    as [[-> _]|(init & b & -> & _)]; [left | right]; split; eauto.
Qed.

Lemma marked_snoc m init b :
  content m = Blocks (init ++ [b]) ->
  marked m = with_blocks m (init ++ [set_cache_control b]).
Proof. intro Hc. unfold marked, on_last. now rewrite Hc, update_last_snoc. Qed.

(** X12.  When a conversation has at most three user messages with list
    content, and each of them holds an item, the annotator sets the
    breakpoint on the last item of every one of them, leaves all other
    messages as they are and clears nothing. *)
Theorem few_user_messages_are_all_marked (messages : list Message) :
  forallb (fun m => implb (eligible m) (markable m)) messages = true ->
  List.length (filter eligible messages) <= 3 ->
  _inject_prompt_caching messages = (map mark_if_eligible messages, None).
Proof.
  intros Hall Hcount.
  assert (G : forall l k,
    forallb (fun m => implb (eligible m) (markable m)) l = true ->
    List.length (filter eligible l) <= k ->
    scan l k = (map mark_if_eligible l, None)).
  { induction l as [|m rest IH]; intros k Ha Hc; [reflexivity|].
    simpl in Ha. apply andb_prop in Ha as [Hm Hrest].
    simpl in Hc. unfold mark_if_eligible at 1. simpl map.
    destruct (eligible m) eqn:E.
    - simpl in Hm, Hc. destruct k as [|k]; [lia|].
      rewrite scan_mark by assumption.
      now rewrite (IH k Hrest ltac:(lia)).
    - rewrite scan_not_eligible by assumption.
      now rewrite (IH k Hrest Hc). }
  unfold _inject_prompt_caching.
  rewrite (G (rev messages) 3).
  - now rewrite <- map_rev, rev_involutive.
  - now rewrite forallb_rev.
  - enough (E : List.length (filter eligible (rev messages))
                = List.length (filter eligible messages)) by lia.
    clear. induction messages as [|m rest IH]; [reflexivity|].
    simpl. rewrite filter_app, length_app, IH. simpl.
    destruct (eligible m); simpl; lia.
Qed.

Lemma few_user_messages_are_all_marked_witness :
  _inject_prompt_caching
    [Fixture.user_turn "one"; Fixture.assistant_turn "a";
     Fixture.user_turn "two"]
  = ([marked (Fixture.user_turn "one"); Fixture.assistant_turn "a";
      marked (Fixture.user_turn "two")], None).
Proof.
  apply (few_user_messages_are_all_marked
           [Fixture.user_turn "one"; Fixture.assistant_turn "a";
            Fixture.user_turn "two"]).
  - reflexivity.
  - simpl. lia.
Defined.

Lemma scan_idempotent l : forall k,
  scan (fst (scan l k)) k = scan l k.
Proof.
  induction l as [|m rest IH]; intro k; [reflexivity|].
  destruct (message_cases m) as [E|[[Hr Hc]|[Hr (init & b & Hc)]]].
  - rewrite scan_not_eligible by assumption. simpl fst.
    rewrite scan_not_eligible by assumption. now rewrite IH.
  - rewrite (scan_empty m rest k Hr Hc). simpl fst.
    apply (scan_empty m rest k Hr Hc).
  - destruct k as [|k].
    + rewrite (scan_pop m rest init b Hr Hc). simpl fst.
      now rewrite (scan_pop (with_blocks m (init ++ [pop_cache_control b]))
                           rest init (pop_cache_control b) Hr eq_refl).
    + rewrite (scan_set m rest k init b Hr Hc). simpl fst.
      rewrite (scan_set (with_blocks m (init ++ [set_cache_control b]))
                        (fst (scan rest k)) k init (set_cache_control b)
                        Hr eq_refl).
      now rewrite IH.
Qed.

(** X13.  The annotator is idempotent: run again on the conversation it
    left, it leaves the same conversation and ends the same way (also when
    it raises at an empty content list). *)
Theorem annotation_is_idempotent (messages : list Message) :
  _inject_prompt_caching (fst (_inject_prompt_caching messages))
  = _inject_prompt_caching messages.
Proof.
  unfold _inject_prompt_caching.
  pose proof (scan_idempotent (rev messages) 3) as H.
  destruct (scan (rev messages) 3) as [r e]. simpl in *.
  now rewrite rev_involutive, H.
Qed.

(** X14.  The annotator changes cache markers only, also when it raises:
    the conversation it leaves has the same length and, with every marker
    taken off, is the conversation it was given with every marker taken
    off; in particular roles, block bodies and the images of tool results
    are as before. *)
Theorem annotation_changes_markers_only (messages : list Message) :
  let messages' := fst (_inject_prompt_caching messages) in
  List.length messages' = List.length messages /\
  unmarked messages' = unmarked messages /\
  map role messages' = map role messages /\
  Filter.images messages' = Filter.images messages.
Proof.
  intro messages'.
  destruct (_inject_prompt_caching messages) as [m' e] eqn:E.
  destruct (inject_effect messages m' e E) as [L U].
  unfold messages'. simpl. split; [exact L|]. split; [exact U|]. split.
  - assert (R : forall l, map role (unmarked l) = map role l).
    { intro l. unfold unmarked. rewrite map_map. apply map_ext.
      intro m. unfold unmarked_message. now destruct (content m). }
    now rewrite <- R, U, R.
  - now rewrite <- images_unmarked, U, images_unmarked.
Qed.

End MarkerFacts.

(** ** The number of cache markers *)

Section MarkerBound.

Import Caching Breakpoints Markers.

Lemma has_marker_forallb blocks :
  forallb (fun b => negb (has_marker b)) blocks = true ->
  existsb has_marker blocks = false.
Proof.
  induction blocks as [|b rest IH]; intro H; [reflexivity|].
  simpl in *. apply andb_prop in H as [Hb Hrest].
  apply negb_true_iff in Hb. now rewrite Hb, IH.
Qed.

Lemma forallb_removelast {A} (f : A -> bool) l :
  forallb f l = true -> forallb f (removelast l) = true.
Proof.
  induction l as [|x l IH]; intro H; [reflexivity|].
  simpl in H. apply andb_prop in H as [Hx Hl].
  destruct l as [|y l]; [reflexivity|].
  change (removelast (x :: y :: l)) with (x :: removelast (y :: l)).
  simpl. rewrite Hx. now apply IH.
Qed.

Lemma clean_last_only m : clean m = true -> last_only m = true.
Proof.
  unfold clean, last_only, carries_marker.
  destruct (content m) as [s|blocks]; [reflexivity|].
  intro H. apply negb_true_iff in H. apply forallb_removelast.
  induction blocks as [|b rest IH]; [reflexivity|].
  simpl in *. apply orb_false_iff in H as [Hb Hrest].
  now rewrite Hb, IH.
Qed.

Lemma count_marked_cons m l :
  count_marked (m :: l) = (if carries_marker m then 1 else 0) + count_marked l.
Proof. unfold count_marked. simpl. now destruct (carries_marker m). Qed.

Lemma count_marked_le_cons m l : count_marked (m :: l) <= 1 + count_marked l.
Proof. rewrite count_marked_cons. destruct (carries_marker m); lia. Qed.

Lemma count_marked_clean m l :
  clean m = true -> count_marked (m :: l) = count_marked l.
Proof.
  unfold clean. intro H. apply negb_true_iff in H.
  now rewrite count_marked_cons, H.
Qed.

Lemma count_marked_rev l : count_marked (rev l) = count_marked l.
Proof.
  induction l as [|m l IH]; [reflexivity|].
  simpl. rewrite count_marked_app, IH, !count_marked_cons.
  unfold count_marked at 2. simpl. lia.
Qed.

Lemma confined_count l : forall k,
  confined k l = true -> count_marked l <= k.
Proof.
  induction l as [|m rest IH]; intros k H; [unfold count_marked; simpl; lia|].
  simpl in H. destruct (eligible m).
  - destruct k as [|k]; apply andb_prop in H as [Hm Hrest].
    + rewrite count_marked_clean by assumption. now apply IH.
    + pose proof (IH k Hrest). pose proof (count_marked_le_cons m rest). lia.
  - apply andb_prop in H as [Hm Hrest].
    rewrite count_marked_clean by assumption. now apply IH.
Qed.

Lemma confined_weaken l : forall k,
  confined k l = true -> confined (S k) l = true.
Proof.
  induction l as [|m rest IH]; intros k H; [reflexivity|].
  simpl in *. destruct (eligible m).
  - destruct k as [|k]; apply andb_prop in H as [Hm Hrest].
    + now rewrite (clean_last_only m Hm), Hrest.
    + now rewrite Hm, (IH k Hrest).
  - apply andb_prop in H as [Hm Hrest]. now rewrite Hm, (IH k Hrest).
Qed.

Lemma clean_confined l : forall k,
  forallb clean l = true -> confined k l = true.
Proof.
  induction l as [|m rest IH]; intros k H; [reflexivity|].
  simpl in *. apply andb_prop in H as [Hm Hrest].
  destruct (eligible m); [destruct k|];
    rewrite ?Hm, ?(clean_last_only m Hm), IH; auto.
Qed.

Lemma last_only_snoc m m' init b b' :
  content m = Blocks (init ++ [b]) ->
  content m' = Blocks (init ++ [b']) ->
  last_only m = true -> last_only m' = true.
Proof.
  unfold last_only. intros -> ->. now rewrite !removelast_last.
Qed.

Lemma cleared_clean m m' init b :
  content m = Blocks (init ++ [b]) ->
  content m' = Blocks (init ++ [pop_cache_control b]) ->
  last_only m = true -> clean m' = true.
Proof.
  unfold last_only, clean, carries_marker. intros -> ->.
  rewrite removelast_last. intro H.
  rewrite existsb_app, (has_marker_forallb init H). reflexivity.
Qed.

Lemma empty_clean m : content m = Blocks [] -> clean m = true.
Proof. unfold clean, carries_marker. now intros ->. Qed.

(** The scan keeps the markers confined, and leaves at most as many as it
    had breakpoints. *)
Lemma scan_confined l : forall k,
  confined (S k) l = true ->
  count_marked (fst (scan l k)) <= k /\
  (snd (scan l k) = None -> confined k (fst (scan l k)) = true).
Proof.
  induction l as [|m rest IH]; intros k H.
  - simpl. split; [unfold count_marked; simpl; lia | reflexivity].
  - destruct (message_cases m) as [E|[[Hr Hc]|[Hr (init & b & Hc)]]].
    + rewrite scan_not_eligible by assumption. simpl fst. simpl snd.
      simpl in H. rewrite E in H. apply andb_prop in H as [Hm Hrest].
      destruct (IH k Hrest) as [C N]. split.
      * now rewrite count_marked_clean.
      * intro Hn. simpl. now rewrite E, Hm, N.
    + rewrite (scan_empty m rest k Hr Hc). simpl fst. simpl snd.
      split; [|discriminate].
      assert (E : eligible m = true)
        by (unfold eligible; now rewrite Hr, Hc).
      simpl in H. rewrite E in H. apply andb_prop in H as [_ Hrest].
      rewrite count_marked_clean by now apply empty_clean.
      now apply confined_count.
    + assert (E : eligible m = true)
        by (unfold eligible; now rewrite Hr, Hc).
      simpl in H. rewrite E in H. apply andb_prop in H as [Hm Hrest].
      destruct k as [|k].
      * rewrite (scan_pop m rest init b Hr Hc). simpl fst. simpl snd.
        assert (Cl : clean (with_blocks m (init ++ [pop_cache_control b]))
                     = true)
          by now apply (cleared_clean
                          m (with_blocks m (init ++ [pop_cache_control b]))
                          init b Hc eq_refl).
        split.
        -- rewrite count_marked_clean by assumption.
           now apply confined_count.
        -- intros _. simpl. rewrite eligible_with_blocks by assumption.
           now rewrite Cl, Hrest.
      * rewrite (scan_set m rest k init b Hr Hc). simpl fst. simpl snd.
        destruct (IH k Hrest) as [C N]. split.
        -- pose proof (count_marked_le_cons
                         (with_blocks m (init ++ [set_cache_control b]))
                         (fst (scan rest k))). lia.
        -- intro Hn. simpl. rewrite eligible_with_blocks by assumption.
           rewrite (last_only_snoc
                      m (with_blocks m (init ++ [set_cache_control b]))
                      init b (set_cache_control b) Hc eq_refl Hm).
           now rewrite N.
Qed.

(** X15.  When the markers of a conversation are on last content items of
    its four most recent user messages with list content only (as in a
    conversation without markers), at most three of its messages carry a
    marker after the annotation, also when the annotation raises. *)
Theorem annotation_leaves_at_most_three_markers (messages : list Message) :
  confined 4 (rev messages) = true ->
  count_marked (fst (_inject_prompt_caching messages)) <= 3.
Proof.
  intro H. unfold _inject_prompt_caching.
  destruct (scan_confined (rev messages) 3 H) as [C _].
  destruct (scan (rev messages) 3) as [r e]. simpl in *.
  now rewrite count_marked_rev.
Qed.

Lemma annotation_leaves_at_most_three_markers_witness :
  count_marked (fst (_inject_prompt_caching Fixture.five_user_turns)) <= 3.
Proof.
  apply (annotation_leaves_at_most_three_markers Fixture.five_user_turns).
  reflexivity.
Defined.

End MarkerBound.

(** ** More on the sampling loop *)

Section LoopExtras.

Import Breakpoints Markers Trace.

Variable World : Type.
Variable SYSTEM_PROMPT : string.
Variable beta_flag : option string.
Variable anthropic_create : AnthropicRequest -> World -> Result BetaMessage * World.
Variable openai_create : OpenAIRequest -> World -> Result ChatCompletion * World.
Variable tool_run : string -> json -> World -> Result ToolResult * World.

Local Abbreviation loop :=
  (sampling_loop World SYSTEM_PROMPT beta_flag anthropic_create openai_create
                 tool_run).
Local Abbreviation call :=
  (call_api World SYSTEM_PROMPT beta_flag anthropic_create openai_create).
Local Abbreviation run_tools := (dispatch World tool_run).

Lemma apply_policies_anthropic settings messages only_n :
  provider settings = ANTHROPIC ->
  apply_policies settings messages only_n =
  (fst (_inject_prompt_caching messages), Some 0%Z, true,
   snd (_inject_prompt_caching messages)).
Proof.
  intro Hp. unfold apply_policies. rewrite Hp. simpl provider_eqb.
  destruct (_inject_prompt_caching messages) as [m e].
  now destruct e.
Qed.

Lemma inject_confined messages :
  confined 4 (rev messages) = true ->
  count_marked (fst (_inject_prompt_caching messages)) <= 3 /\
  (snd (_inject_prompt_caching messages) = None ->
   confined 3 (rev (fst (_inject_prompt_caching messages))) = true).
Proof.
  intro H. unfold _inject_prompt_caching.
  destruct (scan_confined (rev messages) 3 H) as [C N].
  destruct (Caching.scan (rev messages) 3) as [r e]. simpl in *.
  rewrite count_marked_rev, rev_involutive. now split.
Qed.

(** The blocks the loop makes carry no marker. *)
Lemma response_blocks_fresh blocks :
  forallb (fun b => negb (has_marker b)) (response_blocks blocks) = true.
Proof.
  induction blocks as [|r rest IH]; [reflexivity|].
  simpl. destruct r as [text|dump]; [destruct (truthy text)|]; simpl; exact IH.
Qed.

Lemma response_tool_calls_fresh calls blocks :
  response_tool_calls calls = Ok blocks ->
  forallb (fun b => negb (has_marker b)) blocks = true.
Proof.
  revert blocks. induction calls as [|c rest IH]; intros blocks H.
  - now inversion H.
  - simpl in H. destruct (json_loads (response_call_arguments c));
      [|discriminate].
    destruct (response_tool_calls rest) as [bs|]; [|discriminate].
    inversion H; subst. simpl. now apply IH.
Qed.

Lemma reply_params_fresh reply params :
  reply_params reply = Ok params ->
  forallb (fun b => negb (has_marker b)) params = true.
Proof.
  destruct reply as [response|response]; simpl; intro H.
  - inversion H. apply response_blocks_fresh.
  - unfold _convert_openai_response_to_anthropic in H.
    destruct (choices response) as [|choice others]; [discriminate|].
    assert (T : forallb (fun b => negb (has_marker b))
                  (if truthy_opt (chat_content choice)
                   then [block (Text (opt_str (chat_content choice)))]
                   else []) = true)
      by now destruct (truthy_opt (chat_content choice)).
    destruct (chat_tool_calls choice) as [[|c calls]|];
      try (inversion H; subst; exact T).
    destruct (response_tool_calls (c :: calls)) as [bs|] eqn:E;
      [|discriminate].
    inversion H; subst. rewrite forallb_app, T.
    now rewrite (response_tool_calls_fresh _ _ E).
Qed.

Lemma api_tool_result_fresh result id :
  has_marker (_make_api_tool_result result id) = false.
Proof.
  unfold _make_api_tool_result. now destruct (truthy_opt (error result)).
Qed.

Lemma dispatch_fresh prov params : forall nebius results w log,
  forallb (fun b => negb (has_marker b)) results = true ->
  forallb (fun b => negb (has_marker b))
          (tool_result_content World
             (run_tools prov params nebius results w log)) = true.
Proof.
  induction params as [|b rest IH]; intros nebius results w log H;
    [exact H|].
  cbn [dispatch].
  destruct (body b) as [t|mt dt|id nm input|id c e|th sg|url];
    try now apply IH.
  destruct (tool_run nm input w) as [[result|e] w']; [|exact H].
  destruct (provider_eqb prov NEBIUS); apply IH; [exact H|].
  rewrite forallb_app, H. simpl. now rewrite api_tool_result_fresh.
Qed.

Lemma fresh_clean r blocks :
  forallb (fun b => negb (has_marker b)) blocks = true ->
  clean (message r (Blocks blocks)) = true.
Proof.
  intro H. unfold clean, carries_marker. simpl.
  now rewrite has_marker_forallb.
Qed.

Lemma count_marked_snoc_clean messages m :
  clean m = true -> count_marked (messages ++ [m]) = count_marked messages.
Proof.
  intro H. rewrite count_marked_app, (count_marked_clean m [] H).
  unfold count_marked at 2. simpl. lia.
Qed.

(** One iteration, given the bound for the following ones. *)
Lemma loop_markers_step fuel :
  (forall settings messages only_n w log,
     provider settings = ANTHROPIC ->
     confined 4 (rev messages) = true ->
     count_marked messages <= 3 ->
     count_marked
       (final_messages
          (outcome World (loop fuel settings messages only_n w log))) <= 3) ->
  forall settings messages only_n w log,
    provider settings = ANTHROPIC ->
    confined 4 (rev messages) = true ->
    count_marked
      (final_messages
         (outcome World (loop (S fuel) settings messages only_n w log))) <= 3.
Proof.
  intros Next settings messages only_n w log Hp Hconf.
  cbn [sampling_loop]. rewrite apply_policies_anthropic by assumption.
  destruct (inject_confined messages Hconf) as [C N].
  set (messages' := fst (_inject_prompt_caching messages)) in *.
  destruct (snd (_inject_prompt_caching messages)) as [e|]; [exact C|].
  specialize (N eq_refl).
  destruct (call settings true messages' w) as [[reply|e] w1]; [|exact C].
  destruct (reply_params reply) as [params|e] eqn:Hparams; [|exact C].
  pose proof (fresh_clean "assistant" params
                (reply_params_fresh reply params Hparams)) as Ha.
  assert (Ca : count_marked (messages' ++ [message "assistant" (Blocks params)])
               <= 3)
    by now rewrite count_marked_snoc_clean.
  destruct (raised World (run_tools (provider settings) params [] [] w1
                            (log ++ [success_event reply]))) as [e|];
    [exact Ca|].
  rewrite Hp. simpl provider_eqb. cbv iota.
  pose proof (dispatch_fresh ANTHROPIC params [] [] w1
                (log ++ [success_event reply]) eq_refl) as Hf.
  destruct (tool_result_content World
              (run_tools ANTHROPIC params [] [] w1
                 (log ++ [success_event reply]))) as [|b bs]; [exact Ca|].
  pose proof (fresh_clean "user" (b :: bs) Hf) as Hu.
  apply Next; [exact Hp| |].
  - rewrite !rev_app_distr. simpl.
    rewrite (clean_last_only _ Hu), Ha. exact N.
  - now rewrite count_marked_snoc_clean.
Qed.

Lemma loop_markers_all fuel : forall settings messages only_n w log,
  provider settings = ANTHROPIC ->
  confined 4 (rev messages) = true ->
  count_marked messages <= 3 ->
  count_marked
    (final_messages
       (outcome World (loop fuel settings messages only_n w log))) <= 3.
Proof.
  induction fuel as [|fuel IH]; intros settings messages only_n w log Hp Hc Hn.
  - exact Hn.
  - now apply (loop_markers_step fuel IH).
Qed.

(** X16.  With provider ANTHROPIC, when the markers of the initial
    conversation are on last content items of its four most recent user
    messages with list content only (as in a conversation without markers),
    the conversation the loop leaves after one iteration or more, however
    it ends, has at most three messages that carry a marker. *)
Theorem loop_leaves_at_most_three_markers
        (settings : Settings) (messages : list Message) (only_n : option Z)
        (w : World) (log : list Event) (fuel : nat) :
  provider settings = ANTHROPIC ->
  confined 4 (rev messages) = true ->
  count_marked
    (final_messages
       (outcome World (loop (S fuel) settings messages only_n w log))) <= 3.
Proof.
  intros Hp Hc. apply (loop_markers_step fuel); try assumption.
  intros. now apply loop_markers_all.
Qed.

(** The trace and the results of the loop over the blocks of a reply. *)
Lemma dispatch_trace_and_results prov params :
  forall nebius results w log,
    let d := run_tools prov params nebius results w log in
    exists new,
      dispatch_trace World d = log ++ new /\
      (exists hidden, params = shown new ++ hidden) /\
      (raised World d = None ->
       shown new = params /\
       answered new = call_ids params /\
       if provider_eqb prov NEBIUS
       then message_ids (nebius_tool_messages World d)
              = message_ids nebius ++ call_ids params /\
            tool_result_content World d = results
       else result_ids (tool_result_content World d)
              = result_ids results ++ call_ids params /\
            nebius_tool_messages World d = nebius).
Proof.
  induction params as [|b rest IH]; intros nebius results w log.
  - exists []. simpl. rewrite !app_nil_r. split; [reflexivity|].
    split; [now exists []|]. intros _.
    destruct (provider_eqb prov NEBIUS); now repeat split.
  - cbn [dispatch].
    assert (Shown : forall w' nebius' results' (extra : list Event) ids,
      shown extra = [] -> answered extra = ids ->
      call_ids (b :: rest) = ids ++ call_ids rest ->
      (if provider_eqb prov NEBIUS
       then message_ids nebius' = message_ids nebius ++ ids /\
            results' = results
       else result_ids results' = result_ids results ++ ids /\
            nebius' = nebius) ->
      let d := run_tools prov rest nebius' results' w'
                         ((log ++ [output_callback b]) ++ extra) in
      exists new,
        dispatch_trace World d = log ++ new /\
        (exists hidden, b :: rest = shown new ++ hidden) /\
        (raised World d = None ->
         shown new = b :: rest /\
         answered new = call_ids (b :: rest) /\
         if provider_eqb prov NEBIUS
         then message_ids (nebius_tool_messages World d)
                = message_ids nebius ++ call_ids (b :: rest) /\
              tool_result_content World d = results
         else result_ids (tool_result_content World d)
                = result_ids results ++ call_ids (b :: rest) /\
              nebius_tool_messages World d = nebius)).
    { intros w' nebius' results' extra ids Hs Ha Hids Hacc d.
      destruct (IH nebius' results' w'
                   ((log ++ [output_callback b]) ++ extra))
        as (new & Ht & (hidden & Hh) & Hok).
      fold d in Ht, Hok.
      exists ([output_callback b] ++ extra ++ new).
      assert (Sh : shown ([output_callback b] ++ extra ++ new)
                   = b :: shown new).
      { unfold shown in *. rewrite !flat_map_app, Hs. reflexivity. }
      assert (An : answered ([output_callback b] ++ extra ++ new)
                   = ids ++ answered new).
      { unfold answered in *. rewrite !flat_map_app, Ha. reflexivity. }
      split; [rewrite Ht; now rewrite <- !app_assoc|].
      split; [exists hidden; rewrite Sh; simpl; now f_equal|].
      intro Hr. destruct (Hok Hr) as (Hs' & Ha' & Hacc').
      rewrite Sh, An, Hs', Ha', Hids.
      split; [reflexivity|]. split; [reflexivity|].
      destruct (provider_eqb prov NEBIUS).
      - destruct Hacc as [Hn ->], Hacc' as [Hn' ->].
        split; [|reflexivity]. now rewrite Hn', Hn, <- app_assoc.
      - destruct Hacc as [Hn ->], Hacc' as [Hn' ->].
        split; [|reflexivity]. now rewrite Hn', Hn, <- app_assoc. }
    assert (Plain : Props.block_call_ids b = [] ->
      let d := run_tools prov rest nebius results w
                         (log ++ [output_callback b]) in
      exists new,
        dispatch_trace World d = log ++ new /\
        (exists hidden, b :: rest = shown new ++ hidden) /\
        (raised World d = None ->
         shown new = b :: rest /\
         answered new = call_ids (b :: rest) /\
         if provider_eqb prov NEBIUS
         then message_ids (nebius_tool_messages World d)
                = message_ids nebius ++ call_ids (b :: rest) /\
              tool_result_content World d = results
         else result_ids (tool_result_content World d)
                = result_ids results ++ call_ids (b :: rest) /\
              nebius_tool_messages World d = nebius)).
    { intro Hb.
      pose proof (Shown w nebius results [] [] eq_refl eq_refl) as S.
      rewrite (app_nil_r (log ++ [output_callback b])) in S. apply S.
      - unfold call_ids. simpl. now rewrite Hb.
      - rewrite !app_nil_r. destruct (provider_eqb prov NEBIUS); now split. }
    unfold Props.block_call_ids in Plain.
    destruct (body b) as [t|mt dt|id nm input|id c e|th sg|url] eqn:Hb;
      try (now apply Plain).
    destruct (tool_run nm input w) as [[result|e] w'].
    + destruct (provider_eqb prov NEBIUS) eqn:Hp.
      * pose proof (Shown w' (nebius ++ _make_nebius_tool_result result id nm)
                          results [tool_output_callback result id] [id]
                          eq_refl eq_refl) as S.
        apply S.
        -- unfold call_ids, Props.block_call_ids. simpl. now rewrite Hb.
        -- split; [|reflexivity].
           unfold message_ids. rewrite flat_map_app. f_equal.
           rewrite make_nebius_tool_result_shape.
           now destruct (truthy_opt (base64_image result)).
      * pose proof (Shown w' nebius
                          (results ++ [_make_api_tool_result result id])
                          [tool_output_callback result id] [id]
                          eq_refl eq_refl) as S.
        apply S.
        -- unfold call_ids, Props.block_call_ids. simpl. now rewrite Hb.
        -- split; [|reflexivity].
           unfold result_ids. rewrite flat_map_app. f_equal.
           unfold _make_api_tool_result.
           now destruct (truthy_opt (error result)).
    + exists [output_callback b]. simpl. split; [reflexivity|].
      split; [now exists rest|]. discriminate.
Qed.

(** X17.  In the loop over the blocks of a reply every block is shown once,
    in order, before any later block is handled, and the tool calls are
    answered one after the other in the order of the reply: when no tool
    raises, the blocks shown are the blocks of the reply and the ids
    answered are the ids of its tool calls; when a tool raises, the blocks
    shown are the ones up to the failing call. *)
Theorem blocks_are_shown_in_order
        (prov : APIProvider) (params : list Block) (w : World)
        (log : list Event) :
  let d := run_tools prov params [] [] w log in
  exists new,
    dispatch_trace World d = log ++ new /\
    (exists hidden, params = shown new ++ hidden) /\
    (raised World d = None ->
     shown new = params /\ answered new = call_ids params).
Proof.
  intro d.
  destruct (dispatch_trace_and_results prov params [] [] w log)
    as (new & Ht & Hh & Hok).
  exists new. split; [exact Ht|]. split; [exact Hh|].
  intro Hr. destruct (Hok Hr) as (Hs & Ha & _). now split.
Qed.

(** X18.  Call and result are paired: when no tool raises, the tool results
    the loop collects for a reply refer, one for one and in order, to the
    ids of the tool calls of the reply; for the Anthropic providers these
    are the tool_result blocks of the user message to append, for Nebius the
    tool messages to append. *)
Theorem every_tool_call_gets_its_result
        (prov : APIProvider) (params : list Block) (w : World)
        (log : list Event) :
  let d := run_tools prov params [] [] w log in
  raised World d = None ->
  if provider_eqb prov NEBIUS
  then message_ids (nebius_tool_messages World d) = call_ids params /\
       tool_result_content World d = []
  else result_ids (tool_result_content World d) = call_ids params /\
       nebius_tool_messages World d = [].
Proof.
  intros d Hr.
  destruct (dispatch_trace_and_results prov params [] [] w log)
    as (new & _ & _ & Hok).
  destruct (Hok Hr) as (_ & _ & H). exact H.
Qed.

(** The policies keep the conversation up to markers and images. *)
Lemma unmarked_without_images messages :
  unmarked (Retention.without_images messages)
  = Retention.without_images (unmarked messages).
Proof.
  unfold unmarked, Retention.without_images. rewrite !map_map.
  apply map_ext. intro m.
  unfold unmarked_message, Retention.without_images_message.
  destruct (content m) as [s|blocks] eqn:Hc; simpl; rewrite ?Hc;
    [reflexivity|].
  f_equal. f_equal. rewrite !map_map. apply map_ext. intro b.
  unfold unmarked_block, Retention.without_images_block.
  destruct (body b) as [t|mt dt|id nm input|id c e|th sg|url] eqn:Hb;
    simpl; rewrite ?Hb; try reflexivity.
  destruct c; simpl; rewrite ?Hb; reflexivity.
Qed.

Lemma apply_policies_normal settings messages only_n messages' only_n'
      caching e :
  apply_policies settings messages only_n = (messages', only_n', caching, e) ->
  normal messages' = normal messages /\
  List.length messages' = List.length messages.
Proof.
  intro H. destruct (apply_policies_effect _ _ _ _ _ _ _ H) as (L & A & O).
  split; [|exact L]. unfold normal.
  destruct (provider_eqb (provider settings) ANTHROPIC) eqn:Hp.
  - apply provider_eqb_eq in Hp. destruct (A Hp) as [U _]. now rewrite U.
  - assert (Hne : provider settings <> ANTHROPIC).
    { intro C. apply provider_eqb_eq in C. congruence. }
    destruct (O Hne) as [W _].
    now rewrite <- !unmarked_without_images, W.
Qed.

Lemma normal_app a b : normal (a ++ b) = normal a ++ normal b.
Proof.
  unfold normal, unmarked, Retention.without_images. now rewrite !map_app.
Qed.

Lemma normal_length a : List.length (normal a) = List.length a.
Proof.
  unfold normal, unmarked, Retention.without_images. now rewrite !length_map.
Qed.

(** X19.  The loop only appends: for every provider and however the loop
    ends, the conversation it leaves is the initial one, up to cache markers
    and images of tool results, followed by the messages appended; no
    message is removed, reordered or otherwise rewritten. *)
Theorem loop_only_appends
        (settings : Settings) (messages : list Message) (only_n : option Z)
        (w : World) (log : list Event) (fuel : nat) :
  let final :=
    final_messages (outcome World (loop fuel settings messages only_n w log)) in
  (exists appended, normal final = normal messages ++ appended) /\
  List.length messages <= List.length final.
Proof.
  intro final.
  assert (G : exists appended, normal final = normal messages ++ appended).
  { unfold final. clear final.
    revert settings messages only_n w log.
    induction fuel as [|fuel IH]; intros settings messages only_n w log.
    - exists []. simpl. now rewrite app_nil_r.
    - cbn [sampling_loop].
      destruct (apply_policies settings messages only_n)
        as [[[messages' only_n'] caching] e] eqn:Hpol.
      destruct (apply_policies_normal _ _ _ _ _ _ _ Hpol) as [N _].
      rewrite <- N.
      assert (Here : forall extra,
        exists appended, normal (messages' ++ extra)
                         = normal messages' ++ appended).
      { intro extra. exists (normal extra). apply normal_app. }
      assert (Stop : exists appended,
                normal messages' = normal messages' ++ appended).
      { exists []. now rewrite app_nil_r. }
      assert (Next : forall extra only_n2 w2 log2,
        exists appended,
          normal (final_messages
                    (outcome World
                       (loop fuel settings (messages' ++ extra) only_n2 w2
                             log2)))
          = normal messages' ++ appended).
      { intros extra only_n2 w2 log2.
        destruct (IH settings (messages' ++ extra) only_n2 w2 log2)
          as [appended E].
        exists (normal extra ++ appended).
        now rewrite E, normal_app, app_assoc. }
      destruct e as [e|]; [exact Stop|].
      destruct (call settings caching messages' w) as [[reply|e] w1];
        [|exact Stop].
      destruct (reply_params reply) as [params|e]; [|exact Stop].
      destruct (raised World (run_tools (provider settings) params [] [] w1
                                (log ++ [success_event reply]))) as [e|];
        [apply Here|].
      destruct (provider_eqb (provider settings) NEBIUS).
      + destruct (nebius_tool_messages World
                    (run_tools (provider settings) params [] [] w1
                       (log ++ [success_event reply]))) as [|m ms];
          [apply Here|].
        rewrite <- app_assoc. apply Next.
      + destruct (tool_result_content World
                    (run_tools (provider settings) params [] [] w1
                       (log ++ [success_event reply]))) as [|b bs];
          [apply Here|].
        rewrite <- app_assoc. apply Next. }
  split; [exact G|].
  destruct G as [appended E].
  rewrite <- (normal_length final), E, length_app, normal_length. lia.
Qed.

(** X20.  A tool call of a Nebius completion whose arguments are no JSON
    ends the loop with JSONDecodeError: the exception leaves the loop after
    the callback was told of a successful call, and no assistant message is
    appended to the conversation the policies left. *)
Theorem malformed_arguments_end_the_loop
        (settings : Settings) (messages messages' : list Message)
        (only_n only_n' : option Z) (caching : bool) (w w' : World)
        (log : list Event) (response : ChatCompletion) (choice : ChatMessage)
        (others : list ChatMessage) (raw : string) (fuel : nat) :
  provider settings = NEBIUS ->
  apply_policies settings messages only_n
    = (messages', only_n', caching, None) ->
  openai_create
    (mkOpenAIRequest (model settings)
       (mkWire "system" (Some (WStr (system_text SYSTEM_PROMPT settings)))
               None None
        :: _convert_anthropic_messages_to_openai messages')
       "required" (max_tokens settings)) w
    = (Ok response, w') ->
  choices response = choice :: others ->
  Response.first_invalid (Wire.calls_of choice) = Some raw ->
  loop (S fuel) settings messages only_n w log
  = mkRun World (Propagated (JSONDecodeError raw) messages') w'
          (log ++ [api_response_callback false (Completion response) None]).
Proof.
  intros Hp Hpol Hcall Hc Hraw.
  cbn [sampling_loop]. rewrite Hpol.
  rewrite (nebius_request_messages World SYSTEM_PROMPT beta_flag
             anthropic_create openai_create settings caching messages' w Hp).
  rewrite Hcall. cbn [reply_params success_event].
  unfold _convert_openai_response_to_anthropic. rewrite Hc.
  unfold Wire.calls_of in Hraw.
  destruct (chat_tool_calls choice) as [[|c calls]|]; try discriminate.
  rewrite response_tool_calls_outcome, Hraw. reflexivity.
Qed.

(** X21.  With provider ANTHROPIC, when the newest user message with list
    content has an empty list, the loop ends with IndexError before the
    backend is called: the conversation, the world and the trace are as they
    were, and no callback is called. *)
Theorem empty_user_message_stops_the_loop
        (settings : Settings) (older newer : list Message) (m : Message)
        (only_n : option Z) (w : World) (log : list Event) (fuel : nat) :
  provider settings = ANTHROPIC ->
  role m = "user" ->
  content m = Blocks [] ->
  forallb (fun x => negb (eligible x)) newer = true ->
  loop (S fuel) settings (older ++ m :: newer) only_n w log
  = mkRun World (Propagated IndexError (older ++ m :: newer)) w log.
Proof.
  intros Hp Hr Hc Hn.
  assert (E : _inject_prompt_caching (older ++ m :: newer)
              = (older ++ m :: newer, Some IndexError)).
  { unfold _inject_prompt_caching.
    rewrite rev_app_distr. simpl rev. rewrite <- app_assoc. simpl app.
    rewrite scan_skip by now rewrite forallb_rev.
    rewrite (scan_empty m (rev older) 3 Hr Hc). simpl.
    rewrite rev_app_distr. simpl.
    now rewrite !rev_involutive, <- app_assoc. }
  cbn [sampling_loop].
  rewrite apply_policies_anthropic by assumption. now rewrite E.
Qed.

End LoopExtras.

(** The further properties of the loop at concrete sessions. *)

Lemma loop_leaves_at_most_three_markers_witness :
  Breakpoints.count_marked
    (final_messages
       (outcome unit
          (sampling_loop unit "" None Fixture.replies_tool_call
             Fixture.completes_text Fixture.tool_succeeds 6
             (Fixture.settings ANTHROPIC) Fixture.five_user_turns None tt [])))
  <= 3.
Proof.
  apply (loop_leaves_at_most_three_markers
           unit "" None Fixture.replies_tool_call Fixture.completes_text
           Fixture.tool_succeeds (Fixture.settings ANTHROPIC)
           Fixture.five_user_turns None tt [] 5);
    reflexivity.
Defined.

Lemma every_tool_call_gets_its_result_witness :
  Trace.result_ids
    (tool_result_content unit
       (dispatch unit Fixture.tool_succeeds BEDROCK
          [block (Text "two calls");
           block (ToolUse "toolu_1" "bash" (JObj [("command", JStr "ls")]));
           block (ToolUse "toolu_2" "computer"
                          (JObj [("action", JStr "screenshot")]))]
          [] [] tt []))
  = ["toolu_1"; "toolu_2"].
Proof.
  apply (every_tool_call_gets_its_result
           unit Fixture.tool_succeeds BEDROCK
           [block (Text "two calls");
            block (ToolUse "toolu_1" "bash" (JObj [("command", JStr "ls")]));
            block (ToolUse "toolu_2" "computer"
                           (JObj [("action", JStr "screenshot")]))]
           tt [] eq_refl).
Defined.

Lemma malformed_arguments_end_the_loop_witness :
  sampling_loop unit "" None Fixture.replies_text Sample.completes_bad_call
    Fixture.tool_succeeds 1 (Fixture.settings NEBIUS)
    [Fixture.user_turn "hi"] None tt []
  = mkRun unit (Propagated (JSONDecodeError "{oops") [Fixture.user_turn "hi"])
          tt
          [api_response_callback false
             (Completion
                (mkChatCompletion
                   [mkChatMessage None
                      (Some [mkResponseToolCall "call_1" "bash"
                               (NotJson "{oops")])]))
             None].
Proof.
  apply (malformed_arguments_end_the_loop
           unit "" None Fixture.replies_text Sample.completes_bad_call
           Fixture.tool_succeeds (Fixture.settings NEBIUS)
           [Fixture.user_turn "hi"] [Fixture.user_turn "hi"] None None false
           tt tt []
           (mkChatCompletion
              [mkChatMessage None
                 (Some [mkResponseToolCall "call_1" "bash" (NotJson "{oops")])])
           (mkChatMessage None
              (Some [mkResponseToolCall "call_1" "bash" (NotJson "{oops")]))
           [] "{oops" 0);
    reflexivity.
Defined.

Lemma empty_user_message_stops_the_loop_witness :
  sampling_loop unit "" None Fixture.replies_text Fixture.completes_text
    Fixture.tool_succeeds 1 (Fixture.settings ANTHROPIC)
    Fixture.empty_last_turn None tt []
  = mkRun unit (Propagated IndexError Fixture.empty_last_turn) tt [].
Proof.
  apply (empty_user_message_stops_the_loop
           unit "" None Fixture.replies_text Fixture.completes_text
           Fixture.tool_succeeds (Fixture.settings ANTHROPIC)
           [Fixture.user_turn "one"; Fixture.user_turn "two";
            Fixture.user_turn "three"; Fixture.user_turn "four"]
           [] (message "user" (Blocks [])) None tt [] 0);
    reflexivity.
Defined.

(** ** The translation of the tool declarations *)

Section ToolFacts.

Import Tools.

Lemma lookup_name nm t :
  lookup nm ANTHROPIC_TO_OPENAI_TOOLS = Some t ->
  decl_name (tool_function t) = nm /\ tool_type t = "function".
Proof.
  unfold ANTHROPIC_TO_OPENAI_TOOLS. cbn [lookup].
  destruct (String.eqb_spec "computer" nm) as [<-|_];
    [intro H; inversion H; now split|].
  destruct (String.eqb_spec "str_replace_editor" nm) as [<-|_];
    [intro H; inversion H; now split|].
  destruct (String.eqb_spec "bash" nm) as [<-|_];
    [intro H; inversion H; now split|].
  intro H. discriminate H.
Qed.

(** X22.  The tool declarations are translated one to one and in order;
    every translated declaration has type "function" and the name of the
    tool it comes from ("unknown" for a tool without a name). *)
Theorem tool_names_are_kept (anthropic_tools : list ToolParam) :
  List.length (_convert_anthropic_tools_to_openai anthropic_tools)
    = List.length anthropic_tools /\
  map (fun t => decl_name (tool_function t))
      (_convert_anthropic_tools_to_openai anthropic_tools)
    = map (fun tool => default_str (tool_name tool) "unknown") anthropic_tools /\
  Forall (fun t => tool_type t = "function")
         (_convert_anthropic_tools_to_openai anthropic_tools).
Proof.
  unfold _convert_anthropic_tools_to_openai.
  split; [apply length_map|]. split.
  - rewrite map_map. apply map_ext. intro tool. unfold convert, fallback.
    destruct (tool_name tool) as [nm|]; [|reflexivity].
    destruct (lookup nm ANTHROPIC_TO_OPENAI_TOOLS) as [t|] eqn:E;
      [|reflexivity].
    now destruct (lookup_name nm t E).
  - apply Forall_forall. intros t Hin. apply in_map_iff in Hin as (tool & <- & _).
    unfold convert, fallback.
    destruct (tool_name tool) as [nm|]; [|reflexivity].
    destruct (lookup nm ANTHROPIC_TO_OPENAI_TOOLS) as [t|] eqn:E;
      [|reflexivity].
    now destruct (lookup_name nm t E).
Qed.

(** X23.  For a tool named "computer", "str_replace_editor" or "bash" the
    translated declaration is fixed: the description and the input schema
    the tool itself declares are not used.  For every other tool they are
    copied as they are, an absent description becoming the empty string and
    an absent schema the empty object. *)
Theorem predefined_tools_ignore_their_schema (tool : ToolParam) (nm : string) :
  tool_name tool = Some nm ->
  if predefined nm
  then convert tool = convert (mkToolParam (Some nm) None None)
  else convert tool
       = mkOpenAITool "function"
           (mkFunctionDecl nm
              (default_str (tool_description tool) "")
              (match tool_input_schema tool with
               | Some schema => schema
               | None => JObj []
               end)).
Proof.
  intro Hn. unfold predefined, convert. rewrite Hn. simpl tool_name.
  destruct (lookup nm ANTHROPIC_TO_OPENAI_TOOLS) as [t|] eqn:E.
  - now rewrite E.
  - unfold fallback. now rewrite Hn.
Qed.

Lemma predefined_tools_ignore_their_schema_witness :
  convert (mkToolParam (Some "bash") (Some "Run a command")
                       (Some (JObj [("type", JStr "object")])))
  = convert (mkToolParam (Some "bash") None None).
Proof.
  exact (predefined_tools_ignore_their_schema
           (mkToolParam (Some "bash") (Some "Run a command")
                        (Some (JObj [("type", JStr "object")])))
           "bash" eq_refl).
Defined.

End ToolFacts.

(** ** A loop without bound *)

Section LoopGrowth.

Import Trace.

Variable World : Type.
Variable SYSTEM_PROMPT : string.
Variable beta_flag : option string.
Variable anthropic_create : AnthropicRequest -> World -> Result BetaMessage * World.
Variable openai_create : OpenAIRequest -> World -> Result ChatCompletion * World.
Variable tool_run : string -> json -> World -> Result ToolResult * World.

Local Abbreviation loop :=
  (sampling_loop World SYSTEM_PROMPT beta_flag anthropic_create openai_create
                 tool_run).
Local Abbreviation run_tools := (dispatch World tool_run).

(** Without ANTHROPIC the policies raise nothing and keep the length. *)
Lemma apply_policies_other settings messages only_n :
  provider settings <> ANTHROPIC ->
  exists messages',
    apply_policies settings messages only_n
      = (messages', only_n, false, None) /\
    List.length messages' = List.length messages.
Proof.
  intro Hp.
  destruct (apply_policies settings messages only_n)
    as [[[messages' only_n'] caching] e] eqn:H.
  destruct (apply_policies_effect _ _ _ _ _ _ _ H) as (L & _ & O).
  destruct (O Hp) as (_ & -> & -> & _).
  exists messages'. split; [|exact L]. f_equal.
  unfold apply_policies in H.
  destruct (provider_eqb (provider settings) ANTHROPIC) eqn:E.
  - apply provider_eqb_eq in E. contradiction.
  - destruct (truthy_int only_n) eqn:T; [|now inversion H].
    unfold _maybe_filter_to_n_most_recent_images in H.
    destruct only_n as [n|]; [|discriminate T]. simpl in T, H.
    destruct (Z.eqb n 0); [discriminate T|]. now inversion H.
Qed.

Lemma dispatch_never_raises prov params :
  (forall nm input w, exists result w',
     tool_run nm input w = (Ok result, w')) ->
  forall nebius results w log,
    raised World (run_tools prov params nebius results w log) = None.
Proof.
  intro Htools.
  induction params as [|b rest IH]; intros nebius results w log;
    [reflexivity|].
  cbn [dispatch].
  destruct (body b) as [t|mt dt|id nm input|id c e|th sg|url];
    try apply IH.
  destruct (Htools nm input w) as (result & w' & ->).
  destruct (provider_eqb prov NEBIUS); apply IH.
Qed.

Lemma call_ids_nonempty params :
  existsb Props.is_tool_use params = true -> call_ids params <> [].
Proof.
  induction params as [|b rest IH]; [discriminate|].
  unfold call_ids, Props.is_tool_use, Props.block_call_ids in *. simpl.
  destruct (body b); simpl; try exact IH; discriminate.
Qed.

(** X24.  The loop has no bound of its own.  With provider BEDROCK or
    VERTEX, when every reply of the backend holds a tool call and the tool
    executor always returns, the loop is still running after any number of
    iterations, and each iteration has added exactly two messages: the
    assistant message and one user message with the tool results. *)
Theorem loop_runs_while_tools_are_called
        (settings : Settings) (messages : list Message) (only_n : option Z)
        (w : World) (log : list Event) (fuel : nat) :
  provider settings = BEDROCK \/ provider settings = VERTEX ->
  (forall request w0, exists response w1,
     anthropic_create request w0 = (Ok response, w1) /\
     existsb Props.is_tool_use (_response_to_params response) = true) ->
  (forall nm input w0, exists result w1,
     tool_run nm input w0 = (Ok result, w1)) ->
  exists final,
    outcome World (loop fuel settings messages only_n w log) = Running final /\
    List.length final = List.length messages + 2 * fuel.
Proof.
  intros Hp Hbackend Htools.
  assert (Hna : provider settings <> ANTHROPIC)
    by (destruct Hp as [-> | ->]; discriminate).
  assert (Hnn : provider_eqb (provider settings) NEBIUS = false)
    by (destruct Hp as [-> | ->]; reflexivity).
  revert messages only_n w log.
  induction fuel as [|fuel IH]; intros messages only_n w log.
  - exists messages. split; [reflexivity | lia].
  - cbn [sampling_loop].
    destruct (apply_policies_other settings messages only_n Hna)
      as (messages' & -> & L).
    unfold call_api. rewrite Hnn.
    match goal with
    | |- context [anthropic_create ?request w] =>
        destruct (Hbackend request w) as (response & w1 & -> & Hcall)
    end.
    cbn [reply_params].
    set (params := _response_to_params response) in *.
    set (d := run_tools (provider settings) params [] [] w1
                        (log ++ [success_event (AnthropicReply response)])).
    pose proof (dispatch_never_raises (provider settings) params Htools
                  [] [] w1
                  (log ++ [success_event (AnthropicReply response)])) as Hr.
    fold d in Hr. rewrite Hr.
    destruct (dispatch_trace_and_results World tool_run
                (provider settings) params [] [] w1
                (log ++ [success_event (AnthropicReply response)]))
      as (new & _ & _ & Hok).
    fold d in Hok. destruct (Hok Hr) as (_ & _ & Hids).
    rewrite Hnn in Hids. destruct Hids as [Hids _].
    destruct (tool_result_content World d) as [|b bs] eqn:Hc.
    + exfalso. apply (call_ids_nonempty params Hcall).
      simpl in Hids. now symmetry.
    + destruct (IH ((messages' ++ [message "assistant" (Blocks params)])
                      ++ [message "user" (Blocks (b :: bs))])
                   only_n (dispatch_world World d) (dispatch_trace World d))
        as (final & Hrun & Hlen).
      exists final. split; [exact Hrun|].
      rewrite Hlen, !length_app, L. simpl. lia.
Qed.

End LoopGrowth.

Lemma loop_runs_while_tools_are_called_witness :
  exists final,
    outcome unit
      (sampling_loop unit "" None Fixture.replies_tool_call
         Fixture.completes_text Fixture.tool_succeeds 4
         (Fixture.settings BEDROCK) [Fixture.user_turn "list the files"]
         None tt [])
    = Running final /\
    List.length final = 1 + 2 * 4.
Proof.
  apply (loop_runs_while_tools_are_called
           unit "" None Fixture.replies_tool_call Fixture.completes_text
           Fixture.tool_succeeds (Fixture.settings BEDROCK)
           [Fixture.user_turn "list the files"] None tt [] 4).
  - now left.
  - intros request w0. eexists. eexists. split; reflexivity.
  - intros nm input w0. eexists. eexists. reflexivity.
Defined.

(** ** The Nebius/OpenAI adapter of adapters.py *)

Section AdapterFacts.

Import NebiusOpenAIAdapter.

Lemma to_api_messages_flat_map messages :
  to_api_messages messages = flat_map message_out messages.
Proof.
  unfold to_api_messages.
  assert (G : forall out,
    fold_left (fun api_messages msg => api_messages ++ message_out msg)
              messages out
    = out ++ flat_map message_out messages).
  { induction messages as [|m rest IH]; intro out; simpl.
    - now rewrite app_nil_r.
    - now rewrite IH, <- app_assoc. }
  apply G.
Qed.




(** X26.  A tool message with list content is sent as one tool-role
    message for each of its tool results, in order, with the id and the text
    of the result and the same fixed name for all; screenshots, error flags
    and items that are no tool results are not sent. *)
Theorem adapter_tool_results
        (before after : list InternalMessage) (msg : InternalMessage)
        (items : list InternalItem) :
  internal_role msg = "tool" ->
  internal_content msg = InternalList items ->
  to_api_messages (before ++ msg :: after) =
  to_api_messages before ++
  map (fun r => mkApiMessage "tool" (Some (InternalText (Some (snd r)))) None
                             (Some (fst r)) (Some placeholder_name))
      (flat_map item_result_id items) ++
  to_api_messages after.
Proof.
  intros Hr Hc. rewrite !to_api_messages_flat_map, flat_map_app. simpl.
  f_equal. f_equal. unfold message_out. rewrite Hc, Hr. simpl.
  clear. induction items as [|item rest IH]; [reflexivity|].
  simpl. rewrite map_app, IH. now destruct item.
Qed.

Lemma adapter_tool_results_witness :
  to_api_messages
    ([] ++
     mkInternalMessage "tool"
       (InternalList [InternalToolResult "call_1" "ok" (Some "s1") false;
                      InternalDict JNull;
                      InternalToolResult "call_2" "failed" None true])
     :: [])
  = [mkApiMessage "tool" (Some (InternalText (Some "ok"))) None
       (Some "call_1") (Some placeholder_name);
     mkApiMessage "tool" (Some (InternalText (Some "failed"))) None
       (Some "call_2") (Some placeholder_name)].
Proof.
  rewrite (adapter_tool_results [] []
             (mkInternalMessage "tool"
                (InternalList
                   [InternalToolResult "call_1" "ok" (Some "s1") false;
                    InternalDict JNull;
                    InternalToolResult "call_2" "failed" None true]))
             _ eq_refl eq_refl).
  reflexivity.
Defined.

End AdapterFacts.
